(** * dynamips_lib: the hypervisor request/reply engine and link orchestration

    A shallow embedding of the core of [dynamips_lib.py]:
    - [send]: the reply loop that reassembles hypervisor replies from
      socket reads and classifies the terminator line;
    - [validate_connect]: the adapter compatibility check;
    - [gen_connect]: UDP port allocation and creation of the paired NIOs;
    - [checkconsole] and the [Router.console] setter.

    The module is Python 2 code ([has_key], [recv] results concatenated
    onto a [str] buffer).  Python [str] values are modelled as [string],
    Python integers as [Z] (unbounded: the switch from [int] to [long] at
    [sys.maxint] is left out), objects as entries of an explicit store
    indexed by object identity, and raised exceptions as values of [exn]
    returned next to the store they leave behind. *)

From Stdlib Require Import ZArith Ascii String List Lia Bool DecimalString.
From Stdlib Require DecimalZ.
From stdpp Require Import base option list gmap strings.

Open Scope string_scope.
Open Scope list_scope.

(** ** Python string primitives used by the module *)

Module PyStr.

Definition CR : ascii := "013"%char.
Definition LF : ascii := "010"%char.

(** The separator ['\r\n']. *)
Definition CRLF : string := String CR (String LF EmptyString).

(** [s[-1]]: [None] stands for the [IndexError] of an empty string. *)
Fixpoint last_char (s : string) : option ascii :=
  match s with
  | EmptyString => None
  | String c EmptyString => Some c
  | String _ s' => last_char s'
  end.

(** Prepend a character to the first field of a split. *)
Definition cons_head (c : ascii) (fields : list string) : list string :=
  match fields with
  | [] => [String c EmptyString]
  | f :: fs => String c f :: fs
  end.

(** [s.split('\r\n')]: left-to-right, non-overlapping occurrences of the
    separator; the result always has at least one field. *)
Fixpoint split_crlf (s : string) : list string :=
  match s with
  | EmptyString => [EmptyString]
  | String c s' =>
      match s' with
      | EmptyString => [String c EmptyString]
      | String d t =>
          if Ascii.eqb c CR && Ascii.eqb d LF
          then EmptyString :: split_crlf t
          else cons_head c (split_crlf s')
      end
  end.

(** [s[:4]]. *)
Definition slice4 (s : string) : string := String.substring 0 4 s.

(** [sub in s] for two strings: [sub] occurs somewhere in [s]. *)
Fixpoint str_in (sub s : string) : bool :=
  String.prefix sub s ||
  match s with
  | EmptyString => false
  | String _ s' => str_in sub s'
  end.

(** [x in t] for a tuple of strings [t]. *)
Definition tuple_in (x : string) (t : list string) : bool :=
  existsb (String.eqb x) t.

Definition is_digit (c : ascii) : bool :=
  (48 <=? nat_of_ascii c)%nat && (nat_of_ascii c <=? 57)%nat.

(** [%i] / [str()] of an integer. *)
Definition str_of_Z (z : Z) : string := NilEmpty.string_of_int (Z.to_int z).

End PyStr.
Import PyStr.

(** [error_re = re.compile(r"^2[0-9][0-9]-")], used through [search]. *)
Definition error_re (s : string) : bool :=
  match s with
  | String c0 (String c1 (String c2 (String c3 _))) =>
      Ascii.eqb c0 "2"%char && is_digit c1 && is_digit c2 && Ascii.eqb c3 "-"%char
  | _ => false
  end.

(** ** Exceptions *)

Inductive exn : Type :=
| DynamipsError (msg : string)
| DynamipsWarning (msg : string)
| IndexError
| TypeError
| AttributeError.

(** ** The socket of a [Dynamips] object *)

(** What one call of [recv] does: deliver a chunk, or raise [timeout].
    Other socket errors are not caught by [send] and are left out. *)
Inductive recv_result : Type :=
| Chunk (chunk : string)
| TimedOut.

(** What [recv] does once the scripted events are used up: a silent peer
    lets the read time out, a peer that closed the connection makes every
    further [recv] return the empty string. *)
Inductive peer_end : Type :=
| PeerSilent
| PeerClosed.

Record socket : Type := Socket {
  incoming : list recv_result;
  at_end : peer_end
}.

(** ** [send] *)

(** Result of one pass through the body of [while True]. *)
Inductive loop_step : Type :=
| Continue (data : list string) (buf : string)
| Break (data : list string)
| Raised (e : exn).

(** The body of the loop after [recv] returned [chunk]. *)
Definition send_body (data : list string) (buf chunk : string) : loop_step :=
  let buf := buf +:+ chunk in
  match last_char buf with
  | None => Raised IndexError                          (* buf[-1] on '' *)
  | Some c =>
      if negb (Ascii.eqb c LF) then Continue data buf
      else
        let data := data ++ split_crlf buf in
        match last data with
        | None => Raised IndexError                    (* data[-1] on [] *)
        | Some l =>
            let data := if String.eqb l "" then removelast data else data in
            match last data with
            | None => Raised IndexError
            | Some l =>
                if String.eqb (slice4 l) "100-" then Break data
                else if error_re l then Raised (DynamipsError l)
                else Continue data ""
            end
        end
  end.

(** What [send] hands back to its caller. *)
Inductive outcome : Type :=
| Returns (data : list string)
| ReturnsEmptyStr                  (* the NOSEND branch: [return ''] *)
| Raises (e : exn)
| Hangs.                           (* the loop never exits *)

(** The code after the loop. *)
Definition after_loop (data : list string) : outcome :=
  if (length data =? 0)%nat then Raises (DynamipsError "no data")
  else Returns data.

(** The loop once the peer has closed the connection: every [recv] returns
    [''].  Either the first pass leaves the loop, or it flushes the buffer
    and the second pass runs on an empty buffer, or it leaves [data] and
    [buf] as they were and the loop repeats forever
    (see [closed_loop_hangs]). *)
Definition closed_loop (data : list string) (buf : string) : outcome :=
  match send_body data buf "" with
  | Raised e => Raises e
  | Break d => after_loop d
  | Continue d b =>
      match send_body d b "" with
      | Raised e => Raises e
      | Break d' => after_loop d'
      | Continue _ _ => Hangs
      end
  end.

(** The [while True] loop over the events the socket delivers.  Returns the
    outcome and the events left unread. *)
Fixpoint send_loop (events : list recv_result) (tail : peer_end)
    (data : list string) (buf : string) : outcome * list recv_result :=
  match events with
  | [] =>
      match tail with
      | PeerSilent => (Raises (DynamipsError "timeout"), [])
      | PeerClosed => (closed_loop data buf, [])
      end
  | TimedOut :: rest => (Raises (DynamipsError "timeout"), rest)
  | Chunk chunk :: rest =>
      match send_body data buf chunk with
      | Continue d b => send_loop rest tail d b
      | Break d => (after_loop d, rest)
      | Raised e => (Raises e, rest)
      end
  end.

(** [send(dynamips, command)] on the socket of [dynamips].  A failing
    [sendall] is caught and only printed, so the command does not influence
    the result. *)
Definition send (NOSEND : bool) (s : socket) : outcome * socket :=
  if NOSEND then (ReturnsEmptyStr, s)
  else
    let '(out, rest) := send_loop (incoming s) (at_end s) [] "" in
    (out, Socket rest (at_end s)).

(** ** [validate_connect] *)

(** How a call ends: it returns a value, raises, never returns (a [send]
    that hangs), or was handed a reference the store has no object for
    (Python references are never dangling; the theorems say where they
    need the arguments allocated). *)
Inductive result (A : Type) : Type :=
| Ok (a : A)
| Exc (e : exn)
| Diverges
| BadRef.
Arguments Ok {A} a.
Arguments Exc {A} e.
Arguments Diverges {A}.
Arguments BadRef {A}.

Definition ethernets : list string :=
  ["C7200-IO-FE"; "PA-FE-TX"; "PA-4E"; "PA-8E"; "NM-1FE-TX"; "NM-1E"; "NM-4E";
   "NM-16ESW"; "Leopard-2FE"; "GT96100-FE"; "Bridge"; "ETHSW"].
Definition serials : list string := ["PA-4T+"; "PA-8T"; "NM-4T"; "FRSW"].
Definition atms : list string := ["PA-A1"; "ATMSW"].
(** [poss = ('PA-POS-OC3')] is a parenthesised string, not a tuple, so
    [a in poss] is a substring test. *)
Definition poss : string := "PA-POS-OC3".

(** [validate_connect(int1, int2)], on the values of the [adapter]
    attributes of the two objects; [None] is an object without the
    attribute ([AttributeError]). *)
Definition validate_connect (int1 int2 : option string) : result unit :=
  match int1, int2 with
  | Some a1, Some a2 =>
      if String.eqb a1 "Bridge" && String.eqb a2 "Bridge"
      then Exc (DynamipsError "attempt to connect two bridges")
      else if tuple_in a1 ethernets && tuple_in a2 ethernets then Ok tt
      else if tuple_in a1 serials && tuple_in a2 serials then Ok tt
      else if tuple_in a1 atms && tuple_in a2 atms then Ok tt
      else if str_in a1 poss && str_in a2 poss then Ok tt
      else Exc (DynamipsError ("attempt to connect " +:+ a1 +:+ " to " +:+ a2))
  | _, _ => Exc (DynamipsError "invalid adapter or no adapter present")
  end.

(** The adapter kinds the module defines: the [adapter] strings of the
    [PA_*] and [NM_*] classes, of [Bridge] and of the three switches. *)
Inductive kind : Type :=
| C7200_IO_FE | PA_A1 | PA_FE_TX | PA_4T | PA_8T | PA_4E | PA_8E | PA_POS_OC3
| Leopard_2FE | NM_1FE_TX | NM_1E | NM_4E | NM_4T | NM_16ESW | GT96100_FE
| KBridge | KFRSW | KATMSW | KETHSW.

Definition adapter_name (k : kind) : string :=
  match k with
  | C7200_IO_FE => "C7200-IO-FE" | PA_A1 => "PA-A1" | PA_FE_TX => "PA-FE-TX"
  | PA_4T => "PA-4T+" | PA_8T => "PA-8T" | PA_4E => "PA-4E" | PA_8E => "PA-8E"
  | PA_POS_OC3 => "PA-POS-OC3" | Leopard_2FE => "Leopard-2FE"
  | NM_1FE_TX => "NM-1FE-TX" | NM_1E => "NM-1E" | NM_4E => "NM-4E"
  | NM_4T => "NM-4T" | NM_16ESW => "NM-16ESW" | GT96100_FE => "GT96100-FE"
  | KBridge => "Bridge" | KFRSW => "FRSW" | KATMSW => "ATMSW" | KETHSW => "ETHSW"
  end.

Definition all_kinds : list kind :=
  [C7200_IO_FE; PA_A1; PA_FE_TX; PA_4T; PA_8T; PA_4E; PA_8E; PA_POS_OC3;
   Leopard_2FE; NM_1FE_TX; NM_1E; NM_4E; NM_4T; NM_16ESW; GT96100_FE;
   KBridge; KFRSW; KATMSW; KETHSW].

(** The four families of the specification. *)
Inductive family : Type := Ethernet | Serial | ATM | POS.

(** The family of a kind, as the specification words it: Ethernet adapters
    of all router families, bridges and Ethernet switches are
    Ethernet-like; serial adapters and the Frame Relay switch are Serial;
    the ATM adapter and the ATM switch are ATM; the POS adapter is POS. *)
Definition family_of (k : kind) : family :=
  match k with
  | C7200_IO_FE | PA_FE_TX | PA_4E | PA_8E | Leopard_2FE | NM_1FE_TX
  | NM_1E | NM_4E | NM_16ESW | GT96100_FE | KBridge | KETHSW => Ethernet
  | PA_4T | PA_8T | NM_4T | KFRSW => Serial
  | PA_A1 | KATMSW => ATM
  | PA_POS_OC3 => POS
  end.

Definition family_eqb (f g : family) : bool :=
  match f, g with
  | Ethernet, Ethernet | Serial, Serial | ATM, ATM | POS, POS => true
  | _, _ => false
  end.

Definition is_bridge (k : kind) : bool :=
  match k with KBridge => true | _ => false end.

(** The rule of the specification: same family, and not two bridges. *)
Definition compatible (k1 k2 : kind) : bool :=
  family_eqb (family_of k1) (family_of k2) && negb (is_bridge k1 && is_bridge k2).

Definition succeeds {A} (r : result A) : bool :=
  match r with Ok _ => true | _ => false end.

Definition raises {A} (r : result A) : bool :=
  match r with Exc _ => true | _ => false end.

(** ** The object store *)

(** A [Dynamips] object: one connection to a hypervisor.  [d_sent] records
    the commands handed to [sendall], oldest first. *)
Record Dynamips : Type := mkDynamips {
  d_host : string;
  d_port : Z;
  d_baseconsole : Z;
  d_udp : Z;
  d_devices : list nat;
  d_s : socket;
  d_sent : list string
}.

(** A [NIO_udp] object; its attributes are fixed at construction. *)
Record NIO_udp : Type := mkNIO_udp {
  nio_d : nat;
  nio_udplocal : Z;
  nio_remotehost : string;
  nio_udpremote : Z;
  nio_name : string
}.

(** A [Router] object; [r_console = None] when the attribute was never
    set (a router created with [consoleFlag = False]). *)
Record Router : Type := mkRouter {
  r_d : nat;
  r_model : string;
  r_name : string;
  r_console : option Z
}.

(** The objects [gen_connect] links.  An adapter sits in a slot of a router,
    whose [dynamips], [model] and [name] never change after construction
    and are kept with the adapter. *)
Inductive Endpoint : Type :=
| BaseAdapter (router_d : nat) (router_model router_name : string)
    (slot : Z) (adapter : string) (ports : nat) (nios : list (option NIO_udp))
| Bridge (d : nat) (name : string) (nios : list NIO_udp)
| FRSW (d : nat) (name : string) (nios : gmap (option Z) NIO_udp)
| ATMSW (d : nat) (name : string) (nios : gmap (option Z) NIO_udp)
| ETHSW (d : nat) (name : string) (nios : gmap (option Z) NIO_udp)
| Plain.          (* any object without an [adapter] attribute *)

(** The [adapter] property of each class. *)
Definition adapter_of (e : Endpoint) : option string :=
  match e with
  | BaseAdapter _ _ _ _ adapter _ _ => Some adapter
  | Bridge _ _ _ => Some "Bridge"
  | FRSW _ _ _ => Some "FRSW"
  | ATMSW _ _ _ => Some "ATMSW"
  | ETHSW _ _ _ => Some "ETHSW"
  | Plain => None
  end.

(** The interpreter state the modelled functions read and write. *)
Record world : Type := mkWorld {
  NOSEND : bool;                       (* the module global *)
  NIO_udp_instance : Z;                (* the class attribute NIO_udp.__instance *)
  dynamips : gmap nat Dynamips;
  routers : gmap nat Router;
  endpoints : gmap nat Endpoint;
  nio_objects : list NIO_udp           (* the NIO_udp objects constructed so far *)
}.

Definition with_dynamips (f : gmap nat Dynamips -> gmap nat Dynamips) (w : world) : world :=
  mkWorld (NOSEND w) (NIO_udp_instance w) (f (dynamips w)) (routers w)
          (endpoints w) (nio_objects w).

Definition with_routers (f : gmap nat Router -> gmap nat Router) (w : world) : world :=
  mkWorld (NOSEND w) (NIO_udp_instance w) (dynamips w) (f (routers w))
          (endpoints w) (nio_objects w).

Definition with_endpoints (f : gmap nat Endpoint -> gmap nat Endpoint) (w : world) : world :=
  mkWorld (NOSEND w) (NIO_udp_instance w) (dynamips w) (routers w)
          (f (endpoints w)) (nio_objects w).

(** ** Calls as state transformers *)

Definition M (A : Type) : Type := world -> result A * world.

Definition ret {A} (a : A) : M A := fun w => (Ok a, w).

Definition bind {A B} (m : M A) (k : A -> M B) : M B :=
  fun w =>
    match m w with
    | (Ok a, w') => k a w'
    | (Exc e, w') => (Exc e, w')
    | (Diverges, w') => (Diverges, w')
    | (BadRef, w') => (BadRef, w')
    end.

Definition raise {A} (e : exn) : M A := fun w => (Exc e, w).

Definition lift {A} (r : result A) : M A := fun w => (r, w).

Notation "'do' x <- m ; k" := (bind m (fun x => k))
  (at level 10, x name, m at level 100, k at level 200).
Notation "'do_' m ; k" := (bind m (fun _ => k))
  (at level 10, m at level 100, k at level 200).

Definition get_dynamips (d : nat) : M Dynamips :=
  fun w => match dynamips w !! d with
           | Some o => (Ok o, w)
           | None => (BadRef, w)
           end.

Definition get_endpoint (a : nat) : M Endpoint :=
  fun w => match endpoints w !! a with
           | Some o => (Ok o, w)
           | None => (BadRef, w)
           end.

Definition get_router (r : nat) : M Router :=
  fun w => match routers w !! r with
           | Some o => (Ok o, w)
           | None => (BadRef, w)
           end.

Definition put_endpoint (a : nat) (e : Endpoint) : M unit :=
  fun w => (Ok tt, with_endpoints (insert a e) w).

Definition with_udp (v : Z) (o : Dynamips) : Dynamips :=
  mkDynamips (d_host o) (d_port o) (d_baseconsole o) v (d_devices o) (d_s o) (d_sent o).

(** [d.udp = v]. *)
Definition set_udp (d : nat) (v : Z) : M unit :=
  fun w =>
    match dynamips w !! d with
    | Some o => (Ok tt, with_dynamips (insert d (with_udp v o)) w)
    | None => (BadRef, w)
    end.

(** [send(d, command)] inside the store: the command goes out on the
    socket of [d], the reply loop consumes the events of that socket. *)
Definition send_to (d : nat) (command : string) : M unit :=
  fun w =>
    match dynamips w !! d with
    | None => (BadRef, w)
    | Some o =>
        if NOSEND w then (Ok tt, w)
        else
          let '(out, s') := send false (d_s o) in
          let w' := with_dynamips
                      (insert d (mkDynamips (d_host o) (d_port o) (d_baseconsole o)
                                   (d_udp o) (d_devices o) s' (d_sent o ++ [command]))) w in
          match out with
          | Returns _ | ReturnsEmptyStr => (Ok tt, w')
          | Raises e => (Exc e, w')
          | Hangs => (Diverges, w')
          end
    end.

(** [NIO_udp(dynamips, udplocal, remotehost, udpremote)]: the constructor
    takes the next instance number for the default name and creates the
    NIO on the hypervisor. *)
Definition new_NIO_udp (d : nat) (udplocal : Z) (remotehost : string) (udpremote : Z)
    : M NIO_udp :=
  fun w =>
    let instance := NIO_udp_instance w in
    let w1 := mkWorld (NOSEND w) (instance + 1) (dynamips w) (routers w)
                (endpoints w) (nio_objects w) in
    let name := "nio_udp" +:+ str_of_Z instance in
    let self := mkNIO_udp d udplocal remotehost udpremote name in
    match send_to d ("nio create_udp " +:+ name +:+ " " +:+ str_of_Z udplocal +:+ " "
                      +:+ remotehost +:+ " " +:+ str_of_Z udpremote) w1 with
    | (Ok _, w2) =>
        (Ok self,
         mkWorld (NOSEND w2) (NIO_udp_instance w2) (dynamips w2) (routers w2)
           (endpoints w2) (nio_objects w2 ++ [self]))
    | (Exc e, w2) => (Exc e, w2)
    | (Diverges, w2) => (Diverges, w2)
    | (BadRef, w2) => (BadRef, w2)
    end.

(** [port < 0 or port > len(self.ports) - 1]; Python 2 orders [None] below
    every integer. *)
Definition port_out_of_range (port : option Z) (ports : nat) : bool :=
  match port with
  | None => true
  | Some p => (p <? 0)%Z || (Z.of_nat ports - 1 <? p)%Z
  end.

(** [self.nio(port=port, nio=nio)] with a [NIO_udp] object, for each class.
    [Bridge.nio] has no [port] parameter. *)
Definition nio_port (a : nat) (port : option Z) (nio : NIO_udp) : M unit :=
  do e <- get_endpoint a ;
  match e with
  | BaseAdapter rd model name slot adapter ports nios =>
      if port_out_of_range port ports then raise (DynamipsError "invalid port")
      else
        let p := default 0%Z port in
        do_ send_to rd (model +:+ " add_nio_binding " +:+ name +:+ " " +:+ str_of_Z slot
                          +:+ " " +:+ str_of_Z p +:+ " " +:+ nio_name nio) ;
        if (Z.to_nat p <? length nios)%nat
        then put_endpoint a (BaseAdapter rd model name slot adapter ports
                               (<[Z.to_nat p := Some nio]> nios))
        else raise IndexError
  | Bridge _ _ _ => raise TypeError
  | FRSW d name nios => put_endpoint a (FRSW d name (<[port := nio]> nios))
  | ATMSW d name nios => put_endpoint a (ATMSW d name (<[port := nio]> nios))
  | ETHSW d name nios =>
      do_ send_to d ("ethsw add_nio " +:+ name +:+ " " +:+ nio_name nio) ;
      put_endpoint a (ETHSW d name (<[port := nio]> nios))
  | Plain => raise AttributeError
  end.

(** [self.nio(nio=nio)] of a [Bridge]; [gen_connect] calls it only behind
    [isinstance(dst_adapter, Bridge)]. *)
Definition nio_bridge (a : nat) (nio : NIO_udp) : M unit :=
  do e <- get_endpoint a ;
  match e with
  | Bridge d name nios =>
      do_ send_to d ("nio_bridge add_nio " +:+ name +:+ " " +:+ nio_name nio) ;
      put_endpoint a (Bridge d name (nios ++ [nio]))
  | _ => raise AttributeError
  end.

Definition isinstance_Bridge (e : Endpoint) : bool :=
  match e with Bridge _ _ _ => true | _ => false end.

(** ** [gen_connect] *)

(** The allocation step of [gen_connect]:
    [x_udp = x_dynamips.udp; x_dynamips.udp = x_dynamips.udp + 1].
    The setter's [type(udp) != int] test does not fire on the integers of
    the model. *)
Definition alloc_udp (d : nat) : M Z :=
  do o <- get_dynamips d ;
  do o' <- get_dynamips d ;
  do_ set_udp d (d_udp o' + 1) ;
  ret (d_udp o).

Definition gen_connect (src_dynamips src_adapter : nat) (src_port : option Z)
    (dst_dynamips dst_adapter : nat) (dst_port : option Z) : M unit :=
  (* Can the source adapter be connected to the destination adapter? *)
  do int1 <- get_endpoint src_adapter ;
  do int2 <- get_endpoint dst_adapter ;
  do_ lift (validate_connect (adapter_of int1) (adapter_of int2)) ;
  do src <- get_dynamips src_dynamips ;
  do dst <- get_dynamips dst_dynamips ;
  let same := String.eqb (d_host src) (d_host dst) in
  let src_ip := if same then "127.0.0.1" else d_host src in
  let dst_ip := if same then "127.0.0.1" else d_host dst in
  (* Allocate a UDP port for the local side of the NIO *)
  do src_udp <- alloc_udp src_dynamips ;
  (* Now allocate one for the destination side *)
  do dst_udp <- alloc_udp dst_dynamips ;
  (* Create the NIOs *)
  do src_nio <- new_NIO_udp src_dynamips src_udp dst_ip dst_udp ;
  do dst_nio <- new_NIO_udp dst_dynamips dst_udp src_ip src_udp ;
  (* Tie the NIOs to the source and destination ports / bridges *)
  do_ nio_port src_adapter src_port src_nio ;
  do e <- get_endpoint dst_adapter ;
  if isinstance_Bridge e then nio_bridge dst_adapter dst_nio
  else nio_port dst_adapter dst_port dst_nio.

(** The part of [gen_connect] behind the allocation of the two ports:
    create the NIOs and tie them to the ports. *)
Definition gen_connect_tail (src_dynamips src_adapter : nat) (src_port : option Z)
    (dst_dynamips dst_adapter : nat) (dst_port : option Z)
    (src_ip dst_ip : string) (src_udp dst_udp : Z) : M unit :=
  do src_nio <- new_NIO_udp src_dynamips src_udp dst_ip dst_udp ;
  do dst_nio <- new_NIO_udp dst_dynamips dst_udp src_ip src_udp ;
  do_ nio_port src_adapter src_port src_nio ;
  do e <- get_endpoint dst_adapter ;
  if isinstance_Bridge e then nio_bridge dst_adapter dst_nio
  else nio_port dst_adapter dst_port dst_nio.

(** The store behind the two allocations of [gen_connect]. *)
Definition allocated (w : world) (sd dd : nat) (src dst : Dynamips) : world :=
  let w1 := with_dynamips (insert sd (with_udp (d_udp src + 1) src)) w in
  let dst1 := if decide (sd = dd) then with_udp (d_udp src + 1) src else dst in
  with_dynamips (insert dd (with_udp (d_udp dst1 + 1) dst1)) w1.

(** A run of [gen_connect] calls, whatever each call's outcome. *)
Inductive connect_run : world -> world -> Prop :=
| run_nil w : connect_run w w
| run_step w w1 w2 sd sa sp dd da dp :
    snd (gen_connect sd sa sp dd da dp w) = w1 ->
    connect_run w1 w2 ->
    connect_run w w2.

(** The [udp] and [host] attributes of the [Dynamips] object at [d]. *)
Definition udp_of (w : world) (d : nat) : option Z := d_udp <$> dynamips w !! d.
Definition host_of (w : world) (d : nat) : option string := d_host <$> dynamips w !! d.

(** No UDP counter and no host name changed. *)
Definition same_udp (w w' : world) : Prop :=
  forall x, udp_of w' x = udp_of w x /\ host_of w' x = host_of w x.

(** No UDP counter went down. *)
Definition udp_le (w w' : world) : Prop :=
  forall x u, udp_of w x = Some u -> exists u', udp_of w' x = Some u' /\ (u <= u')%Z.

(** No [NIO_udp] object was constructed. *)
Definition same_objects (w w' : world) : Prop := nio_objects w' = nio_objects w.

(** A call that keeps the relation [R] between the store it starts in and
    the store it leaves, however it ends. *)
Definition keeps {A} (R : world -> world -> Prop) (m : M A) : Prop :=
  forall w, R w (snd (m w)).

(** ** Console ports *)

(** The scan of [checkconsole]: the first device of the list whose
    [console] equals the candidate.  A device without the attribute (a
    router created without console, or an object that is no router) is
    skipped. *)
Fixpoint checkconsole_scan (console : Z) (rs : gmap nat Router) (devices : list nat)
    : option nat :=
  match devices with
  | [] => None
  | device :: rest =>
      match rs !! device with
      | Some r =>
          match r_console r with
          | Some con2 =>
              if (console =? con2)%Z then Some device
              else checkconsole_scan console rs rest
          | None => checkconsole_scan console rs rest
          end
      | None => checkconsole_scan console rs rest
      end
  end.

Definition checkconsole (console : Z) (d : nat) : M (option nat) :=
  do o <- get_dynamips d ;
  fun w => (Ok (checkconsole_scan console (routers w) (d_devices o)), w).

(** The message of the conflict raised by the console setter. *)
Definition conflict_msg (console : Z) (name : string) : string :=
  "console port " +:+ str_of_Z console +:+ " is already in use by device: " +:+ name.

(** [self.__console = console]. *)
Definition store_console (self : nat) (console : Z) : M unit :=
  do r <- get_router self ;
  fun w => (Ok tt, with_routers (insert self (mkRouter (r_d r) (r_model r) (r_name r)
                                                (Some console))) w).

(** [Router.__setconsole(self, console)] for an integer [console]. *)
Definition Router_setconsole (self : nat) (console : Z) : M unit :=
  if (console <? 1)%Z || (65535 <? console)%Z
  then raise (DynamipsError "invalid console port")
  else
    do r <- get_router self ;
    (* Check to see if the console port is already in use first *)
    do conflict <- checkconsole console (r_d r) ;
    do_ match conflict with
        | Some c =>
            (* Is it this device that is causing the conflict? If so ignore it *)
            if negb (c =? self)%nat
            then do cr <- get_router c ;
                 raise (DynamipsError (conflict_msg console (r_name cr)))
            else ret tt
        | None => ret tt
        end ;
    do_ store_console self console ;
    send_to (r_d r) ("vm set_con_tcp_port " +:+ r_name r +:+ " " +:+ str_of_Z console).

(** The registry invariant: no two registered routers of a host instance
    hold the same console port. *)
Definition consoles_unique (w : world) (d : Dynamips) : Prop :=
  forall i j ri rj c,
    i ∈ d_devices d -> j ∈ d_devices d ->
    routers w !! i = Some ri -> routers w !! j = Some rj ->
    r_console ri = Some c -> r_console rj = Some c ->
    i = j.

Definition is_conflict_error (e : exn) : Prop :=
  exists console name, e = DynamipsError (conflict_msg console name).

(** ** The wire format of a reply *)

(** The bytes of a reply: every line followed by ['\r\n']. *)
Fixpoint wire (lines : list string) : string :=
  match lines with
  | [] => ""
  | l :: ls => l +:+ CRLF +:+ wire ls
  end.

(** The bytes that successive reads deliver. *)
Fixpoint joined (chunks : list string) : string :=
  match chunks with
  | [] => ""
  | c :: cs => c +:+ joined cs
  end.

Fixpoint has_LF (s : string) : bool :=
  match s with
  | EmptyString => false
  | String c s' => Ascii.eqb c LF || has_LF s'
  end.

(** A line that ends the reply when it is the last line of a flushed
    buffer. *)
Definition is_terminator (l : string) : bool :=
  String.eqb (slice4 l) "100-" || error_re l.

(** No read before the last one ends exactly behind a line that looks like
    a terminator. *)
Definition flush_safe (chunks : list string) (lines : list string) : Prop :=
  forall cs1 cs2 ls1 l ls2,
    chunks = cs1 ++ cs2 -> cs2 <> [] ->
    lines = ls1 ++ l :: ls2 -> ls2 <> [] ->
    joined cs1 = wire (ls1 ++ [l]) ->
    is_terminator l = false.

(** The invariant of the reply loop while the reads [chunks] are still to
    come: [pending] are the lines not yet flushed into [data], [buf] holds
    the bytes read since the last flush. *)
Record reading (pending chunks : list string) (buf : string) : Prop := {
  rd_lines : Forall (fun l => has_LF l = false) pending;
  rd_chunks : Forall (fun c => c <> "") chunks;
  rd_stream : buf +:+ joined chunks = wire pending;
  rd_buf : last_char buf <> Some LF;
  rd_safe : forall cs1 cs2 ls1 l ls2,
      chunks = cs1 ++ cs2 -> cs2 <> [] ->
      pending = ls1 ++ l :: ls2 -> ls2 <> [] ->
      buf +:+ joined cs1 = wire (ls1 ++ [l]) ->
      is_terminator l = false
}.

(** What the terminator line [t] of a reply makes [send] do. *)
Definition verdict (reply : list string) (t : string) : outcome :=
  if String.eqb (slice4 t) "100-" then Returns reply
  else Raises (DynamipsError t).

(** The reading of the specification that [send] is refuted on: every way
    of cutting the bytes of a reply into reads gives the lines of the
    reply, whatever the earlier lines look like. *)
Definition chunking_independent : Prop :=
  forall lines final chunks,
    Forall (fun l => has_LF l = false) (lines ++ [final]) ->
    String.eqb (slice4 final) "100-" = true ->
    Forall (fun c => c <> "") chunks ->
    joined chunks = wire (lines ++ [final]) ->
    fst (send false (Socket (map Chunk chunks) PeerSilent)) = Returns (lines ++ [final]).

(** The same for a reply that ends in an error line. *)
Definition error_line_decides : Prop :=
  forall lines final chunks,
    Forall (fun l => has_LF l = false) (lines ++ [final]) ->
    error_re final = true ->
    Forall (fun c => c <> "") chunks ->
    joined chunks = wire (lines ++ [final]) ->
    fst (send false (Socket (map Chunk chunks) PeerSilent)) = Raises (DynamipsError final).

(** The reading of the specification that [gen_connect] is refuted on:
    loopback exactly when both sides are the same [Dynamips] object. *)
Definition loopback_iff_same_connection : Prop :=
  forall w w' sd sa sp dd da dp src dst,
    dynamips w !! sd = Some src -> dynamips w !! dd = Some dst ->
    gen_connect sd sa sp dd da dp w = (Ok tt, w') ->
    exists src_nio dst_nio,
      nio_objects w' = nio_objects w ++ [src_nio; dst_nio] /\
      if decide (sd = dd)
      then nio_remotehost src_nio = "127.0.0.1" /\ nio_remotehost dst_nio = "127.0.0.1"
      else nio_remotehost src_nio = d_host dst /\ nio_remotehost dst_nio = d_host src.

(** ** A small lab *)

Module Lab.

(** A hypervisor that acknowledges the next [n] commands, one read each. *)
Definition acks (n : nat) : socket :=
  Socket (replicate n (Chunk ("100-OK" +:+ CRLF))) PeerSilent.

(** Two hypervisors on the machine [10.0.0.5] (ports 7200 and 7201) and one
    on [10.0.0.9]; routers [r0], [r1], [r2] on the first, [r3] on the
    second, [r4] on the third; Ethernet adapters in slot 1 of [r0], [r1],
    [r3], [r4], a serial adapter in [r2], and a bridge on the first
    hypervisor. *)
Definition world0 : world :=
  mkWorld false 0
    (list_to_map
       [(0%nat, mkDynamips "10.0.0.5" 7200 2000 10000 [0%nat; 1%nat; 2%nat] (acks 4) []);
        (1%nat, mkDynamips "10.0.0.5" 7201 2000 10000 [3%nat] (acks 4) []);
        (2%nat, mkDynamips "10.0.0.9" 7200 2000 10000 [4%nat] (acks 4) [])])
    (list_to_map
       [(0%nat, mkRouter 0 "c7200" "r0" (Some 2000%Z));
        (1%nat, mkRouter 0 "c7200" "r1" (Some 2001%Z));
        (2%nat, mkRouter 0 "c7200" "r2" None);
        (3%nat, mkRouter 1 "c7200" "r3" (Some 2003%Z));
        (4%nat, mkRouter 2 "c7200" "r4" (Some 2004%Z))])
    (list_to_map
       [(0%nat, BaseAdapter 0 "c7200" "r0" 1 "PA-FE-TX" 1 [None]);
        (1%nat, BaseAdapter 0 "c7200" "r1" 1 "PA-FE-TX" 1 [None]);
        (2%nat, BaseAdapter 0 "c7200" "r2" 1 "PA-4T+" 4 [None; None; None; None]);
        (3%nat, BaseAdapter 1 "c7200" "r3" 1 "PA-FE-TX" 1 [None]);
        (4%nat, Bridge 0 "b0" []);
        (5%nat, BaseAdapter 2 "c7200" "r4" 1 "PA-FE-TX" 1 [None])])
    [].

(** The three hypervisors of [world0]. *)
Definition hv0 : Dynamips :=
  mkDynamips "10.0.0.5" 7200 2000 10000 [0%nat; 1%nat; 2%nat] (acks 4) [].
Definition hv1 : Dynamips := mkDynamips "10.0.0.5" 7201 2000 10000 [3%nat] (acks 4) [].
Definition hv2 : Dynamips := mkDynamips "10.0.0.9" 7200 2000 10000 [4%nat] (acks 4) [].

End Lab.

(** ** Reading a port back *)

Definition DQUOTE : string := String "034"%char "".

(** [str(port)]. *)
Definition str_of_port (port : option Z) : string :=
  match port with
  | Some p => str_of_Z p
  | None => "None"
  end.

(** The text of the [DynamipsWarning] of the switches' [nio] getters. *)
Definition unused_msg (kind : string) (port : option Z) (name : string) : string :=
  kind +:+ str_of_port port +:+ " on device " +:+ DQUOTE +:+ name +:+ DQUOTE
       +:+ " is defined, but not used".

(** [self.nio(port)] without a [nio] argument, for the four classes with
    numbered ports.  The adapters index a list (the [except KeyError] of
    the source cannot fire on it), the switches a dict.  [Bridge.nio] takes
    no port and is not read through this getter. *)
Definition nio_read (e : Endpoint) (port : option Z) : result (option NIO_udp) :=
  match e with
  | BaseAdapter _ _ _ _ _ ports nios =>
      if port_out_of_range port ports then Exc (DynamipsError "invalid port")
      else match nios !! Z.to_nat (default 0%Z port) with
           | Some o => Ok o
           | None => Exc IndexError
           end
  | FRSW _ name nios =>
      match nios !! port with
      | Some n => Ok (Some n)
      | None => Exc (DynamipsWarning (unused_msg "Frame-Relay switchport " port name))
      end
  | ATMSW _ name nios =>
      match nios !! port with
      | Some n => Ok (Some n)
      | None => Exc (DynamipsWarning (unused_msg "ATM switchport " port name))
      end
  | ETHSW _ name nios =>
      match nios !! port with
      | Some n => Ok (Some n)
      | None => Exc (DynamipsWarning (unused_msg "Ethernet switchport " port name))
      end
  | Bridge _ _ _ | Plain => Exc AttributeError
  end.

(** [connected_general(obj, port)]: [obj.nio(port).name] is evaluated and
    only [AttributeError] (the [None] of an unbound adapter port has no
    [name]) is caught. *)
Definition connected_general (e : Endpoint) (port : option Z) : result bool :=
  match nio_read e port with
  | Ok (Some _) => Ok true
  | Ok None => Ok false
  | Exc AttributeError => Ok false
  | Exc x => Exc x
  | Diverges => Diverges
  | BadRef => BadRef
  end.

(** [obj.connected(port)]: the adapters and the three switches define it as
    [connected_general(self, port)]; a bridge has no such method. *)
Definition connected (a : nat) (port : option Z) : M bool :=
  do e <- get_endpoint a ;
  match e with
  | Bridge _ _ _ | Plain => raise AttributeError
  | _ => lift (connected_general e port)
  end.

(** ** Relations between stores *)

Definition sock_of (w : world) (d : nat) : option socket := d_s <$> dynamips w !! d.
Definition sent_of (w : world) (d : nat) : option (list string) := d_sent <$> dynamips w !! d.

(** With [NOSEND] set: it stays set, no socket was read and no command
    went out. *)
Definition dry_run_quiet (w w' : world) : Prop :=
  NOSEND w = true ->
  NOSEND w' = true /\ forall x, sock_of w' x = sock_of w x /\ sent_of w' x = sent_of w x.

(** The default name of the [i]-th [NIO_udp] object. *)
Definition default_name (i : Z) : string := "nio_udp" +:+ str_of_Z i.

(** Every [NIO_udp] object carries the default name of an instance number
    below the class counter, and no number is used twice. *)
Definition names_fresh (w : world) : Prop :=
  exists numbers,
    map nio_name (nio_objects w) = map default_name numbers
    /\ NoDup numbers
    /\ Forall (fun i => (i < NIO_udp_instance w)%Z) numbers.

Definition names_fresh_kept (w w' : world) : Prop := names_fresh w -> names_fresh w'.

(** No device object changed. *)
Definition same_endpoints (w w' : world) : Prop := endpoints w' = endpoints w.

(** A port of [e] that reads back as bound. *)
Definition is_bound (e : Endpoint) (port : option Z) : Prop :=
  exists n, nio_read e port = Ok (Some n).

(** The object takes a NIO at [port]: a switch at any port, an adapter at a
    port within its range; a bridge has no numbered ports. *)
Definition accepts_port (e : Endpoint) (port : option Z) : Prop :=
  match e with
  | BaseAdapter _ _ _ _ _ ports _ => port_out_of_range port ports = false
  | FRSW _ _ _ | ATMSW _ _ _ | ETHSW _ _ _ => True
  | Bridge _ _ _ | Plain => False
  end.

(** ** A dry-run lab *)

Module DryLab.

(** [Lab.world0] with the module switch [NOSEND] set. *)
Definition world1 : world :=
  mkWorld true (NIO_udp_instance Lab.world0) (dynamips Lab.world0) (routers Lab.world0)
    (endpoints Lab.world0) (nio_objects Lab.world0).

End DryLab.

(** ** [Router.__init__] *)

Definition router_models : list string := ["c2691"; "c3725"; "c3745"; "c3600"; "c7200"].

(** ['%s' % name] for a name that may be [None]. *)
Definition str_of_name (name : option string) : string :=
  match name with
  | Some n => n
  | None => "None"
  end.

(** The console loop of the constructor:
    [while True: conflict = checkconsole(console, d); ... else: console += 1].
    Nothing the scan reads changes between two passes.  [fuel] bounds the
    number of increments; [None] is a loop that used it up. *)
Fixpoint pick_console (fuel : nat) (console : Z) (rs : gmap nat Router)
    (devices : list nat) : option Z :=
  match checkconsole_scan console rs devices with
  | None => Some console
  | Some _ =>
      match fuel with
      | O => None
      | S fuel' => pick_console fuel' (console + 1) rs devices
      end
  end.

(** The devices of the list whose console is [console] or above. *)
Fixpoint holders_from (console : Z) (rs : gmap nat Router) (devices : list nat) : nat :=
  match devices with
  | [] => O
  | device :: rest =>
      match rs !! device with
      | Some r =>
          match r_console r with
          | Some con2 =>
              if (console <=? con2)%Z then S (holders_from console rs rest)
              else holders_from console rs rest
          | None => holders_from console rs rest
          end
      | None => holders_from console rs rest
      end
  end.

Definition with_devices (devices : list nat) (o : Dynamips) : Dynamips :=
  mkDynamips (d_host o) (d_port o) (d_baseconsole o) (d_udp o) devices (d_s o) (d_sent o).

(** The attributes of the new object behind the model test; the console
    attribute does not exist yet. *)
Definition new_router (self d : nat) (model name : string) : M unit :=
  fun w => (Ok tt, with_routers (insert self (mkRouter d model name None)) w).

(** [self.__d.devices.append(self)]. *)
Definition devices_append (d self : nat) : M unit :=
  do o <- get_dynamips d ;
  fun w => (Ok tt, with_dynamips (insert d (with_devices (d_devices o ++ [self]) o)) w).

(** The body of [Router.__init__(self, dynamips, model, name, consoleFlag)]
    for the instance number [instance]; [self] is the identity of the new
    object.  The create command is formatted from the [name] argument, the
    console command from [self.__name].  The loop gets one unit of fuel for
    each registered device. *)
Definition Router_init_body (self : nat) (instance : Z) (d : nat) (model : string)
    (name : option string) (consoleFlag : bool) : M unit :=
  do_ get_dynamips d ;
  if tuple_in model router_models
  then
    let self_name := match name with
                     | None => "r" +:+ str_of_Z instance
                     | Some n => n
                     end in
    do_ new_router self d model self_name ;
    do_ send_to d (model +:+ " create " +:+ str_of_name name +:+ " " +:+ str_of_Z instance) ;
    (* Ghosts don't get console ports *)
    do_ (if consoleFlag
         then
           do o <- get_dynamips d ;
           fun w =>
             match pick_console (length (d_devices o)) (d_baseconsole o + instance)
                     (routers w) (d_devices o) with
             | Some console =>
                 (do_ store_console self console ;
                  send_to d ("vm set_con_tcp_port " +:+ self_name +:+ " "
                               +:+ str_of_Z console)) w
             | None => (Diverges, w)
             end
         else ret tt) ;
    (* Append this router to the list of devices managed by this dynamips instance *)
    devices_append d self
  else raise (DynamipsError "invalid router model").

(** The store together with the class attribute [Router.__instance_count]. *)
Record router_world : Type := mkRouterWorld {
  rw_world : world;
  Router_instance_count : Z
}.

(** [Router(dynamips, model, name, consoleFlag)]: the constructor takes the
    next instance number, whatever happens behind. *)
Definition Router_init (self : nat) (d : nat) (model : string) (name : option string)
    (consoleFlag : bool) (rw : router_world) : result unit * router_world :=
  let instance := Router_instance_count rw in
  let '(r, w') := Router_init_body self instance d model name consoleFlag (rw_world rw) in
  (r, mkRouterWorld w' (instance + 1)).

(** The devices registered on [d]. *)
Definition devices_of (w : world) (d : nat) : option (list nat) := d_devices <$> dynamips w !! d.

(** The registry invariant on the host instance [d] of the store. *)
Definition registry_ok (w : world) (d : nat) : Prop :=
  forall o, dynamips w !! d = Some o -> consoles_unique w o.

(** ** [FRSW.map] *)

(** The bookkeeping of [map]: [self.__dlcis[port]] gets [dlci] appended, or
    is created as [[dlci]].  The dict is an attribute of the switch that no
    other modelled function reads; it is passed to [FRSW_map] and returned
    by it. *)
Definition track_dlci (dlcis : gmap Z (list Z)) (port dlci : Z) : gmap Z (list Z) :=
  match dlcis !! port with
  | Some l => <[port := l ++ [dlci]]> dlcis
  | None => <[port := [dlci]]> dlcis
  end.

(** [self.nio(port).name]. *)
Definition nio_name_at (e : Endpoint) (port : Z) : result string :=
  match nio_read e (Some port) with
  | Ok (Some n) => Ok (nio_name n)
  | Ok None => Exc AttributeError
  | Exc x => Exc x
  | Diverges => Diverges
  | BadRef => BadRef
  end.

(** [FRSW.map(self, port1, dlci1, port2, dlci2)] for integer arguments.  The
    two [except KeyError] clauses guard calls of [self.nio], which raises
    [DynamipsWarning] and never [KeyError]; they have no branch here.  The
    message of the fourth test says [dlci1], as in the source. *)
Definition FRSW_map (a : nat) (dlcis : gmap Z (list Z)) (port1 dlci1 port2 dlci2 : Z)
    : M (gmap Z (list Z)) :=
  if (port1 <? 0)%Z then raise (DynamipsError "invalid port1. Must be an int >= 0")
  else if (port2 <? 0)%Z then raise (DynamipsError "invalid port2. Must be an int >= 0")
  else if (dlci1 <? 0)%Z then raise (DynamipsError "invalid dlci1. Must be an int >= 0")
  else if (dlci2 <? 0)%Z then raise (DynamipsError "invalid dlci1. Must be an int >= 0")
  else
    do e <- get_endpoint a ;
    match e with
    | FRSW d name _ =>
        do nio1 <- lift (nio_name_at e port1) ;
        do nio2 <- lift (nio_name_at e port2) ;
        do_ send_to d ("frsw create_vc " +:+ name +:+ " " +:+ nio1 +:+ " "
                         +:+ str_of_Z dlci1 +:+ " " +:+ nio2 +:+ " " +:+ str_of_Z dlci2) ;
        (* Now track the dlcis *)
        ret (track_dlci (track_dlci dlcis port1 dlci1) port2 dlci2)
    | _ => raise AttributeError
    end.

(** ** A lab with a Frame-Relay switch *)

Module FrameRelayLab.

Definition nio_a : NIO_udp := mkNIO_udp 0 10000 "127.0.0.1" 10001 "nio_udp0".
Definition nio_b : NIO_udp := mkNIO_udp 0 10002 "127.0.0.1" 10003 "nio_udp2".

(** The switch [f0] on the first hypervisor, ports 1 and 2 connected. *)
Definition f0 : Endpoint := FRSW 0 "f0" (<[Some 1%Z := nio_a]> (<[Some 2%Z := nio_b]> ∅)).

Definition world3 : world := with_endpoints (insert 6%nat f0) Lab.world0.

End FrameRelayLab.

(** ** A lab with a refusing hypervisor *)

Module FailLab.

(** A hypervisor that acknowledges three commands and answers the fourth
    with an error line. *)
Definition refusing : socket :=
  Socket (replicate 3 (Chunk ("100-OK" +:+ CRLF))
            ++ [Chunk ("206-unable to bind" +:+ CRLF)]) PeerSilent.

(** [Lab.world0] with that hypervisor in the place of the first one. *)
Definition world2 : world :=
  with_dynamips
    (insert 0%nat
       (mkDynamips "10.0.0.5" 7200 2000 10000 [0%nat; 1%nat; 2%nat] refusing []))
    Lab.world0.

End FailLab.

(** * Properties *)

(** ** Strings *)

Section Strings.

Lemma append_String c s t : String c s +:+ t = String c (s +:+ t).
Proof. reflexivity. Qed.

Lemma append_empty_l s : "" +:+ s = s.
Proof. reflexivity. Qed.

Lemma append_empty_r s : s +:+ "" = s.
Proof. induction s as [|c s IH]; [reflexivity|]. rewrite append_String, IH. reflexivity. Qed.

Lemma append_assoc s t u : (s +:+ t) +:+ u = s +:+ (t +:+ u).
Proof.
  induction s as [|c s IH]; [reflexivity|].
  rewrite !append_String, IH. reflexivity.
Qed.

Lemma append_eq_empty s t : s +:+ t = "" -> s = "" /\ t = "".
Proof. destruct s; [intros H; split; [reflexivity|exact H] | discriminate]. Qed.

Lemma append_inv_head s t u : s +:+ t = s +:+ u -> t = u.
Proof.
  induction s as [|c s IH]; [trivial|].
  rewrite !append_String. intros H. injection H as H. auto.
Qed.

Lemma last_char_String c s :
  last_char (String c s) = match s with EmptyString => Some c | _ => last_char s end.
Proof. destruct s; reflexivity. Qed.

Lemma last_char_None s : last_char s = None -> s = "".
Proof.
  induction s as [|c s IH]; [reflexivity|].
  rewrite last_char_String. destruct s; [discriminate|].
  intros H. apply IH in H. discriminate.
Qed.

Lemma last_char_append s t : t <> "" -> last_char (s +:+ t) = last_char t.
Proof.
  intros Ht. induction s as [|c s IH]; [reflexivity|].
  rewrite append_String, last_char_String, IH.
  destruct (s +:+ t) eqn:E; [|reflexivity].
  apply append_eq_empty in E. destruct E as [_ E]. contradiction.
Qed.

Lemma has_LF_String c s : has_LF (String c s) = Ascii.eqb c LF || has_LF s.
Proof. reflexivity. Qed.

Lemma last_char_has_LF s : last_char s = Some LF -> has_LF s = true.
Proof.
  induction s as [|c s IH]; [discriminate|].
  rewrite last_char_String, has_LF_String. destruct s.
  - intros [= ->]. reflexivity.
  - intros H. rewrite (IH H). apply orb_true_r.
Qed.

Lemma has_LF_append s t : has_LF (s +:+ t) = has_LF s || has_LF t.
Proof.
  induction s as [|c s IH]; [reflexivity|].
  rewrite append_String, !has_LF_String, IH. apply orb_assoc.
Qed.

End Strings.

(** ** Lines on the wire *)

Section Wire.

Lemma append_eq_append p q a b :
  p +:+ q = a +:+ b ->
  (exists m, a = p +:+ m /\ q = m +:+ b) \/ (exists m, p = a +:+ m /\ b = m +:+ q).
Proof.
  revert a. induction p as [|c p IH]; intros a H.
  - left. exists a. split; [reflexivity | exact H].
  - destruct a as [|c' a].
    + right. exists (String c p). split; [reflexivity | symmetry; exact H].
    + rewrite !append_String in H. injection H as -> H.
      destruct (IH _ H) as [[m [-> ->]] | [m [-> ->]]].
      * left. exists m. split; reflexivity.
      * right. exists m. split; reflexivity.
Qed.

Lemma wire_app a b : wire (a ++ b) = wire a +:+ wire b.
Proof.
  induction a as [|l a IH]; [reflexivity|].
  cbn [wire app]. change ((l :: a) ++ b) with (l :: (a ++ b)). cbn [wire].
  rewrite IH, !append_assoc. reflexivity.
Qed.

Lemma wire_eq_empty ls : wire ls = "" -> ls = [].
Proof.
  destruct ls as [|l ls]; [reflexivity|]. cbn [wire]. intros H.
  apply append_eq_empty in H. destruct H as [_ H].
  apply append_eq_empty in H. destruct H as [H _]. discriminate.
Qed.

Lemma last_char_wire ls : ls <> [] -> last_char (wire ls) = Some LF.
Proof.
  induction ls as [|l ls IH]; [congruence|]. intros _. cbn [wire].
  destruct ls as [|l' ls].
  - cbn [wire]. rewrite append_empty_r, last_char_append by discriminate. reflexivity.
  - rewrite <- append_assoc, last_char_append.
    + apply IH. discriminate.
    + intros E. apply wire_eq_empty in E. discriminate.
Qed.

Lemma split_crlf_String c d t :
  split_crlf (String c (String d t)) =
  if Ascii.eqb c CR && Ascii.eqb d LF then "" :: split_crlf t
  else cons_head c (split_crlf (String d t)).
Proof. reflexivity. Qed.

(** A line without a line feed is cut off at its own separator. *)
Lemma split_crlf_line l rest :
  has_LF l = false -> split_crlf (l +:+ CRLF +:+ rest) = l :: split_crlf rest.
Proof.
  induction l as [|c l IH]; intros Hl.
  - reflexivity.
  - rewrite has_LF_String in Hl. apply orb_false_elim in Hl. destruct Hl as [Hc Hl].
    rewrite append_String.
    destruct (l +:+ CRLF +:+ rest) as [|d t] eqn:E.
    { apply append_eq_empty in E. destruct E as [_ E]. discriminate. }
    rewrite split_crlf_String.
    assert (Hd : Ascii.eqb d LF = false).
    { destruct l as [|c' l].
      - injection E as <- _. reflexivity.
      - rewrite append_String in E. injection E as <- _.
        rewrite has_LF_String in Hl. apply orb_false_elim in Hl. tauto. }
    rewrite Hd, andb_false_r, (IH Hl). reflexivity.
Qed.

Lemma split_crlf_wire ls :
  Forall (fun l => has_LF l = false) ls -> split_crlf (wire ls) = ls ++ [""].
Proof.
  induction 1 as [|l ls Hl _ IH]; [reflexivity|].
  cbn [wire]. rewrite split_crlf_line, IH by assumption. reflexivity.
Qed.

(** Inside [l ++ '\r\n'] the only line feed is the last character. *)
Lemma line_prefix_LF l p m :
  has_LF l = false -> p +:+ m = l +:+ CRLF -> last_char p = Some LF -> m = "".
Proof.
  revert p. induction l as [|c l IH]; intros p Hl E Hp.
  - destruct p as [|c1 p]; [discriminate|].
    rewrite append_String in E. injection E as -> E.
    destruct p as [|c2 p]; [discriminate|].
    rewrite append_String in E. injection E as -> E.
    apply append_eq_empty in E. tauto.
  - rewrite has_LF_String in Hl. apply orb_false_elim in Hl. destruct Hl as [Hc Hl].
    destruct p as [|c1 p]; [discriminate|].
    rewrite !append_String in E. injection E as -> E.
    rewrite last_char_String in Hp. destruct p as [|c2 p].
    + injection Hp as ->. discriminate.
    + eapply IH; eassumption.
Qed.

(** A prefix of a reply that ends in a line feed ends at a line boundary. *)
Lemma wire_prefix_LF ls p q :
  Forall (fun l => has_LF l = false) ls ->
  p +:+ q = wire ls -> last_char p = Some LF ->
  exists la lb, ls = la ++ lb /\ la <> [] /\ p = wire la /\ q = wire lb.
Proof.
  intros Hls. revert p. induction Hls as [|l ls Hl Hls IH]; intros p E Hp.
  - cbn [wire] in E. apply append_eq_empty in E. destruct E as [-> _]. discriminate.
  - cbn [wire] in E. rewrite <- append_assoc in E.
    destruct (append_eq_append _ _ _ _ E) as [[m [E1 E2]] | [m [E1 E2]]].
    + assert (m = "") as ->.
      { eapply line_prefix_LF; [exact Hl | symmetry; exact E1 | exact Hp]. }
      rewrite append_empty_r in E1. rewrite append_empty_l in E2. subst p q.
      exists [l], ls. split; [reflexivity|]. split; [discriminate|].
      split; [|reflexivity]. cbn [wire]. rewrite append_empty_r. reflexivity.
    + destruct m as [|c m].
      * rewrite append_empty_r in E1. rewrite append_empty_l in E2. subst p q.
        exists [l], ls. split; [reflexivity|]. split; [discriminate|].
        split; [|reflexivity]. cbn [wire]. rewrite append_empty_r. reflexivity.
      * assert (Hm : last_char (String c m) = Some LF).
        { rewrite E1, last_char_append in Hp by discriminate. exact Hp. }
        destruct (IH _ (eq_sym E2) Hm) as (la & lb & -> & _ & Ea & ->).
        exists (l :: la), lb. split; [reflexivity|]. split; [discriminate|].
        split; [|reflexivity]. cbn [wire]. rewrite E1, Ea, append_assoc. reflexivity.
Qed.

End Wire.

(** ** The reply loop *)

Section ReplyLoop.

Lemma joined_app a b : joined (a ++ b) = joined a +:+ joined b.
Proof.
  induction a as [|c a IH]; [reflexivity|].
  change ((c :: a) ++ b) with (c :: (a ++ b)). cbn [joined].
  rewrite IH, append_assoc. reflexivity.
Qed.

Lemma joined_nonempty cs :
  Forall (fun c => c <> "") cs -> cs <> [] -> joined cs <> "".
Proof.
  intros H Hne. destruct H as [|c cs Hc _]; [congruence|].
  cbn [joined]. intros E. apply append_eq_empty in E. tauto.
Qed.

Lemma last_char_nonempty s : s <> "" -> exists c, last_char s = Some c.
Proof.
  intros H. destruct (last_char s) as [c|] eqn:E; [eauto|].
  apply last_char_None in E. contradiction.
Qed.

Lemma reading_start lines chunks :
  Forall (fun l => has_LF l = false) lines ->
  Forall (fun c => c <> "") chunks ->
  joined chunks = wire lines ->
  flush_safe chunks lines ->
  reading lines chunks "".
Proof.
  intros Hl Hc Hj Hs. split; try assumption. discriminate.
Qed.

(** A read that does not complete a line leaves [data] alone. *)
Lemma send_body_partial data buf chunk c :
  last_char (buf +:+ chunk) = Some c -> c <> LF ->
  send_body data buf chunk = Continue data (buf +:+ chunk).
Proof.
  intros H Hc. unfold send_body. rewrite H.
  destruct (Ascii.eqb_spec c LF); [contradiction | reflexivity].
Qed.

(** A read that completes the lines [done]. *)
Lemma send_body_flush data buf chunk done l :
  Forall (fun l => has_LF l = false) (done ++ [l]) ->
  buf +:+ chunk = wire (done ++ [l]) ->
  send_body data buf chunk =
    if String.eqb (slice4 l) "100-" then Break (data ++ done ++ [l])
    else if error_re l then Raised (DynamipsError l)
    else Continue (data ++ done ++ [l]) "".
Proof.
  intros Hd E. unfold send_body. rewrite E.
  rewrite last_char_wire by (destruct done; discriminate).
  rewrite Ascii.eqb_refl. cbn [negb].
  rewrite split_crlf_wire by assumption.
  replace (data ++ (done ++ [l]) ++ [""]) with ((data ++ done ++ [l]) ++ [""])
    by (rewrite <- !app_assoc; reflexivity).
  rewrite last_snoc. cbn [String.eqb]. rewrite removelast_last.
  replace (data ++ done ++ [l]) with ((data ++ done) ++ [l])
    by (rewrite <- app_assoc; reflexivity).
  rewrite last_snoc. reflexivity.
Qed.

(** One read that is not the last one: the loop goes on, with the
    invariant re-established. *)
Lemma reading_step pending chunk cs buf data :
  reading pending (chunk :: cs) buf -> cs <> [] ->
  exists done pending' buf',
    send_body data buf chunk = Continue (data ++ done) buf' /\
    pending = done ++ pending' /\
    reading pending' cs buf'.
Proof.
  intros [Hl Hc Hs Hb Hsafe] Hcs.
  apply Forall_cons in Hc. destruct Hc as [Hchunk Hc].
  cbn [joined] in Hs. rewrite <- append_assoc in Hs.
  destruct (last_char_nonempty chunk Hchunk) as [c Hlast].
  assert (Hlast' : last_char (buf +:+ chunk) = Some c)
    by (rewrite last_char_append; assumption).
  destruct (Ascii.eqb_spec c LF) as [-> | Hne].
  - destruct (wire_prefix_LF _ _ _ Hl Hs Hlast') as (la & lb & -> & Hla & Ea & Eb).
    destruct (exists_last Hla) as (done & l & ->).
    assert (Hlb : lb <> []).
    { intros ->. cbn [wire] in Eb. exact (joined_nonempty cs Hc Hcs Eb). }
    assert (Hterm : is_terminator l = false).
    { destruct lb as [|l' lb]; [congruence|].
      apply (Hsafe [chunk] cs done l (l' :: lb)).
      - reflexivity.
      - exact Hcs.
      - rewrite <- app_assoc. reflexivity.
      - discriminate.
      - cbn [joined]. rewrite append_empty_r. exact Ea. }
    unfold is_terminator in Hterm. apply orb_false_elim in Hterm.
    destruct Hterm as [H100 Herr].
    apply Forall_app in Hl. destruct Hl as [Hla' Hlb'].
    exists (done ++ [l]), lb, "". split; [|split; [reflexivity|]].
    + rewrite (send_body_flush data buf chunk done l Hla' Ea), H100, Herr.
      reflexivity.
    + split; try assumption; [discriminate|].
      intros cs1 cs2 ls1 l0 ls2 E1 E2 E3 E4 E5.
      apply (Hsafe (chunk :: cs1) cs2 ((done ++ [l]) ++ ls1) l0 ls2).
      * rewrite E1. reflexivity.
      * exact E2.
      * rewrite E3, <- !app_assoc. reflexivity.
      * exact E4.
      * cbn [joined]. rewrite <- append_assoc, Ea.
        rewrite append_empty_l in E5. rewrite E5, <- wire_app, <- !app_assoc.
        reflexivity.
  - exists [], pending, (buf +:+ chunk). split; [|split; [reflexivity|]].
    + rewrite app_nil_r. eapply send_body_partial; eassumption.
    + split; try assumption.
      * rewrite Hlast'. congruence.
      * intros cs1 cs2 ls1 l0 ls2 E1 E2 E3 E4 E5.
        apply (Hsafe (chunk :: cs1) cs2 ls1 l0 ls2); try assumption.
        -- rewrite E1. reflexivity.
        -- cbn [joined]. rewrite <- append_assoc. exact E5.
Qed.

(** The last read: the terminator line decides. *)
Lemma reading_final pending chunk buf data t :
  reading pending [chunk] buf ->
  last pending = Some t -> is_terminator t = true ->
  send_body data buf chunk =
    if String.eqb (slice4 t) "100-" then Break (data ++ pending)
    else Raised (DynamipsError t).
Proof.
  intros [Hl Hc Hs Hb Hsafe] Ht Hterm.
  cbn [joined] in Hs. rewrite append_empty_r in Hs.
  destruct pending as [|l0 pending0] using rev_ind; [discriminate|].
  clear IHpending0. rewrite last_snoc in Ht. injection Ht as ->.
  rewrite (send_body_flush data buf chunk pending0 t Hl Hs).
  unfold is_terminator in Hterm.
  destruct (String.eqb (slice4 t) "100-"); [reflexivity|].
  cbn [orb] in Hterm. rewrite Hterm. reflexivity.
Qed.

(** The whole reply: [send_loop] consumes exactly the reads of the reply. *)
Lemma send_loop_reading chunks : forall pending buf data t rest tail,
  reading pending chunks buf ->
  last pending = Some t -> is_terminator t = true ->
  send_loop (map Chunk chunks ++ rest) tail data buf
  = (verdict (data ++ pending) t, rest).
Proof.
  induction chunks as [|chunk cs IH]; intros pending buf data t rest tail Hr Ht Hterm.
  - exfalso. destruct Hr as [Hl _ Hs Hb _].
    cbn [joined] in Hs. rewrite append_empty_r in Hs.
    apply Hb. rewrite Hs. apply last_char_wire. intros ->. discriminate.
  - change (map Chunk (chunk :: cs) ++ rest) with (Chunk chunk :: (map Chunk cs ++ rest)).
    cbn [send_loop].
    destruct cs as [|chunk' cs].
    + rewrite (reading_final _ _ _ data t Hr Ht Hterm). unfold verdict.
      destruct (String.eqb (slice4 t) "100-"); [|reflexivity].
      unfold after_loop. destruct pending as [|? ?]; [discriminate|].
      rewrite length_app. cbn [length]. rewrite Nat.add_succ_r. reflexivity.
    + destruct (reading_step _ _ _ _ data Hr) as (done & pending' & buf' & E & -> & Hr');
        [discriminate|].
      rewrite E.
      assert (Hp : pending' <> []).
      { intros ->. destruct Hr' as [_ Hc' Hs' Hb' _].
        cbn [wire] in Hs'. apply append_eq_empty in Hs'. destruct Hs' as [_ Hs'].
        exact (joined_nonempty _ Hc' ltac:(discriminate) Hs'). }
      rewrite last_app in Ht.
      destruct (last pending') as [t'|] eqn:Et.
      2:{ apply last_None in Et. contradiction. }
      injection Ht as ->.
      rewrite (IH pending' buf' (data ++ done) t rest tail Hr' Et Hterm).
      rewrite <- app_assoc. reflexivity.
Qed.

(** With only some of the reads of the reply delivered, the loop is still
    waiting. *)
Lemma send_loop_waiting cs1 : forall cs2 pending buf data tail,
  reading pending (cs1 ++ cs2) buf -> cs2 <> [] ->
  exists data' buf',
    send_loop (map Chunk cs1) tail data buf = send_loop [] tail data' buf'.
Proof.
  induction cs1 as [|chunk cs1 IH]; intros cs2 pending buf data tail Hr Hcs2.
  - exists data, buf. reflexivity.
  - change (map Chunk (chunk :: cs1)) with (Chunk chunk :: map Chunk cs1).
    cbn [send_loop].
    change ((chunk :: cs1) ++ cs2) with (chunk :: (cs1 ++ cs2)) in Hr.
    destruct (reading_step _ _ _ _ data Hr) as (done & pending' & buf' & E & -> & Hr').
    { destruct cs1; [assumption | discriminate]. }
    rewrite E. eapply IH; eassumption.
Qed.

End ReplyLoop.

(** ** [send] *)

Section Send.

Lemma error_re_not_100 t : error_re t = true -> String.eqb (slice4 t) "100-" = false.
Proof.
  destruct t as [|c0 [|c1 [|c2 [|c3 t]]]]; try discriminate.
  cbn [error_re]. intros H.
  apply andb_true_iff in H. destruct H as [H _].
  apply andb_true_iff in H. destruct H as [H _].
  apply andb_true_iff in H. destruct H as [H _].
  apply Ascii.eqb_eq in H. subst c0. reflexivity.
Qed.

(** Lines that are no terminators may be cut anywhere. *)
Lemma flush_safe_payload chunks lines final :
  Forall (fun l => is_terminator l = false) lines ->
  flush_safe chunks (lines ++ [final]).
Proof.
  intros Hp cs1 cs2 ls1 l ls2 _ _ E Hls2 _.
  destruct (exists_last Hls2) as (ls2' & x & ->).
  change (ls1 ++ l :: ls2' ++ [x]) with (ls1 ++ (l :: ls2') ++ [x]) in E.
  rewrite app_assoc in E. apply app_inj_tail in E. destruct E as [-> _].
  apply Forall_app in Hp. destruct Hp as [_ Hp].
  apply Forall_cons in Hp. tauto.
Qed.

(** A reply that arrives in one read is never cut behind an earlier line. *)
Lemma flush_safe_single chunk lines : flush_safe [chunk] lines.
Proof.
  intros cs1 cs2 ls1 l ls2 E Hcs2 _ _ Ej.
  destruct cs1 as [|c cs1].
  - cbn [joined] in Ej. symmetry in Ej. apply wire_eq_empty in Ej.
    destruct ls1; discriminate.
  - injection E as _ E. symmetry in E. apply app_eq_nil in E. tauto.
Qed.

Lemma send_body_Break data buf chunk d :
  send_body data buf chunk = Break d -> d <> [].
Proof.
  unfold send_body. destruct (last_char (buf +:+ chunk)); [|discriminate].
  destruct (negb _); [discriminate|].
  destruct (last (data ++ _)) as [l|]; [|discriminate].
  destruct (last (if String.eqb l "" then _ else _)) as [l'|] eqn:E; [|discriminate].
  destruct (String.eqb (slice4 l') "100-").
  - intros [= <-]. intros E'. rewrite E' in E. discriminate.
  - destruct (error_re l'); discriminate.
Qed.

Lemma send_body_Raised data buf chunk e :
  send_body data buf chunk = Raised e ->
  e = IndexError \/ exists l, e = DynamipsError l /\ error_re l = true.
Proof.
  unfold send_body. destruct (last_char (buf +:+ chunk)); [|intros [= <-]; auto].
  destruct (negb _); [discriminate|].
  destruct (last (data ++ _)) as [l|]; [|intros [= <-]; auto].
  destruct (last (if String.eqb l "" then _ else _)) as [l'|]; [|intros [= <-]; auto].
  destruct (String.eqb (slice4 l') "100-"); [discriminate|].
  destruct (error_re l') eqn:E; [|discriminate].
  intros [= <-]. right. eauto.
Qed.

(** After a flush the buffer is empty, so the next [recv] of a closed
    connection makes [buf[-1]] fail. *)
Lemma send_body_Continue data buf chunk d b :
  send_body data buf chunk = Continue d b ->
  (d = data /\ b = buf +:+ chunk /\ b <> "") \/ b = "".
Proof.
  unfold send_body. destruct (last_char (buf +:+ chunk)) eqn:El; [|discriminate].
  destruct (negb _).
  - intros [= <- <-]. left. repeat split. intros E. rewrite E in El. discriminate.
  - destruct (last (data ++ _)) as [l|]; [|discriminate].
    destruct (last (if String.eqb l "" then _ else _)) as [l'|]; [|discriminate].
    destruct (String.eqb (slice4 l') "100-"); [discriminate|].
    destruct (error_re l'); [discriminate|].
    intros [= <- <-]. right. reflexivity.
Qed.

(** [closed_loop] answers [Hangs] only in a state that a pass through the
    loop body leaves as it is: the loop repeats forever. *)
Lemma closed_loop_hangs data buf :
  closed_loop data buf = Hangs -> send_body data buf "" = Continue data buf.
Proof.
  unfold closed_loop. destruct (send_body data buf "") as [d b| d | e] eqn:E1.
  - destruct (send_body_Continue _ _ _ _ _ E1) as [(-> & -> & _) | ->].
    + rewrite append_empty_r. reflexivity.
    + cbn. discriminate.
  - unfold after_loop. destruct (length d =? 0)%nat; discriminate.
  - discriminate.
Qed.

Lemma after_loop_Returns d : d <> [] -> after_loop d = Returns d.
Proof. destruct d; [congruence | reflexivity]. Qed.

(** The outcomes of the loop: the check for an empty [data] behind it can
    never fire. *)
Lemma send_loop_outcome events tail : forall data buf,
  match fst (send_loop events tail data buf) with
  | Returns d => d <> []
  | Raises (DynamipsError m) => m = "timeout" \/ error_re m = true
  | Raises e => e = IndexError
  | ReturnsEmptyStr => False
  | Hangs => True
  end.
Proof.
  assert (Hbody : forall data buf chunk,
    match send_body data buf chunk with
    | Break d => d <> []
    | Raised (DynamipsError m) => error_re m = true
    | Raised e => e = IndexError
    | Continue _ _ => True
    end).
  { intros data buf chunk. destruct (send_body data buf chunk) as [d b|d|e] eqn:E.
    - exact I.
    - eapply send_body_Break; eassumption.
    - destruct (send_body_Raised _ _ _ _ E) as [-> | (l & -> & Hl)]; auto. }
  induction events as [|[chunk|] events IH]; intros data buf; cbn [send_loop].
  - destruct tail; cbn [fst]; [auto|].
    unfold closed_loop.
    pose proof (Hbody data buf "") as H1.
    destruct (send_body data buf "") as [d b|d|e].
    + pose proof (Hbody d b "") as H2.
      destruct (send_body d b "") as [d' b'|d'|e'].
      * exact I.
      * rewrite after_loop_Returns; assumption.
      * destruct e'; auto; discriminate.
    + rewrite after_loop_Returns; assumption.
    + destruct e; auto; discriminate.
  - pose proof (Hbody data buf chunk) as H1.
    destruct (send_body data buf chunk) as [d b|d|e].
    + apply IH.
    + cbn [fst]. rewrite after_loop_Returns; assumption.
    + cbn [fst]. destruct e; auto; discriminate.
  - cbn [fst]. auto.
Qed.

Lemma send_never_no_data s : fst (send false s) <> Raises (DynamipsError "no data").
Proof.
  unfold send. pose proof (send_loop_outcome (incoming s) (at_end s) [] "") as H.
  destruct (send_loop (incoming s) (at_end s) [] "") as [out rest].
  cbn [fst] in *. intros ->. destruct H as [H | H]; discriminate.
Qed.

End Send.

(** ** The reply engine and the terminator line *)

(** C1, as the code has it.  A reply is a sequence of lines without line
    feeds whose last line begins with [100-]; its bytes arrive cut into
    non-empty reads at arbitrary places, also inside a line.  If no read
    before the last ends exactly behind an earlier line that begins with
    [100-] or matches the error pattern, [send] returns exactly the lines of
    the reply, in order, and leaves the rest of the socket unread; and as
    long as only some of the reads have arrived, the call is still waiting
    (it times out if the peer stays silent): completion is never recognised
    on a partial terminator line. *)
Theorem send_returns_reply_lines :
  forall (lines : list string) (final : string) (chunks : list string)
         (rest : list recv_result) (tail : peer_end),
    Forall (fun l => has_LF l = false) (lines ++ [final]) ->
    String.eqb (slice4 final) "100-" = true ->
    Forall (fun c => c <> "") chunks ->
    joined chunks = wire (lines ++ [final]) ->
    flush_safe chunks (lines ++ [final]) ->
    send false (Socket (map Chunk chunks ++ rest) tail)
      = (Returns (lines ++ [final]), Socket rest tail)
    /\ (forall cs1 cs2, chunks = cs1 ++ cs2 -> cs2 <> [] ->
          send false (Socket (map Chunk cs1) PeerSilent)
            = (Raises (DynamipsError "timeout"), Socket [] PeerSilent)).
Proof.
  intros lines final chunks rest tail Hl Hf Hc Hj Hs.
  pose proof (reading_start _ _ Hl Hc Hj Hs) as Hr.
  split.
  - unfold send. cbn [incoming at_end].
    rewrite (send_loop_reading chunks (lines ++ [final]) "" [] final rest tail Hr).
    + unfold verdict. rewrite Hf. reflexivity.
    + apply last_snoc.
    + unfold is_terminator. rewrite Hf. reflexivity.
  - intros cs1 cs2 -> Hcs2. unfold send. cbn [incoming at_end].
    destruct (send_loop_waiting cs1 cs2 _ "" [] PeerSilent Hr Hcs2) as (d & b & ->).
    reflexivity.
Qed.

(** The reply [101 first], [100-OK] cut inside both lines. *)
Lemma send_returns_reply_lines_witness :
  send false (Socket (map Chunk ["101 fi"; "rst" +:+ CRLF +:+ "10"; "0-OK" +:+ CRLF] ++ [])
                PeerSilent)
    = (Returns (["101 first"] ++ ["100-OK"]), Socket [] PeerSilent)
  /\ (forall cs1 cs2,
        ["101 fi"; "rst" +:+ CRLF +:+ "10"; "0-OK" +:+ CRLF] = cs1 ++ cs2 -> cs2 <> [] ->
        send false (Socket (map Chunk cs1) PeerSilent)
          = (Raises (DynamipsError "timeout"), Socket [] PeerSilent)).
Proof.
  apply (send_returns_reply_lines ["101 first"] "100-OK").
  - repeat constructor.
  - reflexivity.
  - repeat constructor; discriminate.
  - reflexivity.
  - apply flush_safe_payload. repeat constructor.
Defined.

(** C1 as stated fails: with the reads cut behind an earlier line that
    begins with [100-], [send] returns that line alone and leaves the rest
    of the reply in the socket. *)
Lemma send_early_completion :
  send false (Socket [Chunk ("100-a" +:+ CRLF); Chunk ("100-b" +:+ CRLF)] PeerSilent)
    = (Returns ["100-a"], Socket [Chunk ("100-b" +:+ CRLF)] PeerSilent)
  /\ ~ chunking_independent.
Proof.
  split; [reflexivity|]. intros H.
  specialize (H ["100-a"] "100-b" ["100-a" +:+ CRLF; "100-b" +:+ CRLF]).
  assert (E : fst (send false (Socket (map Chunk ["100-a" +:+ CRLF; "100-b" +:+ CRLF])
                                PeerSilent)) = Returns ["100-a"]) by reflexivity.
  rewrite E in H. discriminate H.
  - repeat constructor.
  - reflexivity.
  - repeat constructor; discriminate.
  - reflexivity.
Qed.

(** C2, as the code has it.  A reply whose last line matches
    [^2[0-9][0-9]-], delivered so that no read before the last ends exactly
    behind an earlier line that begins with [100-] or matches the error
    pattern, makes [send] raise [DynamipsError] with that last line as its
    message. *)
Theorem send_raises_error_line :
  forall (lines : list string) (final : string) (chunks : list string)
         (rest : list recv_result) (tail : peer_end),
    Forall (fun l => has_LF l = false) (lines ++ [final]) ->
    error_re final = true ->
    Forall (fun c => c <> "") chunks ->
    joined chunks = wire (lines ++ [final]) ->
    flush_safe chunks (lines ++ [final]) ->
    send false (Socket (map Chunk chunks ++ rest) tail)
      = (Raises (DynamipsError final), Socket rest tail).
Proof.
  intros lines final chunks rest tail Hl Hf Hc Hj Hs.
  pose proof (reading_start _ _ Hl Hc Hj Hs) as Hr.
  unfold send. cbn [incoming at_end].
  rewrite (send_loop_reading chunks (lines ++ [final]) "" [] final rest tail Hr).
  - unfold verdict. rewrite (error_re_not_100 _ Hf). reflexivity.
  - apply last_snoc.
  - unfold is_terminator. rewrite Hf. apply orb_true_r.
Qed.

(** A reply in one read whose first line begins with [100-] and whose last
    line is an error. *)
Lemma send_raises_error_line_witness :
  send false (Socket (map Chunk ["100-ok" +:+ CRLF +:+ "206-unable to create" +:+ CRLF] ++ [])
                PeerSilent)
    = (Raises (DynamipsError "206-unable to create"), Socket [] PeerSilent).
Proof.
  apply (send_raises_error_line ["100-ok"] "206-unable to create").
  - repeat constructor.
  - reflexivity.
  - repeat constructor; discriminate.
  - reflexivity.
  - apply flush_safe_single.
Defined.

(** C2 as stated fails: when a read ends behind an earlier line that begins
    with [100-], [send] returns successfully and never sees the error
    line. *)
Lemma send_misses_error_line :
  send false (Socket [Chunk ("100-ok" +:+ CRLF); Chunk ("206-bad" +:+ CRLF)] PeerSilent)
    = (Returns ["100-ok"], Socket [Chunk ("206-bad" +:+ CRLF)] PeerSilent)
  /\ ~ error_line_decides.
Proof.
  split; [reflexivity|]. intros H.
  specialize (H ["100-ok"] "206-bad" ["100-ok" +:+ CRLF; "206-bad" +:+ CRLF]).
  assert (E : fst (send false (Socket (map Chunk ["100-ok" +:+ CRLF; "206-bad" +:+ CRLF])
                                PeerSilent)) = Returns ["100-ok"]) by reflexivity.
  rewrite E in H. discriminate H.
  - repeat constructor.
  - reflexivity.
  - repeat constructor; discriminate.
  - reflexivity.
Qed.

(** C9 at the failing input: the peer closes the connection before it sent
    anything, [recv] returns [''], and [buf[-1]] raises [IndexError]; when
    the peer closes behind a partial line the loop never exits; the
    [no data] error behind the loop is never raised, on any socket. *)
Theorem send_closed_without_data :
  send false (Socket [] PeerClosed) = (Raises IndexError, Socket [] PeerClosed)
  /\ send false (Socket [Chunk "10"] PeerClosed) = (Hangs, Socket [] PeerClosed)
  /\ (forall s, fst (send false s) <> Raises (DynamipsError "no data")).
Proof.
  split; [reflexivity | split; [reflexivity | apply send_never_no_data]].
Qed.

(** ** [validate_connect] *)

Section Validate.

Lemma family_eqb_eq f g : family_eqb f g = true <-> f = g.
Proof. destruct f, g; cbn; split; intros H; try reflexivity; discriminate. Qed.

Lemma is_bridge_eq k : is_bridge k = true <-> k = KBridge.
Proof. destruct k; cbn; split; intros H; try reflexivity; discriminate. Qed.

Lemma compatible_spec k1 k2 :
  compatible k1 k2 = true <->
  family_of k1 = family_of k2 /\ ~ (k1 = KBridge /\ k2 = KBridge).
Proof.
  unfold compatible. rewrite andb_true_iff, negb_true_iff, family_eqb_eq.
  split; intros [Hf Hb]; (split; [exact Hf|]).
  - intros [H1 H2]. apply is_bridge_eq in H1, H2. rewrite H1, H2 in Hb. discriminate.
  - destruct (is_bridge k1) eqn:E1; [|reflexivity].
    destruct (is_bridge k2) eqn:E2; [|reflexivity].
    exfalso. apply Hb. split; apply is_bridge_eq; assumption.
Qed.

(** On the adapter kinds of the module the cascade of membership tests in
    [validate_connect] computes the rule of the specification. *)
Lemma validate_connect_compatible k1 k2 :
  validate_connect (Some (adapter_name k1)) (Some (adapter_name k2))
  = if compatible k1 k2 then Ok tt
    else Exc (DynamipsError
                (if is_bridge k1 && is_bridge k2 then "attempt to connect two bridges"
                 else "attempt to connect " +:+ adapter_name k1 +:+ " to " +:+ adapter_name k2)).
Proof. destruct k1, k2; vm_compute; reflexivity. Qed.

End Validate.

(** C3.  For every pair of adapter kinds of the module, [validate_connect]
    returns normally exactly when both kinds belong to the same family and
    are not both [Bridge]; it either returns or raises [DynamipsError], and
    two bridges are always refused. *)
Theorem validate_connect_same_family :
  forall k1 k2 : kind,
    (validate_connect (Some (adapter_name k1)) (Some (adapter_name k2)) = Ok tt
     <-> family_of k1 = family_of k2 /\ ~ (k1 = KBridge /\ k2 = KBridge))
    /\ (validate_connect (Some (adapter_name k1)) (Some (adapter_name k2)) = Ok tt
        \/ exists msg, validate_connect (Some (adapter_name k1)) (Some (adapter_name k2))
                       = Exc (DynamipsError msg))
    /\ validate_connect (Some (adapter_name KBridge)) (Some (adapter_name KBridge))
       = Exc (DynamipsError "attempt to connect two bridges").
Proof.
  intros k1 k2. rewrite validate_connect_compatible, <- compatible_spec.
  split; [|split].
  - destruct (compatible k1 k2); split; intros H; try reflexivity; discriminate.
  - destruct (compatible k1 k2); [left; reflexivity | right; eauto].
  - reflexivity.
Qed.

(** Outside the kinds of the module the substring test on [poss] lets
    fragments of the POS adapter's name through. *)
Example validate_connect_substring :
  validate_connect (Some "PA") (Some "OC3") = Ok tt.
Proof. reflexivity. Qed.

(** C10.  [validate_connect] returns normally on [(a, b)] exactly when it
    does on [(b, a)], and raises on [(a, b)] exactly when it raises on
    [(b, a)], for any two objects, with or without an [adapter] attribute. *)
Theorem validate_connect_symmetric :
  forall a b : option string,
    (validate_connect a b = Ok tt <-> validate_connect b a = Ok tt)
    /\ ((exists e, validate_connect a b = Exc e) <-> (exists e, validate_connect b a = Exc e)).
Proof.
  intros [a|] [b|]; cbn [validate_connect]; try tauto.
  rewrite (andb_comm (String.eqb a "Bridge")), (andb_comm (tuple_in a ethernets)),
    (andb_comm (tuple_in a serials)), (andb_comm (tuple_in a atms)),
    (andb_comm (str_in a poss)).
  destruct (String.eqb b "Bridge" && String.eqb a "Bridge").
  { split; split; intros H; try discriminate; eauto. }
  destruct (tuple_in b ethernets && tuple_in a ethernets).
  { split; [tauto|]. split; intros [e H]; discriminate. }
  destruct (tuple_in b serials && tuple_in a serials).
  { split; [tauto|]. split; intros [e H]; discriminate. }
  destruct (tuple_in b atms && tuple_in a atms).
  { split; [tauto|]. split; intros [e H]; discriminate. }
  destruct (str_in b poss && str_in a poss).
  { split; [tauto|]. split; intros [e H]; discriminate. }
  split; split; intros H; try discriminate; eauto.
Qed.

(** ** Frame rules for the store *)

Section Frames.

#[local] Instance same_udp_preorder : PreOrder same_udp.
Proof.
  split.
  - intros w x. split; reflexivity.
  - intros w1 w2 w3 H12 H23 x. destruct (H12 x), (H23 x). split; congruence.
Qed.

#[local] Instance udp_le_preorder : PreOrder udp_le.
Proof.
  split.
  - intros w x u H. exists u. split; [assumption | lia].
  - intros w1 w2 w3 H12 H23 x u H.
    destruct (H12 x u H) as (u2 & H2 & Hle2).
    destruct (H23 x u2 H2) as (u3 & H3 & Hle3).
    exists u3. split; [assumption | lia].
Qed.

#[local] Instance same_objects_preorder : PreOrder same_objects.
Proof.
  split.
  - intros w. reflexivity.
  - intros w1 w2 w3 H12 H23. unfold same_objects in *. congruence.
Qed.

Lemma same_udp_le w w' : same_udp w w' -> udp_le w w'.
Proof.
  intros H x u Hu. exists u. destruct (H x) as [-> _]. split; [assumption | lia].
Qed.

Context {R : world -> world -> Prop} `{!PreOrder R}.

Lemma keeps_bind {A B} (m : M A) (k : A -> M B) :
  keeps R m -> (forall a, keeps R (k a)) -> keeps R (bind m k).
Proof.
  intros Hm Hk w. unfold bind. specialize (Hm w).
  destruct (m w) as [[a| e | |] w1]; cbn [snd] in *; try assumption.
  etransitivity; [exact Hm | apply Hk].
Qed.

Lemma keeps_ret {A} (a : A) : keeps R (ret a).
Proof. intros w. reflexivity. Qed.

Lemma keeps_raise {A} e : keeps R (@raise A e).
Proof. intros w. reflexivity. Qed.

Lemma keeps_lift {A} (r : result A) : keeps R (lift r).
Proof. intros w. reflexivity. Qed.

Lemma keeps_get_dynamips d : keeps R (get_dynamips d).
Proof. intros w. unfold get_dynamips. destruct (dynamips w !! d); reflexivity. Qed.

Lemma keeps_get_endpoint a : keeps R (get_endpoint a).
Proof. intros w. unfold get_endpoint. destruct (endpoints w !! a); reflexivity. Qed.

Lemma keeps_get_router r : keeps R (get_router r).
Proof. intros w. unfold get_router. destruct (routers w !! r); reflexivity. Qed.

End Frames.

#[local] Existing Instances same_udp_preorder udp_le_preorder same_objects_preorder.

Create HintDb frame.
#[local] Hint Resolve keeps_ret keeps_raise keeps_lift keeps_get_dynamips
  keeps_get_endpoint keeps_get_router : frame.

Ltac frame_step :=
  first [ solve [auto with frame typeclass_instances]
        | apply keeps_bind; [| intros ?] ].

Ltac frame_solve :=
  repeat first
    [ frame_step
    | match goal with |- context [if ?b then _ else _] => destruct b end ].

Section FrameFacts.

Lemma udp_of_insert w d o x :
  udp_of (with_dynamips (insert d o) w) x
  = if decide (d = x) then Some (d_udp o) else udp_of w x.
Proof.
  unfold udp_of, with_dynamips. cbn [dynamips]. rewrite lookup_insert.
  destruct (decide (d = x)); reflexivity.
Qed.

Lemma host_of_insert w d o x :
  host_of (with_dynamips (insert d o) w) x
  = if decide (d = x) then Some (d_host o) else host_of w x.
Proof.
  unfold host_of, with_dynamips. cbn [dynamips]. rewrite lookup_insert.
  destruct (decide (d = x)); reflexivity.
Qed.

(** Replacing the object at [d] by one with the same counter and host. *)
Lemma same_udp_insert w d o o' :
  dynamips w !! d = Some o -> d_udp o' = d_udp o -> d_host o' = d_host o ->
  same_udp w (with_dynamips (insert d o') w).
Proof.
  intros Hd Hu Hh x. rewrite udp_of_insert, host_of_insert.
  destruct (decide (d = x)) as [<-|]; [|split; reflexivity].
  unfold udp_of, host_of. rewrite Hd. cbn. split; congruence.
Qed.

Lemma send_to_same_udp d command : keeps same_udp (send_to d command).
Proof.
  intros w. unfold send_to. destruct (dynamips w !! d) as [o|] eqn:Hd; [|reflexivity].
  destruct (NOSEND w); [reflexivity|].
  destruct (send false (d_s o)) as [out s'].
  assert (H : same_udp w (with_dynamips
                (insert d (mkDynamips (d_host o) (d_port o) (d_baseconsole o)
                             (d_udp o) (d_devices o) s' (d_sent o ++ [command]))) w))
    by (eapply same_udp_insert; [eassumption | reflexivity | reflexivity]).
  destruct out; exact H.
Qed.

Lemma send_to_same_objects d command : keeps same_objects (send_to d command).
Proof.
  intros w. unfold send_to. destruct (dynamips w !! d) as [o|]; [|reflexivity].
  destruct (NOSEND w); [reflexivity|].
  destruct (send false (d_s o)) as [out s']. destruct out; reflexivity.
Qed.

Lemma put_endpoint_same_udp a e : keeps same_udp (put_endpoint a e).
Proof. intros w x. split; reflexivity. Qed.

Lemma put_endpoint_same_objects a e : keeps same_objects (put_endpoint a e).
Proof. intros w. reflexivity. Qed.

Lemma new_NIO_udp_same_udp d ul rh ur : keeps same_udp (new_NIO_udp d ul rh ur).
Proof.
  intros w. unfold new_NIO_udp.
  pose proof (send_to_same_udp d
    ("nio create_udp " +:+ ("nio_udp" +:+ str_of_Z (NIO_udp_instance w)) +:+ " " +:+
     str_of_Z ul +:+ " " +:+ rh +:+ " " +:+ str_of_Z ur)
    (mkWorld (NOSEND w) (NIO_udp_instance w + 1) (dynamips w) (routers w)
       (endpoints w) (nio_objects w))) as H.
  cbv zeta.
  destruct (send_to d _ _) as [[[]| e | |] w2]; cbn [snd] in *; exact H.
Qed.

End FrameFacts.

#[local] Hint Resolve send_to_same_udp send_to_same_objects put_endpoint_same_udp
  put_endpoint_same_objects new_NIO_udp_same_udp : frame.

Section FrameCalls.

Lemma nio_port_same_udp a port nio : keeps same_udp (nio_port a port nio).
Proof.
  unfold nio_port. frame_step; [frame_step|].
  destruct a0; frame_solve.
Qed.

Lemma nio_port_same_objects a port nio : keeps same_objects (nio_port a port nio).
Proof.
  unfold nio_port. frame_step; [frame_step|].
  destruct a0; frame_solve.
Qed.

Lemma nio_bridge_same_udp a nio : keeps same_udp (nio_bridge a nio).
Proof.
  unfold nio_bridge. frame_step; [frame_step|].
  destruct a0; repeat frame_step.
Qed.

Lemma nio_bridge_same_objects a nio : keeps same_objects (nio_bridge a nio).
Proof.
  unfold nio_bridge. frame_step; [frame_step|].
  destruct a0; repeat frame_step.
Qed.

End FrameCalls.

#[local] Hint Resolve nio_port_same_udp nio_port_same_objects nio_bridge_same_udp
  nio_bridge_same_objects : frame.

(** ** [gen_connect] *)

Section GenConnect.

Lemma bind_Ok {A B} (m : M A) (k : A -> M B) w a w1 :
  m w = (Ok a, w1) -> bind m k w = k a w1.
Proof. unfold bind. intros ->. reflexivity. Qed.

Lemma bind_Exc {A B} (m : M A) (k : A -> M B) w e w1 :
  m w = (Exc e, w1) -> bind m k w = (Exc e, w1).
Proof. unfold bind. intros ->. reflexivity. Qed.

Lemma get_dynamips_Some w d o : dynamips w !! d = Some o -> get_dynamips d w = (Ok o, w).
Proof. unfold get_dynamips. intros ->. reflexivity. Qed.

Lemma get_endpoint_Some w a e : endpoints w !! a = Some e -> get_endpoint a w = (Ok e, w).
Proof. unfold get_endpoint. intros ->. reflexivity. Qed.

Lemma get_router_Some w r o : routers w !! r = Some o -> get_router r w = (Ok o, w).
Proof. unfold get_router. intros ->. reflexivity. Qed.

Lemma set_udp_Some w d o v :
  dynamips w !! d = Some o -> set_udp d v w = (Ok tt, with_dynamips (insert d (with_udp v o)) w).
Proof. unfold set_udp. intros ->. reflexivity. Qed.

Lemma keeps_same_udp_le {A} (m : M A) : keeps same_udp m -> keeps udp_le m.
Proof. intros H w. apply same_udp_le, H. Qed.

(** One allocation: the current counter is handed out and the counter of
    that instance, and of no other, goes up by one. *)
Lemma alloc_udp_spec w d o :
  dynamips w !! d = Some o ->
  alloc_udp d w = (Ok (d_udp o), with_dynamips (insert d (with_udp (d_udp o + 1) o)) w).
Proof.
  intros H. unfold alloc_udp.
  rewrite (bind_Ok _ _ _ _ _ (get_dynamips_Some _ _ _ H)).
  rewrite (bind_Ok _ _ _ _ _ (get_dynamips_Some _ _ _ H)).
  rewrite (bind_Ok _ _ _ _ _ (set_udp_Some _ _ _ _ H)).
  reflexivity.
Qed.

Lemma alloc_udp_udp_le d : keeps udp_le (alloc_udp d).
Proof.
  intros w. destruct (dynamips w !! d) as [o|] eqn:Hd.
  - rewrite (alloc_udp_spec _ _ _ Hd). cbn [snd]. intros x u Hu.
    rewrite udp_of_insert. destruct (decide (d = x)) as [<-|].
    + unfold udp_of in Hu. rewrite Hd in Hu. injection Hu as <-.
      eexists. split; [reflexivity|]. cbn. lia.
    + exists u. split; [assumption | lia].
  - unfold alloc_udp, bind at 1, get_dynamips at 1. rewrite Hd. reflexivity.
Qed.

Lemma gen_connect_tail_same_udp sd sa sp dd da dp src_ip dst_ip src_udp dst_udp :
  keeps same_udp (gen_connect_tail sd sa sp dd da dp src_ip dst_ip src_udp dst_udp).
Proof.
  unfold gen_connect_tail. frame_solve.
Qed.

(** However it ends, a call of [gen_connect] lowers no counter. *)
Lemma gen_connect_udp_le sd sa sp dd da dp :
  keeps udp_le (gen_connect sd sa sp dd da dp).
Proof.
  unfold gen_connect.
  repeat first
    [ apply alloc_udp_udp_le
    | apply keeps_same_udp_le; solve [auto with frame typeclass_instances]
    | apply keeps_bind; [| intros ?] ].
  apply keeps_same_udp_le. frame_solve.
Qed.

Lemma connect_run_udp_le w w' : connect_run w w' -> udp_le w w'.
Proof.
  induction 1 as [w | w w1 w2 sd sa sp dd da dp E _ IH]; [reflexivity|].
  etransitivity; [|exact IH]. rewrite <- E. apply gen_connect_udp_le.
Qed.

(** A call that passes validation allocates both ports and goes on to
    create and tie the NIOs. *)
Lemma gen_connect_valid w sd sa sp dd da dp src dst e1 e2 :
  endpoints w !! sa = Some e1 -> endpoints w !! da = Some e2 ->
  validate_connect (adapter_of e1) (adapter_of e2) = Ok tt ->
  dynamips w !! sd = Some src -> dynamips w !! dd = Some dst ->
  gen_connect sd sa sp dd da dp w
  = gen_connect_tail sd sa sp dd da dp
      (if String.eqb (d_host src) (d_host dst) then "127.0.0.1" else d_host src)
      (if String.eqb (d_host src) (d_host dst) then "127.0.0.1" else d_host dst)
      (d_udp src)
      (if decide (sd = dd) then d_udp src + 1 else d_udp dst)%Z
      (allocated w sd dd src dst).
Proof.
  intros H1 H2 Hv Hs Hd.
  unfold gen_connect.
  rewrite (bind_Ok _ _ _ _ _ (get_endpoint_Some _ _ _ H1)).
  rewrite (bind_Ok _ _ _ _ _ (get_endpoint_Some _ _ _ H2)).
  rewrite Hv. rewrite (bind_Ok (lift (Ok tt)) _ w tt w eq_refl).
  rewrite (bind_Ok _ _ _ _ _ (get_dynamips_Some _ _ _ Hs)).
  rewrite (bind_Ok _ _ _ _ _ (get_dynamips_Some _ _ _ Hd)).
  cbv zeta.
  rewrite (bind_Ok _ _ _ _ _ (alloc_udp_spec _ _ _ Hs)).
  unfold allocated. cbv zeta.
  destruct (decide (sd = dd)) as [<-|Hne].
  - erewrite bind_Ok; [reflexivity|].
    apply (alloc_udp_spec _ sd (with_udp (d_udp src + 1) src)).
    cbn [with_dynamips dynamips]. apply lookup_insert_eq.
  - erewrite bind_Ok; [reflexivity|].
    apply alloc_udp_spec. cbn [with_dynamips dynamips].
    rewrite lookup_insert_ne by assumption. assumption.
Qed.

Lemma new_NIO_udp_Ok d ul rh ur w n w' :
  new_NIO_udp d ul rh ur w = (Ok n, w') ->
  n = mkNIO_udp d ul rh ur ("nio_udp" +:+ str_of_Z (NIO_udp_instance w))
  /\ nio_objects w' = nio_objects w ++ [n].
Proof.
  unfold new_NIO_udp. cbv zeta.
  pose proof (send_to_same_objects d
    ("nio create_udp " +:+ ("nio_udp" +:+ str_of_Z (NIO_udp_instance w)) +:+ " " +:+
     str_of_Z ul +:+ " " +:+ rh +:+ " " +:+ str_of_Z ur)
    (mkWorld (NOSEND w) (NIO_udp_instance w + 1) (dynamips w) (routers w)
       (endpoints w) (nio_objects w))) as H.
  destruct (send_to d _ _) as [[[]| e | |] w2]; try discriminate.
  intros [= <- <-]. cbn [snd nio_objects] in *. unfold same_objects in H.
  cbn [nio_objects] in H. rewrite H. split; reflexivity.
Qed.

(** A successful tail constructed exactly the two NIOs. *)
Lemma gen_connect_tail_Ok sd sa sp dd da dp src_ip dst_ip src_udp dst_udp w w' :
  gen_connect_tail sd sa sp dd da dp src_ip dst_ip src_udp dst_udp w = (Ok tt, w') ->
  exists name1 name2,
    nio_objects w' = nio_objects w ++ [mkNIO_udp sd src_udp dst_ip dst_udp name1;
                                       mkNIO_udp dd dst_udp src_ip src_udp name2].
Proof.
  unfold gen_connect_tail, bind at 1.
  destruct (new_NIO_udp sd src_udp dst_ip dst_udp w) as [[n1| | |] w1] eqn:E1;
    try discriminate.
  apply new_NIO_udp_Ok in E1. destruct E1 as [En1 Eo1].
  unfold bind at 1.
  destruct (new_NIO_udp dd dst_udp src_ip src_udp w1) as [[n2| | |] w2] eqn:E2;
    try discriminate.
  apply new_NIO_udp_Ok in E2. destruct E2 as [En2 Eo2].
  intros H.
  assert (Ho : same_objects w2 w').
  { change w' with (snd (Ok tt, w')). rewrite <- H.
    assert (K : forall a b, keeps same_objects
      (do_ nio_port sa sp a ; do e <- get_endpoint da ;
       if isinstance_Bridge e then nio_bridge da b else nio_port da dp b)).
    { intros a b. frame_solve. }
    apply K. }
  unfold same_objects in Ho. rewrite Ho, Eo2, Eo1, <- app_assoc.
  subst n1 n2. eexists _, _. reflexivity.
Qed.

End GenConnect.

Section GenConnectFacts.

Lemma alloc_udp_fst w d u : fst (alloc_udp d w) = Ok u -> udp_of w d = Some u.
Proof.
  destruct (dynamips w !! d) as [o|] eqn:Hd.
  - rewrite (alloc_udp_spec _ _ _ Hd). cbn [fst]. intros [= <-].
    unfold udp_of. rewrite Hd. reflexivity.
  - unfold alloc_udp, bind at 1, get_dynamips at 1. rewrite Hd. discriminate.
Qed.

Lemma udp_of_allocated w sd dd src dst x :
  dynamips w !! sd = Some src -> dynamips w !! dd = Some dst ->
  udp_of (allocated w sd dd src dst) x
  = if decide (dd = x)
    then Some (if decide (sd = dd) then d_udp src + 2 else d_udp dst + 1)%Z
    else if decide (sd = x) then Some (d_udp src + 1)%Z else udp_of w x.
Proof.
  intros Hs Hd. unfold allocated. cbv zeta. rewrite udp_of_insert.
  destruct (decide (dd = x)) as [<-|Hx].
  - destruct (decide (sd = dd)); cbn [with_udp d_udp]; f_equal; lia.
  - rewrite udp_of_insert. reflexivity.
Qed.

(** A call that succeeds passed validation on allocated objects. *)
Lemma gen_connect_Ok_inv w w' sd sa sp dd da dp :
  gen_connect sd sa sp dd da dp w = (Ok tt, w') ->
  exists e1 e2,
    endpoints w !! sa = Some e1 /\ endpoints w !! da = Some e2 /\
    validate_connect (adapter_of e1) (adapter_of e2) = Ok tt.
Proof.
  unfold gen_connect, bind at 1, get_endpoint at 1.
  destruct (endpoints w !! sa) as [e1|]; [|discriminate].
  unfold bind at 1, get_endpoint at 1.
  destruct (endpoints w !! da) as [e2|]; [|discriminate].
  unfold bind at 1, lift.
  destruct (validate_connect (adapter_of e1) (adapter_of e2)) as [[]| | |] eqn:Hv;
    try discriminate.
  intros _. eauto.
Qed.

(** What a successful call constructed. *)
Lemma gen_connect_Ok w w' sd sa sp dd da dp src dst :
  dynamips w !! sd = Some src -> dynamips w !! dd = Some dst ->
  gen_connect sd sa sp dd da dp w = (Ok tt, w') ->
  exists name1 name2,
    nio_objects w' = nio_objects w ++
      [mkNIO_udp sd (d_udp src)
         (if String.eqb (d_host src) (d_host dst) then "127.0.0.1" else d_host dst)
         (if decide (sd = dd) then d_udp src + 1 else d_udp dst)%Z name1;
       mkNIO_udp dd (if decide (sd = dd) then d_udp src + 1 else d_udp dst)%Z
         (if String.eqb (d_host src) (d_host dst) then "127.0.0.1" else d_host src)
         (d_udp src) name2].
Proof.
  intros Hs Hd H.
  destruct (gen_connect_Ok_inv _ _ _ _ _ _ _ _ H) as (e1 & e2 & H1 & H2 & Hv).
  rewrite (gen_connect_valid w sd sa sp dd da dp src dst e1 e2 H1 H2 Hv Hs Hd) in H.
  apply gen_connect_tail_Ok in H. exact H.
Qed.

End GenConnectFacts.

(** ** The link orchestrator *)

(** C4.  In a call of [gen_connect] that passes validation, each of the two
    allocations hands out the current value of the instance's UDP counter
    and raises that counter by exactly one; the counters stay as allocated
    however the creation of the NIOs and the binding calls behind them end
    (no rollback); and along any later run of [gen_connect] calls no counter
    goes down, so a port handed out is never handed out again. *)
Theorem udp_allocation_monotonic :
  forall (w : world) (sd sa : nat) (sp : option Z) (dd da : nat) (dp : option Z)
         (src dst : Dynamips) (e1 e2 : Endpoint),
    endpoints w !! sa = Some e1 -> endpoints w !! da = Some e2 ->
    validate_connect (adapter_of e1) (adapter_of e2) = Ok tt ->
    dynamips w !! sd = Some src -> dynamips w !! dd = Some dst ->
    let src_udp := d_udp src in
    let dst_udp := (if decide (sd = dd) then d_udp src + 1 else d_udp dst)%Z in
    let w' := snd (gen_connect sd sa sp dd da dp w) in
    (exists w1 w2,
        alloc_udp sd w = (Ok src_udp, w1) /\ udp_of w1 sd = Some (src_udp + 1)%Z /\
        alloc_udp dd w1 = (Ok dst_udp, w2) /\ udp_of w2 dd = Some (dst_udp + 1)%Z /\
        same_udp w2 w')
    /\ udp_of w' sd = Some (if decide (sd = dd) then src_udp + 2 else src_udp + 1)%Z
    /\ udp_of w' dd = Some (dst_udp + 1)%Z
    /\ (forall x, x <> sd -> x <> dd -> udp_of w' x = udp_of w x)
    /\ (forall w'', connect_run w' w'' ->
          udp_le w' w'' /\
          (forall u, fst (alloc_udp sd w'') = Ok u -> (src_udp < u)%Z) /\
          (forall u, fst (alloc_udp dd w'') = Ok u -> (dst_udp < u)%Z)).
Proof.
  intros w sd sa sp dd da dp src dst e1 e2 H1 H2 Hv Hs Hd src_udp dst_udp w'.
  assert (Hw' : same_udp (allocated w sd dd src dst) w').
  { unfold w'. rewrite (gen_connect_valid w sd sa sp dd da dp src dst e1 e2 H1 H2 Hv Hs Hd).
    apply gen_connect_tail_same_udp. }
  assert (Hu : forall x, udp_of w' x = udp_of (allocated w sd dd src dst) x)
    by (intros x; apply Hw').
  assert (Hsd : udp_of w' sd = Some (if decide (sd = dd) then src_udp + 2 else src_udp + 1)%Z).
  { rewrite Hu, (udp_of_allocated _ _ _ _ _ _ Hs Hd).
    destruct (decide (dd = sd)) as [->|Hne].
    - rewrite !decide_True by reflexivity. reflexivity.
    - rewrite (decide_False (P := sd = dd)) by congruence.
      rewrite decide_True by reflexivity. reflexivity. }
  assert (Hdd : udp_of w' dd = Some (dst_udp + 1)%Z).
  { rewrite Hu, (udp_of_allocated _ _ _ _ _ _ Hs Hd), decide_True by reflexivity.
    unfold dst_udp. destruct (decide (sd = dd)); f_equal; lia. }
  split; [|split; [exact Hsd | split; [exact Hdd | split]]].
  - exists (with_dynamips (insert sd (with_udp (d_udp src + 1) src)) w),
           (allocated w sd dd src dst).
    split; [apply (alloc_udp_spec _ _ _ Hs)|].
    split; [rewrite udp_of_insert, decide_True by reflexivity; reflexivity|].
    split; [|split; [|exact Hw']].
    + unfold allocated, dst_udp. cbv zeta. destruct (decide (sd = dd)) as [<-|Hne].
      * apply (alloc_udp_spec _ sd (with_udp (d_udp src + 1) src)).
        cbn [with_dynamips dynamips]. apply lookup_insert_eq.
      * apply alloc_udp_spec. cbn [with_dynamips dynamips].
        rewrite lookup_insert_ne by assumption. assumption.
    + rewrite (udp_of_allocated _ _ _ _ _ _ Hs Hd), decide_True by reflexivity.
      unfold dst_udp. destruct (decide (sd = dd)); f_equal; lia.
  - intros x Hxs Hxd. rewrite Hu, (udp_of_allocated _ _ _ _ _ _ Hs Hd).
    rewrite !decide_False by congruence. reflexivity.
  - intros w'' Hrun. pose proof (connect_run_udp_le _ _ Hrun) as Hle.
    split; [exact Hle|]. split; intros u Hu'; apply alloc_udp_fst in Hu'.
    + destruct (Hle _ _ Hsd) as (u' & Hu'' & Hlt). rewrite Hu' in Hu''.
      injection Hu'' as <-. destruct (decide (sd = dd)); lia.
    + destruct (Hle _ _ Hdd) as (u' & Hu'' & Hlt). rewrite Hu' in Hu''.
      injection Hu'' as <-. lia.
Qed.

(** C6.  When validation fails, [gen_connect] raises the error of
    [validate_connect] and leaves the whole store as it was: no NIO object,
    no command on either socket, both UDP counters unchanged. *)
Theorem gen_connect_invalid_no_effect :
  forall (w : world) (sd sa : nat) (sp : option Z) (dd da : nat) (dp : option Z)
         (e1 e2 : Endpoint) (e : exn),
    endpoints w !! sa = Some e1 -> endpoints w !! da = Some e2 ->
    validate_connect (adapter_of e1) (adapter_of e2) = Exc e ->
    gen_connect sd sa sp dd da dp w = (Exc e, w).
Proof.
  intros w sd sa sp dd da dp e1 e2 e H1 H2 Hv. unfold gen_connect.
  rewrite (bind_Ok _ _ _ _ _ (get_endpoint_Some _ _ _ H1)).
  rewrite (bind_Ok _ _ _ _ _ (get_endpoint_Some _ _ _ H2)).
  rewrite Hv. reflexivity.
Qed.

(** C7.  A successful [gen_connect] constructs exactly two [NIO_udp]
    objects, one on each instance, that mirror each other: the local port
    of each is the port allocated on its own instance and its remote port
    is the port allocated on the other side. *)
Theorem gen_connect_paired_endpoints :
  forall (w w' : world) (sd sa : nat) (sp : option Z) (dd da : nat) (dp : option Z)
         (src dst : Dynamips),
    dynamips w !! sd = Some src -> dynamips w !! dd = Some dst ->
    gen_connect sd sa sp dd da dp w = (Ok tt, w') ->
    exists src_nio dst_nio,
      nio_objects w' = nio_objects w ++ [src_nio; dst_nio]
      /\ nio_d src_nio = sd /\ nio_d dst_nio = dd
      /\ nio_udplocal src_nio = d_udp src
      /\ nio_udplocal dst_nio = (if decide (sd = dd) then d_udp src + 1 else d_udp dst)%Z
      /\ nio_udpremote src_nio = nio_udplocal dst_nio
      /\ nio_udpremote dst_nio = nio_udplocal src_nio.
Proof.
  intros w w' sd sa sp dd da dp src dst Hs Hd H.
  destruct (gen_connect_Ok _ _ _ _ _ _ _ _ _ _ Hs Hd H) as (name1 & name2 & E).
  eexists _, _. split; [exact E|]. cbn. repeat split; reflexivity.
Qed.

(** C8, as the code has it.  The test is on the [host] strings: when the
    two instances have equal [host] (in particular when they are the same
    object) both NIOs get [127.0.0.1] as remote address, otherwise each NIO
    gets the [host] of the other instance. *)
Theorem gen_connect_remote_address :
  forall (w w' : world) (sd sa : nat) (sp : option Z) (dd da : nat) (dp : option Z)
         (src dst : Dynamips),
    dynamips w !! sd = Some src -> dynamips w !! dd = Some dst ->
    gen_connect sd sa sp dd da dp w = (Ok tt, w') ->
    exists src_nio dst_nio,
      nio_objects w' = nio_objects w ++ [src_nio; dst_nio]
      /\ (d_host src = d_host dst ->
          nio_remotehost src_nio = "127.0.0.1" /\ nio_remotehost dst_nio = "127.0.0.1")
      /\ (d_host src <> d_host dst ->
          nio_remotehost src_nio = d_host dst /\ nio_remotehost dst_nio = d_host src)
      /\ (sd = dd ->
          nio_remotehost src_nio = "127.0.0.1" /\ nio_remotehost dst_nio = "127.0.0.1").
Proof.
  intros w w' sd sa sp dd da dp src dst Hs Hd H.
  destruct (gen_connect_Ok _ _ _ _ _ _ _ _ _ _ Hs Hd H) as (name1 & name2 & E).
  eexists _, _. split; [exact E|]. cbn [nio_remotehost].
  destruct (String.eqb_spec (d_host src) (d_host dst)) as [Heq|Hne].
  - repeat split; intros; congruence.
  - split; [intros; contradiction|]. split; [intros; split; reflexivity|].
    intros ->. rewrite Hs in Hd. injection Hd as ->. contradiction.
Qed.

Section LinkExamples.

Import Lab.

(** Two routers of one hypervisor: ports 10000 and 10001, and the counter
    ends at 10002. *)
Lemma udp_allocation_monotonic_witness :
  udp_of (snd (gen_connect 0 0 (Some 0%Z) 0 1 (Some 0%Z) world0)) 0 = Some 10002%Z
  /\ (forall w'', connect_run (snd (gen_connect 0 0 (Some 0%Z) 0 1 (Some 0%Z) world0)) w'' ->
        forall u, fst (alloc_udp 0 w'') = Ok u -> (10001 < u)%Z).
Proof.
  pose proof (udp_allocation_monotonic world0 0 0 (Some 0%Z) 0 1 (Some 0%Z) hv0 hv0
                (BaseAdapter 0 "c7200" "r0" 1 "PA-FE-TX" 1 [None])
                (BaseAdapter 0 "c7200" "r1" 1 "PA-FE-TX" 1 [None])
                eq_refl eq_refl eq_refl eq_refl eq_refl) as H.
  cbv zeta in H. destruct H as (_ & Hsd & _ & _ & Hrun).
  split; [exact Hsd|]. intros w'' Hr u Hu. exact (proj2 (proj2 (Hrun w'' Hr)) u Hu).
Defined.

(** An Ethernet adapter and a serial adapter. *)
Lemma gen_connect_invalid_no_effect_witness :
  gen_connect 0 0 (Some 0%Z) 0 2 (Some 0%Z) world0
  = (Exc (DynamipsError "attempt to connect PA-FE-TX to PA-4T+"), world0).
Proof.
  apply (gen_connect_invalid_no_effect world0 0 0 (Some 0%Z) 0 2 (Some 0%Z)
           (BaseAdapter 0 "c7200" "r0" 1 "PA-FE-TX" 1 [None])
           (BaseAdapter 0 "c7200" "r2" 1 "PA-4T+" 4 [None; None; None; None]));
    reflexivity.
Defined.

(** Two routers of one hypervisor. *)
Lemma gen_connect_paired_endpoints_witness :
  exists src_nio dst_nio,
    nio_objects (snd (gen_connect 0 0 (Some 0%Z) 0 1 (Some 0%Z) world0))
    = nio_objects world0 ++ [src_nio; dst_nio]
    /\ nio_d src_nio = 0%nat /\ nio_d dst_nio = 0%nat
    /\ nio_udplocal src_nio = 10000%Z
    /\ nio_udplocal dst_nio = 10001%Z
    /\ nio_udpremote src_nio = nio_udplocal dst_nio
    /\ nio_udpremote dst_nio = nio_udplocal src_nio.
Proof.
  assert (E : gen_connect 0 0 (Some 0%Z) 0 1 (Some 0%Z) world0
              = (Ok tt, snd (gen_connect 0 0 (Some 0%Z) 0 1 (Some 0%Z) world0)))
    by (vm_compute; reflexivity).
  exact (gen_connect_paired_endpoints world0 _ 0 0 (Some 0%Z) 0 1 (Some 0%Z) hv0 hv0
           eq_refl eq_refl E).
Defined.

(** Routers on two machines: each NIO points at the other machine. *)
Lemma gen_connect_remote_address_witness :
  exists src_nio dst_nio,
    nio_objects (snd (gen_connect 0 0 (Some 0%Z) 2 5 (Some 0%Z) world0))
    = nio_objects world0 ++ [src_nio; dst_nio]
    /\ nio_remotehost src_nio = "10.0.0.9" /\ nio_remotehost dst_nio = "10.0.0.5".
Proof.
  assert (E0 : gen_connect 0 0 (Some 0%Z) 2 5 (Some 0%Z) world0
               = (Ok tt, snd (gen_connect 0 0 (Some 0%Z) 2 5 (Some 0%Z) world0)))
    by (vm_compute; reflexivity).
  destruct (gen_connect_remote_address world0 _ 0 0 (Some 0%Z) 2 5 (Some 0%Z) hv0 hv2
              eq_refl eq_refl E0)
    as (n1 & n2 & E & _ & Hne & _).
  exists n1, n2. split; [exact E|]. apply Hne. discriminate.
Defined.

(** C8 as stated fails: two hypervisors on one machine are two connections,
    yet the NIOs between them get the loopback address and not the address
    of the machine. *)
Lemma gen_connect_loopback_between_connections :
  map nio_remotehost (nio_objects (snd (gen_connect 0 0 (Some 0%Z) 1 3 (Some 0%Z) world0)))
    = ["127.0.0.1"; "127.0.0.1"]
  /\ fst (gen_connect 0 0 (Some 0%Z) 1 3 (Some 0%Z) world0) = Ok tt
  /\ ~ loopback_iff_same_connection.
Proof.
  split; [vm_compute; reflexivity|]. split; [vm_compute; reflexivity|]. intros H.
  assert (E0 : gen_connect 0 0 (Some 0%Z) 1 3 (Some 0%Z) world0
               = (Ok tt, snd (gen_connect 0 0 (Some 0%Z) 1 3 (Some 0%Z) world0)))
    by (vm_compute; reflexivity).
  destruct (H world0 _ 0%nat 0%nat (Some 0%Z) 1%nat 3%nat (Some 0%Z) hv0 hv1
              eq_refl eq_refl E0)
    as (n1 & n2 & E & Hh).
  vm_compute in E. injection E as <- <-.
  destruct Hh as [Hh _]. discriminate Hh.
Qed.

End LinkExamples.

(** ** Console ports *)

Section Console.

Lemma checkconsole_scan_Some c rs devs i :
  checkconsole_scan c rs devs = Some i ->
  i ∈ devs /\ exists r, rs !! i = Some r /\ r_console r = Some c.
Proof.
  induction devs as [|dev devs IH]; cbn [checkconsole_scan]; [discriminate|].
  assert (Hrest : checkconsole_scan c rs devs = Some i ->
                  i ∈ dev :: devs /\ exists r, rs !! i = Some r /\ r_console r = Some c).
  { intros H. destruct (IH H) as [Hin Hr]. split; [right; exact Hin | exact Hr]. }
  destruct (rs !! dev) as [r|] eqn:Er; [|exact Hrest].
  destruct (r_console r) as [con2|] eqn:Ec; [|exact Hrest].
  destruct (Z.eqb_spec c con2) as [->|Hne]; [|exact Hrest].
  intros [= <-]. split; [left | eauto].
Qed.

Lemma checkconsole_scan_finds c rs devs i r :
  i ∈ devs -> rs !! i = Some r -> r_console r = Some c ->
  exists j, checkconsole_scan c rs devs = Some j.
Proof.
  intros Hin Hr Hc. induction Hin as [i devs | i dev devs Hin IH];
    cbn [checkconsole_scan].
  - rewrite Hr, Hc, Z.eqb_refl. eauto.
  - specialize (IH Hr).
    destruct (rs !! dev) as [r'|]; [|exact IH].
    destruct (r_console r') as [con2|]; [|exact IH].
    destruct (c =? con2)%Z; [eauto | exact IH].
Qed.

(** In a registry without duplicates the scan finds the one holder. *)
Lemma checkconsole_scan_holder w d c i r :
  consoles_unique w d ->
  i ∈ d_devices d -> routers w !! i = Some r -> r_console r = Some c ->
  checkconsole_scan c (routers w) (d_devices d) = Some i.
Proof.
  intros Hu Hin Hr Hc.
  destruct (checkconsole_scan_finds _ _ _ _ _ Hin Hr Hc) as [j Hj].
  destruct (checkconsole_scan_Some _ _ _ _ Hj) as (Hjin & rj & Hrj & Hcj).
  rewrite Hj. f_equal. exact (Hu j i rj r c Hjin Hin Hrj Hr Hcj Hc).
Qed.

Lemma checkconsole_Some w c d o :
  dynamips w !! d = Some o ->
  checkconsole c d w = (Ok (checkconsole_scan c (routers w) (d_devices o)), w).
Proof.
  intros H. unfold checkconsole.
  rewrite (bind_Ok _ _ _ _ _ (get_dynamips_Some _ _ _ H)). reflexivity.
Qed.

Lemma store_console_Some w self r c :
  routers w !! self = Some r ->
  store_console self c w
  = (Ok tt, with_routers (insert self (mkRouter (r_d r) (r_model r) (r_name r) (Some c))) w).
Proof.
  intros H. unfold store_console.
  rewrite (bind_Ok _ _ _ _ _ (get_router_Some _ _ _ H)). reflexivity.
Qed.

(** The errors that come out of a [send]. *)
Lemma send_to_Exc d command w e w' :
  send_to d command w = (Exc e, w') ->
  e = IndexError \/ exists m, e = DynamipsError m /\ (m = "timeout" \/ error_re m = true).
Proof.
  unfold send_to. destruct (dynamips w !! d) as [o|]; [|discriminate].
  destruct (NOSEND w); [discriminate|]. unfold send.
  pose proof (send_loop_outcome (incoming (d_s o)) (at_end (d_s o)) [] "") as H.
  destruct (send_loop (incoming (d_s o)) (at_end (d_s o)) [] "") as [out rest].
  cbn [fst] in H. destruct out as [data| |e0|]; try discriminate.
  intros [= <- _]. destruct e0; eauto; discriminate.
Qed.

Lemma error_re_head m : error_re m = true -> exists t, m = String "2" t.
Proof.
  destruct m as [|c0 [|c1 [|c2 [|c3 t]]]]; try discriminate.
  cbn [error_re]. intros H.
  apply andb_true_iff in H. destruct H as [H _].
  apply andb_true_iff in H. destruct H as [H _].
  apply andb_true_iff in H. destruct H as [H _].
  apply Ascii.eqb_eq in H. subst c0. eauto.
Qed.

Lemma conflict_msg_head c name : exists t, conflict_msg c name = String "c" t.
Proof. eexists. reflexivity. Qed.

(** No error of a [send] reads like a console conflict. *)
Lemma send_to_no_conflict d command w e w' :
  send_to d command w = (Exc e, w') -> ~ is_conflict_error e.
Proof.
  intros H (c & name & ->). destruct (conflict_msg_head c name) as [t Et].
  rewrite Et in H. apply send_to_Exc in H.
  destruct H as [H | (m & [= <-] & [H | H])]; try discriminate.
  apply error_re_head in H. destruct H as [t' H]. discriminate.
Qed.

Lemma invalid_port_no_conflict : ~ is_conflict_error (DynamipsError "invalid console port").
Proof.
  intros (c & name & H). destruct (conflict_msg_head c name) as [t Et].
  rewrite Et in H. discriminate.
Qed.

(** The setter behind a conflict check that found nothing to object to. *)
Lemma Router_setconsole_pass w self r d c :
  routers w !! self = Some r -> dynamips w !! r_d r = Some d ->
  (1 <= c <= 65535)%Z ->
  checkconsole_scan c (routers w) (d_devices d) = None \/
  checkconsole_scan c (routers w) (d_devices d) = Some self ->
  Router_setconsole self c w
  = send_to (r_d r) ("vm set_con_tcp_port " +:+ r_name r +:+ " " +:+ str_of_Z c)
      (with_routers (insert self (mkRouter (r_d r) (r_model r) (r_name r) (Some c))) w).
Proof.
  intros Hr Hd Hc Hscan. unfold Router_setconsole.
  replace ((c <? 1)%Z || (65535 <? c)%Z) with false
    by (symmetry; apply orb_false_intro; [apply Z.ltb_ge | apply Z.ltb_ge]; lia).
  rewrite (bind_Ok _ _ _ _ _ (get_router_Some _ _ _ Hr)).
  rewrite (bind_Ok _ _ _ _ _ (checkconsole_Some _ c _ _ Hd)).
  destruct Hscan as [-> | ->].
  - rewrite (bind_Ok (ret tt) _ w tt w eq_refl).
    rewrite (bind_Ok _ _ _ _ _ (store_console_Some _ _ _ c Hr)). reflexivity.
  - rewrite Nat.eqb_refl. cbn [negb].
    rewrite (bind_Ok (ret tt) _ w tt w eq_refl).
    rewrite (bind_Ok _ _ _ _ _ (store_console_Some _ _ _ c Hr)). reflexivity.
Qed.

(** The setter when the scan finds another device. *)
Lemma Router_setconsole_conflict w self r d c other ro :
  routers w !! self = Some r -> dynamips w !! r_d r = Some d ->
  (1 <= c <= 65535)%Z ->
  checkconsole_scan c (routers w) (d_devices d) = Some other ->
  other <> self -> routers w !! other = Some ro ->
  Router_setconsole self c w = (Exc (DynamipsError (conflict_msg c (r_name ro))), w).
Proof.
  intros Hr Hd Hc Hscan Hne Hro. unfold Router_setconsole.
  replace ((c <? 1)%Z || (65535 <? c)%Z) with false
    by (symmetry; apply orb_false_intro; [apply Z.ltb_ge | apply Z.ltb_ge]; lia).
  rewrite (bind_Ok _ _ _ _ _ (get_router_Some _ _ _ Hr)).
  rewrite (bind_Ok _ _ _ _ _ (checkconsole_Some _ c _ _ Hd)).
  rewrite Hscan.
  replace (other =? self)%nat with false by (symmetry; apply Nat.eqb_neq; exact Hne).
  cbn [negb].
  erewrite bind_Exc; [reflexivity|].
  rewrite (bind_Ok _ _ _ _ _ (get_router_Some _ _ _ Hro)). reflexivity.
Qed.

Lemma send_to_routers d command w : routers (snd (send_to d command w)) = routers w.
Proof.
  unfold send_to. destruct (dynamips w !! d) as [o|]; [|reflexivity].
  destruct (NOSEND w); [reflexivity|].
  destruct (send false (d_s o)) as [out s']. destruct out; reflexivity.
Qed.

(** The setter maintains the registry invariant, however it ends. *)
Lemma Router_setconsole_keeps_unique w self r d c :
  routers w !! self = Some r -> dynamips w !! r_d r = Some d ->
  consoles_unique w d ->
  consoles_unique (snd (Router_setconsole self c w)) d.
Proof.
  intros Hr Hd Hu.
  destruct (Z.ltb_spec c 1) as [Hlo|Hlo].
  { unfold Router_setconsole.
    replace (c <? 1)%Z with true by (symmetry; apply Z.ltb_lt; exact Hlo).
    exact Hu. }
  destruct (Z.ltb_spec 65535 c) as [Hhi|Hhi].
  { unfold Router_setconsole.
    replace (65535 <? c)%Z with true by (symmetry; apply Z.ltb_lt; exact Hhi).
    rewrite orb_true_r. exact Hu. }
  assert (Hrange : (1 <= c <= 65535)%Z) by lia.
  assert (Hpass :
    checkconsole_scan c (routers w) (d_devices d) = None \/
    checkconsole_scan c (routers w) (d_devices d) = Some self ->
    consoles_unique (snd (Router_setconsole self c w)) d).
  { intros Hscan.
    rewrite (Router_setconsole_pass w self r d c Hr Hd Hrange Hscan).
    assert (Hother : forall j rj, j ∈ d_devices d -> j <> self ->
              routers w !! j = Some rj -> r_console rj = Some c -> False).
    { intros j rj Hj Hne Hrj Hcj.
      destruct (checkconsole_scan_finds _ _ _ _ _ Hj Hrj Hcj) as [k Hk].
      destruct Hscan as [Hscan|Hscan]; rewrite Hscan in Hk; [discriminate|].
      injection Hk as <-.
      destruct (checkconsole_scan_Some _ _ _ _ Hscan) as (Hin & r' & Hr' & Hc').
      apply Hne. exact (Hu j self rj r' c Hj Hin Hrj Hr' Hcj Hc'). }
    intros i j ri rj c' Hi Hj Hri Hrj Hci Hcj.
    rewrite send_to_routers in Hri, Hrj. cbn [with_routers routers] in Hri, Hrj.
    rewrite lookup_insert in Hri, Hrj.
    destruct (decide (self = i)) as [<-|Hni]; destruct (decide (self = j)) as [<-|Hnj];
      cbn in Hri, Hrj.
    - reflexivity.
    - injection Hri as <-. cbn in Hci. injection Hci as <-.
      exfalso. apply (Hother j rj); auto.
    - injection Hrj as <-. cbn in Hcj. injection Hcj as <-.
      exfalso. apply (Hother i ri); auto.
    - exact (Hu i j ri rj c' Hi Hj Hri Hrj Hci Hcj). }
  destruct (checkconsole_scan c (routers w) (d_devices d)) as [other|] eqn:Hscan;
    [|apply Hpass; left; reflexivity].
  destruct (decide (other = self)) as [->|Hne]; [apply Hpass; right; reflexivity|].
  destruct (checkconsole_scan_Some _ _ _ _ Hscan) as (_ & ro & Hro & _).
  rewrite (Router_setconsole_conflict w self r d c other ro Hr Hd Hrange Hscan Hne Hro).
  exact Hu.
Qed.

End Console.

(** C5.  On a host instance whose registered routers hold pairwise
    different console ports: setting the console of a registered router to
    the port it already holds never raises the conflict error; setting it
    to a valid port (1..65535) held by a different registered device raises
    the conflict error naming that device and leaves the store, and with it
    the router's console attribute, unchanged. *)
Theorem console_assignment_checked :
  forall (w : world) (self : nat) (r : Router) (d : Dynamips),
    routers w !! self = Some r -> dynamips w !! r_d r = Some d ->
    consoles_unique w d ->
    (forall c, self ∈ d_devices d -> r_console r = Some c ->
       forall e, fst (Router_setconsole self c w) = Exc e -> ~ is_conflict_error e)
    /\ (forall c other ro,
          other ∈ d_devices d -> other <> self ->
          routers w !! other = Some ro -> r_console ro = Some c ->
          (1 <= c <= 65535)%Z ->
          Router_setconsole self c w
          = (Exc (DynamipsError (conflict_msg c (r_name ro))), w)
          /\ r_console <$> routers (snd (Router_setconsole self c w)) !! self
             = Some (r_console r)).
Proof.
  intros w self r d Hr Hd Hu. split.
  - intros c Hin Hc e He.
    destruct (Z.ltb_spec c 1) as [Hlo|Hlo].
    { unfold Router_setconsole in He.
      replace (c <? 1)%Z with true in He by (symmetry; apply Z.ltb_lt; exact Hlo).
      cbn in He. injection He as <-. apply invalid_port_no_conflict. }
    destruct (Z.ltb_spec 65535 c) as [Hhi|Hhi].
    { unfold Router_setconsole in He.
      replace (65535 <? c)%Z with true in He by (symmetry; apply Z.ltb_lt; exact Hhi).
      rewrite orb_true_r in He. cbn in He. injection He as <-.
      apply invalid_port_no_conflict. }
    rewrite (Router_setconsole_pass w self r d c Hr Hd) in He.
    + destruct (send_to _ _ _) as [res w'] eqn:Es. cbn [fst] in He. subst res.
      eapply send_to_no_conflict. exact Es.
    + lia.
    + right. eapply checkconsole_scan_holder; eassumption.
  - intros c other ro Hin Hne Hro Hc Hrange.
    assert (E : Router_setconsole self c w
                = (Exc (DynamipsError (conflict_msg c (r_name ro))), w)).
    { eapply Router_setconsole_conflict; try eassumption.
      eapply checkconsole_scan_holder; eassumption. }
    split; [exact E|]. rewrite E. cbn [snd]. rewrite Hr. reflexivity.
Qed.

Section ConsoleExamples.

Import Lab.

Lemma world0_consoles_unique : consoles_unique world0 hv0.
Proof.
  intros i j ri rj c Hi Hj Hri Hrj Hci Hcj.
  cbn [hv0 d_devices] in Hi, Hj.
  repeat (apply elem_of_cons in Hi; destruct Hi as [->|Hi]);
    [| | |apply elem_of_nil in Hi; contradiction];
  (repeat (apply elem_of_cons in Hj; destruct Hj as [->|Hj]);
    [| | |apply elem_of_nil in Hj; contradiction]);
  try reflexivity;
  vm_compute in Hri; vm_compute in Hrj; injection Hri as <-; injection Hrj as <-;
  cbn in Hci, Hcj; congruence.
Qed.

(** Router [r0] holds 2000 and [r1] holds 2001: [r0] may be given 2000
    again, and is refused 2001. *)
Lemma console_assignment_checked_witness :
  (forall e, fst (Router_setconsole 0 2000 world0) = Exc e -> ~ is_conflict_error e)
  /\ Router_setconsole 0 2001 world0
     = (Exc (DynamipsError (conflict_msg 2001 "r1")), world0).
Proof.
  destruct (console_assignment_checked world0 0 (mkRouter 0 "c7200" "r0" (Some 2000%Z)) hv0
              eq_refl eq_refl world0_consoles_unique) as [H1 H2].
  split.
  - apply (H1 2000%Z); [left | reflexivity].
  - apply (H2 2001%Z 1%nat (mkRouter 0 "c7200" "r1" (Some 2001%Z))).
    + right. left.
    + discriminate.
    + reflexivity.
    + reflexivity.
    + lia.
Defined.

End ConsoleExamples.

(** * Further properties of the module *)

(** ** What [send] hands back, on any socket *)

Section SendOutcomes.



Lemma send_body_Break_last data buf chunk d :
  send_body data buf chunk = Break d ->
  exists l, last d = Some l /\ String.eqb (slice4 l) "100-" = true.
Proof.
  unfold send_body. destruct (last_char (buf +:+ chunk)); [|discriminate].
  destruct (negb _); [discriminate|].
  destruct (last (data ++ _)) as [l|]; [|discriminate].
  destruct (last (if String.eqb l "" then _ else _)) as [l'|] eqn:E; [|discriminate].
  destruct (String.eqb (slice4 l') "100-") eqn:E100.
  - intros [= <-]. eauto.
  - destruct (error_re l'); discriminate.
Qed.


Lemma send_loop_leftover events tail : forall data buf out rest,
  send_loop events tail data buf = (out, rest) ->
  exists used, events = used ++ rest.
Proof.
  induction events as [|[chunk|] events IH]; intros data buf out rest; cbn [send_loop].
  - destruct tail; intros [= _ <-]; exists []; reflexivity.
  - destruct (send_body data buf chunk) as [d b|d|e].
    + intros H. destruct (IH _ _ _ _ H) as [used ->]. exists (Chunk chunk :: used). reflexivity.
    + intros [= _ <-]. exists [Chunk chunk]. reflexivity.
    + intros [= _ <-]. exists [Chunk chunk]. reflexivity.
  - intros [= _ <-]. exists [TimedOut]. reflexivity.
Qed.

Lemma send_loop_Returns events tail : forall data buf d rest,
  send_loop events tail data buf = (Returns d, rest) ->
  exists l, last d = Some l /\ String.eqb (slice4 l) "100-" = true.
Proof.
  assert (Hafter : forall d0 d, after_loop d0 = Returns d ->
            (exists l, last d0 = Some l /\ String.eqb (slice4 l) "100-" = true) ->
            exists l, last d = Some l /\ String.eqb (slice4 l) "100-" = true).
  { intros d0 d. unfold after_loop. destruct (length d0 =? 0)%nat; [discriminate|].
    intros [= <-]. trivial. }
  induction events as [|[chunk|] events IH]; intros data buf d rest; cbn [send_loop].
  - destruct tail; [discriminate|]. unfold closed_loop.
    destruct (send_body data buf "") as [d1 b1|d1|e1] eqn:E1.
    + destruct (send_body d1 b1 "") as [d2 b2|d2|e2] eqn:E2; try discriminate.
      intros [= H _]. eapply Hafter; [exact H | eapply send_body_Break_last; exact E2].
    + intros [= H _]. eapply Hafter; [exact H | eapply send_body_Break_last; exact E1].
    + discriminate.
  - destruct (send_body data buf chunk) as [d1 b1|d1|e1] eqn:E1.
    + apply IH.
    + intros [= H _]. eapply Hafter; [exact H | eapply send_body_Break_last; exact E1].
    + discriminate.
  - discriminate.
Qed.


End SendOutcomes.

(** X1.  Whatever the socket delivers, a reply that [send] returns is not
    empty, its last line begins with [100-], and the events [send] did not
    read are still in the socket, in order. *)
Theorem send_returned_reply_terminated :
  forall (s s' : socket) (data : list string),
    send false s = (Returns data, s') ->
    (exists l, last data = Some l /\ String.eqb (slice4 l) "100-" = true)
    /\ (exists used, incoming s = used ++ incoming s')
    /\ at_end s' = at_end s.
Proof.
  intros s s' data. unfold send.
  destruct (send_loop (incoming s) (at_end s) [] "") as [out rest] eqn:E.
  intros [= -> <-]. cbn [incoming at_end]. split; [|split; [|reflexivity]].
  - eapply send_loop_Returns. exact E.
  - eapply send_loop_leftover. exact E.
Qed.

Lemma send_returned_reply_terminated_witness :
  (exists l, last ["101 a"; "100-OK"] = Some l /\ String.eqb (slice4 l) "100-" = true)
  /\ (exists used,
        incoming (Socket [Chunk ("101 a" +:+ CRLF +:+ "100-OK" +:+ CRLF); TimedOut] PeerClosed)
        = used ++ incoming (Socket [TimedOut] PeerClosed))
  /\ at_end (Socket [TimedOut] PeerClosed)
     = at_end (Socket [Chunk ("101 a" +:+ CRLF +:+ "100-OK" +:+ CRLF); TimedOut] PeerClosed).
Proof.
  apply (send_returned_reply_terminated
           (Socket [Chunk ("101 a" +:+ CRLF +:+ "100-OK" +:+ CRLF); TimedOut] PeerClosed)
           (Socket [TimedOut] PeerClosed) ["101 a"; "100-OK"]).
  reflexivity.
Defined.





(** ** More frame rules *)

Section MoreFrames.

#[local] Instance dry_run_quiet_preorder : PreOrder dry_run_quiet.
Proof.
  split.
  - intros w H. split; [exact H | intros x; split; reflexivity].
  - intros w1 w2 w3 H12 H23 H1. destruct (H12 H1) as [H2 Hx2].
    destruct (H23 H2) as [H3 Hx3]. split; [exact H3|].
    intros x. destruct (Hx2 x), (Hx3 x). split; congruence.
Qed.

#[local] Instance names_fresh_kept_preorder : PreOrder names_fresh_kept.
Proof.
  split.
  - intros w H. exact H.
  - intros w1 w2 w3 H12 H23 H. exact (H23 (H12 H)).
Qed.

#[local] Instance same_endpoints_preorder : PreOrder same_endpoints.
Proof.
  split.
  - intros w. reflexivity.
  - intros w1 w2 w3 H12 H23. unfold same_endpoints in *. congruence.
Qed.

Lemma send_to_dry_run d command : keeps dry_run_quiet (send_to d command).
Proof.
  intros w Hn. unfold send_to. destruct (dynamips w !! d) as [o|]; cbn [snd].
  - rewrite Hn. cbn [snd]. split; [exact Hn | intros x; split; reflexivity].
  - split; [exact Hn | intros x; split; reflexivity].
Qed.

Lemma set_udp_dry_run d v : keeps dry_run_quiet (set_udp d v).
Proof.
  intros w Hn. unfold set_udp. destruct (dynamips w !! d) as [o|] eqn:Hd; cbn [snd].
  - split; [exact Hn|]. intros x. unfold sock_of, sent_of, with_dynamips.
    cbn [dynamips]. rewrite lookup_insert. destruct (decide (d = x)) as [<-|].
    + rewrite Hd. split; reflexivity.
    + split; reflexivity.
  - split; [exact Hn | intros x; split; reflexivity].
Qed.

Lemma put_endpoint_dry_run a e : keeps dry_run_quiet (put_endpoint a e).
Proof. intros w Hn. split; [exact Hn | intros x; split; reflexivity]. Qed.

Lemma new_NIO_udp_dry_run d ul rh ur : keeps dry_run_quiet (new_NIO_udp d ul rh ur).
Proof.
  intros w Hn. unfold new_NIO_udp. cbv zeta.
  pose proof (send_to_dry_run d
    ("nio create_udp " +:+ ("nio_udp" +:+ str_of_Z (NIO_udp_instance w)) +:+ " " +:+
     str_of_Z ul +:+ " " +:+ rh +:+ " " +:+ str_of_Z ur)
    (mkWorld (NOSEND w) (NIO_udp_instance w + 1) (dynamips w) (routers w)
       (endpoints w) (nio_objects w)) Hn) as H.
  destruct (send_to d _ _) as [[[]| e | |] w2]; cbn [snd] in *; exact H.
Qed.

Lemma send_to_same_endpoints d command : keeps same_endpoints (send_to d command).
Proof.
  intros w. unfold send_to. destruct (dynamips w !! d) as [o|]; [|reflexivity].
  destruct (NOSEND w); [reflexivity|].
  destruct (send false (d_s o)) as [out s']. destruct out; reflexivity.
Qed.

Lemma set_udp_same_endpoints d v : keeps same_endpoints (set_udp d v).
Proof. intros w. unfold set_udp. destruct (dynamips w !! d); reflexivity. Qed.

Lemma set_udp_same_objects d v : keeps same_objects (set_udp d v).
Proof. intros w. unfold set_udp. destruct (dynamips w !! d); reflexivity. Qed.

Lemma send_to_names d command : keeps names_fresh_kept (send_to d command).
Proof.
  intros w H. unfold send_to. destruct (dynamips w !! d) as [o|]; [|exact H].
  destruct (NOSEND w); [exact H|].
  destruct (send false (d_s o)) as [out s']. destruct out; exact H.
Qed.

Lemma set_udp_names d v : keeps names_fresh_kept (set_udp d v).
Proof. intros w H. unfold set_udp. destruct (dynamips w !! d); exact H. Qed.

Lemma put_endpoint_names a e : keeps names_fresh_kept (put_endpoint a e).
Proof. intros w H. exact H. Qed.

End MoreFrames.

#[local] Existing Instances dry_run_quiet_preorder names_fresh_kept_preorder
  same_endpoints_preorder.

#[local] Hint Resolve send_to_dry_run set_udp_dry_run put_endpoint_dry_run
  new_NIO_udp_dry_run send_to_same_endpoints set_udp_same_endpoints
  set_udp_same_objects send_to_names set_udp_names put_endpoint_names : frame.

Section Composites.

Context {R : world -> world -> Prop} `{!PreOrder R}.
Hypothesis Hsend : forall d command, keeps R (send_to d command).
Hypothesis Hudp : forall d v, keeps R (set_udp d v).
Hypothesis Hput : forall a e, keeps R (put_endpoint a e).
Hypothesis Hnew : forall d ul rh ur, keeps R (new_NIO_udp d ul rh ur).

(** Whatever [send_to], [set_udp], [put_endpoint] and [new_NIO_udp] keep,
    [gen_connect] keeps. *)
Lemma gen_connect_keeps sd sa sp dd da dp : keeps R (gen_connect sd sa sp dd da dp).
Proof.
  unfold gen_connect, alloc_udp, nio_port, nio_bridge.
  repeat first
    [ apply Hsend | apply Hudp | apply Hput | apply Hnew
    | solve [auto with frame typeclass_instances]
    | apply keeps_bind; [| intros ?]
    | match goal with
      | |- keeps _ (match ?e with _ => _ end) => destruct e
      | |- context [if ?b then _ else _] => destruct b
      end ].
Qed.

End Composites.

Section DryRun.

Lemma gen_connect_dry_run sd sa sp dd da dp :
  keeps dry_run_quiet (gen_connect sd sa sp dd da dp).
Proof. apply gen_connect_keeps; auto with frame. Qed.

Lemma Router_setconsole_dry_run self console :
  keeps dry_run_quiet (Router_setconsole self console).
Proof.
  unfold Router_setconsole, checkconsole, store_console.
  destruct ((console <? 1)%Z || (65535 <? console)%Z); [auto with frame typeclass_instances|].
  repeat first
    [ apply send_to_dry_run
    | solve [auto with frame typeclass_instances]
    | apply keeps_bind; [| intros ?]
    | match goal with
      | |- keeps _ (match ?e with _ => _ end) => destruct e
      | |- context [if ?b then _ else _] => destruct b
      end
    | intros w Hn; split; [exact Hn | intros x; split; reflexivity] ].
Qed.

End DryRun.

(** X4.  With the module switch [NOSEND] set, neither [gen_connect] nor the
    console setter reads from any socket or hands any command to one,
    whatever their arguments and however they end; the switch stays set. *)
Theorem dry_run_no_traffic :
  forall (w : world),
    NOSEND w = true ->
    (forall sd sa sp dd da dp x,
        let w' := snd (gen_connect sd sa sp dd da dp w) in
        NOSEND w' = true /\ sock_of w' x = sock_of w x /\ sent_of w' x = sent_of w x)
    /\ (forall self console x,
          let w' := snd (Router_setconsole self console w) in
          NOSEND w' = true /\ sock_of w' x = sock_of w x /\ sent_of w' x = sent_of w x).
Proof.
  intros w Hn. split.
  - intros sd sa sp dd da dp x w'.
    destruct (gen_connect_dry_run sd sa sp dd da dp w Hn) as [H Hx].
    split; [exact H | apply Hx].
  - intros self console x w'.
    destruct (Router_setconsole_dry_run self console w Hn) as [H Hx].
    split; [exact H | apply Hx].
Qed.

Section Names.

Lemma str_of_Z_inj a b : str_of_Z a = str_of_Z b -> a = b.
Proof.
  unfold str_of_Z. intros H.
  apply DecimalZ.to_int_inj.
  pose proof (NilEmpty.isi (Z.to_int a)) as Ha.
  pose proof (NilEmpty.isi (Z.to_int b)) as Hb.
  rewrite H in Ha. rewrite Ha in Hb. injection Hb as Hb. exact Hb.
Qed.

Lemma default_name_inj a b : default_name a = default_name b -> a = b.
Proof.
  unfold default_name. intros H. apply append_inv_head in H. apply str_of_Z_inj, H.
Qed.

Lemma names_fresh_NoDup w : names_fresh w -> NoDup (map nio_name (nio_objects w)).
Proof.
  intros (numbers & E & Hnd & _). rewrite E.
  apply NoDup_fmap_2; [|exact Hnd].
  intros a b. apply default_name_inj.
Qed.

Lemma new_NIO_udp_names d ul rh ur : keeps names_fresh_kept (new_NIO_udp d ul rh ur).
Proof.
  intros w (numbers & E & Hnd & Hlt). unfold new_NIO_udp. cbv zeta.
  set (w1 := mkWorld (NOSEND w) (NIO_udp_instance w + 1) (dynamips w) (routers w)
               (endpoints w) (nio_objects w)).
  set (cmd := "nio create_udp " +:+ _).
  assert (Hcnt : NIO_udp_instance (snd (send_to d cmd w1)) = (NIO_udp_instance w + 1)%Z
                 /\ nio_objects (snd (send_to d cmd w1)) = nio_objects w).
  { unfold send_to. destruct (dynamips w1 !! d) as [o|]; [|split; reflexivity].
    destruct (NOSEND w1); [split; reflexivity|].
    destruct (send false (d_s o)) as [out s']. destruct out; split; reflexivity. }
  destruct Hcnt as [Hcnt Hobj].
  assert (Hlt' : Forall (fun i => (i < NIO_udp_instance w + 1)%Z) numbers).
  { eapply Forall_impl; [exact Hlt|]. cbn. intros i Hi. lia. }
  destruct (send_to d cmd w1) as [[[]| e | |] w2]; cbn [snd] in *;
    try (exists numbers; rewrite Hobj, Hcnt; split; [exact E | split; assumption]).
  exists (numbers ++ [NIO_udp_instance w]). cbn [nio_objects NIO_udp_instance].
  rewrite Hobj, Hcnt, !map_app, E. cbn [map nio_name].
  split; [reflexivity|]. split.
  - apply NoDup_app. split; [exact Hnd|]. split; [|apply NoDup_singleton].
    intros i Hi Hi'. apply list_elem_of_singleton in Hi'. subst i.
    rewrite Forall_forall in Hlt. specialize (Hlt _ Hi). lia.
  - apply Forall_app. split; [exact Hlt'|]. apply Forall_singleton. lia.
Qed.

Lemma gen_connect_names sd sa sp dd da dp :
  keeps names_fresh_kept (gen_connect sd sa sp dd da dp).
Proof. apply gen_connect_keeps; auto using new_NIO_udp_names with frame. Qed.

Lemma connect_run_names w w' : connect_run w w' -> names_fresh w -> names_fresh w'.
Proof.
  induction 1 as [w | w w1 w2 sd sa sp dd da dp E _ IH]; [trivial|].
  intros H. apply IH. rewrite <- E. apply gen_connect_names. exact H.
Qed.

End Names.

(** X5.  The names [gen_connect] gives its NIOs never collide: starting
    from a store whose [NIO_udp] objects carry default names of distinct
    instance numbers below the class counter (for one, a store without
    NIOs), after any run of [gen_connect] calls, successful or not, all
    [NIO_udp] objects have pairwise different names. *)
Theorem nio_names_distinct :
  forall (w w' : world),
    names_fresh w -> connect_run w w' ->
    NoDup (map nio_name (nio_objects w')) /\ names_fresh w'.
Proof.
  intros w w' H Hrun. pose proof (connect_run_names _ _ Hrun H) as H'.
  split; [apply names_fresh_NoDup|]; exact H'.
Qed.

Lemma dry_run_no_traffic_witness :
  sock_of (snd (gen_connect 0 0 (Some 0%Z) 0 1 (Some 0%Z) DryLab.world1)) 0
  = Some (Lab.acks 4)
  /\ sent_of (snd (gen_connect 0 0 (Some 0%Z) 0 1 (Some 0%Z) DryLab.world1)) 0 = Some [].
Proof.
  destruct (dry_run_no_traffic DryLab.world1 eq_refl) as [H _].
  destruct (H 0%nat 0%nat (Some 0%Z) 0%nat 1%nat (Some 0%Z) 0%nat) as (_ & Hs & Ht).
  split; [exact Hs | exact Ht].
Defined.

Lemma nio_names_distinct_witness :
  NoDup (map nio_name
           (nio_objects (snd (gen_connect 0 0 (Some 0%Z) 0 1 (Some 0%Z) Lab.world0)))).
Proof.
  refine (proj1 (nio_names_distinct Lab.world0 _ _ _)).
  - exists []. split; [reflexivity|]. split; [apply NoDup_nil_2 | apply Forall_nil_2].
  - eapply run_step; [reflexivity | apply run_nil].
Defined.

(** ** What a call changes, by its outcome *)

Section Outcomes.

Lemma bind_cases {A B} (m : M A) (k : A -> M B) w r w' :
  bind m k w = (r, w') ->
  (exists a w1, m w = (Ok a, w1) /\ k a w1 = (r, w'))
  \/ (succeeds r = false /\ succeeds (fst (m w)) = false /\ snd (m w) = w').
Proof.
  unfold bind. destruct (m w) as [[a|e| |] w1]; intros H.
  - left. eauto.
  - right. injection H as <- <-. auto.
  - right. injection H as <- <-. auto.
  - right. injection H as <- <-. auto.
Qed.

Lemma send_to_frame d command w :
  endpoints (snd (send_to d command w)) = endpoints w
  /\ nio_objects (snd (send_to d command w)) = nio_objects w
  /\ routers (snd (send_to d command w)) = routers w
  /\ NIO_udp_instance (snd (send_to d command w)) = NIO_udp_instance w.
Proof.
  unfold send_to. destruct (dynamips w !! d) as [o|]; [|auto].
  destruct (NOSEND w); [auto|].
  destruct (send false (d_s o)) as [out s']. destruct out; auto.
Qed.

(** What [NIO_udp(...)] leaves behind: the object only when the
    constructor returned. *)
Lemma new_NIO_udp_result d ul rh ur w r w' :
  new_NIO_udp d ul rh ur w = (r, w') ->
  endpoints w' = endpoints w /\ routers w' = routers w
  /\ match r with
     | Ok n => nio_objects w' = nio_objects w ++ [n]
     | _ => nio_objects w' = nio_objects w
     end.
Proof.
  unfold new_NIO_udp. cbv zeta.
  set (w1 := mkWorld (NOSEND w) (NIO_udp_instance w + 1) (dynamips w) (routers w)
               (endpoints w) (nio_objects w)).
  set (cmd := "nio create_udp " +:+ _).
  destruct (send_to_frame d cmd w1) as (He & Ho & Hr & _).
  destruct (send_to d cmd w1) as [[[]| e | |] w2]; cbn [snd] in *;
    intros [= <- <-]; cbn [endpoints routers nio_objects];
    rewrite ?He, ?Ho, ?Hr; auto.
Qed.

(** Binding on an adapter or switch: on success the port reads back as
    the NIO, ports bound before stay bound, and only that object changed;
    on failure no object changed. *)
Lemma nio_port_result a p n w r w' :
  nio_port a p n w = (r, w') ->
  nio_objects w' = nio_objects w /\ routers w' = routers w
  /\ match r with
     | Ok _ =>
         exists e e',
           endpoints w !! a = Some e /\ endpoints w' = <[a := e']> (endpoints w)
           /\ nio_read e' p = Ok (Some n)
           /\ (forall q, is_bound e q -> is_bound e' q)
           /\ isinstance_Bridge e = false /\ isinstance_Bridge e' = false
           /\ accepts_port e p
           /\ (forall q, accepts_port e' q <-> accepts_port e q)
     | _ => endpoints w' = endpoints w
     end.
Proof.
  unfold nio_port. intros H. apply bind_cases in H.
  destruct H as [(e & w1 & Hg & H) | (Hr & Hf & <-)].
  2:{ unfold get_endpoint in *. destruct (endpoints w !! a); [discriminate|].
      cbn [snd]. destruct r; try discriminate; auto. }
  unfold get_endpoint in Hg. destruct (endpoints w !! a) as [e0|] eqn:Ea; [|discriminate].
  injection Hg as <- <-.
  destruct e0 as [rd model name slot adapter ports nios | d name nios | d name nios
                 | d name nios | d name nios | ].
  - destruct (port_out_of_range p ports) eqn:Hrange.
    { injection H as <- <-. auto. }
    destruct p as [p|]; [|discriminate]. change (default 0%Z (Some p)) with p in H.
    apply bind_cases in H. destruct H as [([] & w2 & Hs & H) | (Hr & Hf & <-)].
    2:{ destruct (send_to_frame rd
          (model +:+ " add_nio_binding " +:+ name +:+ " " +:+ str_of_Z slot +:+ " "
             +:+ str_of_Z p +:+ " " +:+ nio_name n) w) as (He & Ho & Hro & _).
        destruct r; try discriminate; auto. }
    pose proof (send_to_frame rd
          (model +:+ " add_nio_binding " +:+ name +:+ " " +:+ str_of_Z slot +:+ " "
             +:+ str_of_Z p +:+ " " +:+ nio_name n) w) as (He & Ho & Hro & _).
    rewrite Hs in He, Ho, Hro. cbn [snd] in He, Ho, Hro.
    destruct (Nat.ltb_spec (Z.to_nat p) (length nios)) as [Hlt|Hge].
    + injection H as <- <-. cbn [with_endpoints nio_objects routers endpoints].
      split; [exact Ho|]. split; [exact Hro|].
      eexists _, _. split; [reflexivity|]. split; [rewrite He; reflexivity|].
      split.
      { cbn [nio_read]. rewrite Hrange. change (default 0%Z (Some p)) with p.
        rewrite list_lookup_insert_eq by exact Hlt. reflexivity. }
      split; [|cbn [isinstance_Bridge accepts_port]; repeat split; auto].
      intros q [m Hm]. unfold is_bound. cbn [nio_read] in *.
      destruct (port_out_of_range q ports); [discriminate|].
      destruct (decide (Z.to_nat p = Z.to_nat (default 0%Z q))) as [Eq|Nq].
      * rewrite <- Eq, list_lookup_insert_eq by exact Hlt. eexists. reflexivity.
      * rewrite list_lookup_insert_ne by exact Nq. exists m. exact Hm.
    + injection H as <- <-. auto.
  - injection H as <- <-. auto.
  - injection H as <- <-. cbn [with_endpoints nio_objects routers endpoints].
    split; [reflexivity|]. split; [reflexivity|].
    eexists _, _. split; [reflexivity|]. split; [reflexivity|].
    split; [cbn [nio_read]; rewrite lookup_insert_eq; reflexivity|].
    split; [|cbn [isinstance_Bridge accepts_port]; repeat split; auto].
    intros q [m Hm]. unfold is_bound. cbn [nio_read] in *.
    destruct (decide (p = q)) as [<-|Nq].
    + rewrite lookup_insert_eq. eexists. reflexivity.
    + rewrite lookup_insert_ne by exact Nq. exists m. exact Hm.
  - injection H as <- <-. cbn [with_endpoints nio_objects routers endpoints].
    split; [reflexivity|]. split; [reflexivity|].
    eexists _, _. split; [reflexivity|]. split; [reflexivity|].
    split; [cbn [nio_read]; rewrite lookup_insert_eq; reflexivity|].
    split; [|cbn [isinstance_Bridge accepts_port]; repeat split; auto].
    intros q [m Hm]. unfold is_bound. cbn [nio_read] in *.
    destruct (decide (p = q)) as [<-|Nq].
    + rewrite lookup_insert_eq. eexists. reflexivity.
    + rewrite lookup_insert_ne by exact Nq. exists m. exact Hm.
  - apply bind_cases in H. destruct H as [([] & w2 & Hs & H) | (Hr & Hf & <-)].
    2:{ destruct (send_to_frame d ("ethsw add_nio " +:+ name +:+ " " +:+ nio_name n) w)
          as (He & Ho & Hro & _).
        destruct r; try discriminate; auto. }
    pose proof (send_to_frame d ("ethsw add_nio " +:+ name +:+ " " +:+ nio_name n) w)
      as (He & Ho & Hro & _).
    rewrite Hs in He, Ho, Hro. cbn [snd] in He, Ho, Hro.
    injection H as <- <-. cbn [with_endpoints nio_objects routers endpoints].
    split; [exact Ho|]. split; [exact Hro|].
    eexists _, _. split; [reflexivity|]. split; [rewrite He; reflexivity|].
    split; [cbn [nio_read]; rewrite lookup_insert_eq; reflexivity|].
    split; [|cbn [isinstance_Bridge accepts_port]; repeat split; auto].
    intros q [m Hm]. unfold is_bound. cbn [nio_read] in *.
    destruct (decide (p = q)) as [<-|Nq].
    + rewrite lookup_insert_eq. eexists. reflexivity.
    + rewrite lookup_insert_ne by exact Nq. exists m. exact Hm.
  - injection H as <- <-. auto.
Qed.

(** Binding on a bridge. *)
Lemma nio_bridge_result a n w r w' :
  nio_bridge a n w = (r, w') ->
  nio_objects w' = nio_objects w /\ routers w' = routers w
  /\ match r with
     | Ok _ =>
         exists d name nios,
           endpoints w !! a = Some (Bridge d name nios)
           /\ endpoints w' = <[a := Bridge d name (nios ++ [n])]> (endpoints w)
     | _ => endpoints w' = endpoints w
     end.
Proof.
  unfold nio_bridge. intros H. apply bind_cases in H.
  destruct H as [(e & w1 & Hg & H) | (Hr & Hf & <-)].
  2:{ unfold get_endpoint in *. destruct (endpoints w !! a); [discriminate|].
      cbn [snd]. destruct r; try discriminate; auto. }
  unfold get_endpoint in Hg. destruct (endpoints w !! a) as [e0|] eqn:Ea; [|discriminate].
  injection Hg as <- <-.
  destruct e0 as [rd model name slot adapter ports nios | d name nios | d name nios
                 | d name nios | d name nios | ];
    try (injection H as <- <-; auto).
  apply bind_cases in H. destruct H as [([] & w2 & Hs & H) | (Hr & Hf & <-)].
  2:{ destruct (send_to_frame d ("nio_bridge add_nio " +:+ name +:+ " " +:+ nio_name n) w)
        as (He & Ho & Hro & _).
      destruct r; try discriminate; auto. }
  pose proof (send_to_frame d ("nio_bridge add_nio " +:+ name +:+ " " +:+ nio_name n) w)
    as (He & Ho & Hro & _).
  rewrite Hs in He, Ho, Hro. cbn [snd] in He, Ho, Hro.
  injection H as <- <-. cbn [with_endpoints nio_objects routers endpoints].
  split; [exact Ho|]. split; [exact Hro|].
  eexists _, _, _. split; [reflexivity|]. rewrite He. reflexivity.
Qed.

End Outcomes.

Section LinkOutcomes.

Lemma allocated_frame w sd dd src dst :
  endpoints (allocated w sd dd src dst) = endpoints w
  /\ nio_objects (allocated w sd dd src dst) = nio_objects w
  /\ routers (allocated w sd dd src dst) = routers w.
Proof. auto. Qed.

(** A call either stops before it changed anything, or reaches the
    creation of the NIOs with both ports allocated. *)
Lemma gen_connect_start w sd sa sp dd da dp r w' :
  gen_connect sd sa sp dd da dp w = (r, w') ->
  (succeeds r = false /\ w' = w)
  \/ exists src dst e1 e2 src_ip dst_ip dst_udp,
       endpoints w !! sa = Some e1 /\ endpoints w !! da = Some e2
       /\ validate_connect (adapter_of e1) (adapter_of e2) = Ok tt
       /\ dynamips w !! sd = Some src /\ dynamips w !! dd = Some dst
       /\ gen_connect_tail sd sa sp dd da dp src_ip dst_ip (d_udp src) dst_udp
            (allocated w sd dd src dst) = (r, w').
Proof.
  intros H.
  destruct (endpoints w !! sa) as [e1|] eqn:H1.
  2:{ left. unfold gen_connect, bind at 1, get_endpoint at 1 in H. rewrite H1 in H.
      injection H as <- <-. auto. }
  destruct (endpoints w !! da) as [e2|] eqn:H2.
  2:{ left. unfold gen_connect in H.
      rewrite (bind_Ok _ _ _ _ _ (get_endpoint_Some _ _ _ H1)) in H.
      unfold bind at 1, get_endpoint at 1 in H. rewrite H2 in H.
      injection H as <- <-. auto. }
  destruct (validate_connect (adapter_of e1) (adapter_of e2)) as [[]|e| |] eqn:Hv.
  2,3,4: left; unfold gen_connect in H;
    rewrite (bind_Ok _ _ _ _ _ (get_endpoint_Some _ _ _ H1)) in H;
    rewrite (bind_Ok _ _ _ _ _ (get_endpoint_Some _ _ _ H2)) in H;
    rewrite Hv in H; injection H as <- <-; auto.
  destruct (dynamips w !! sd) as [src|] eqn:Hs.
  2:{ left. unfold gen_connect in H.
      rewrite (bind_Ok _ _ _ _ _ (get_endpoint_Some _ _ _ H1)) in H.
      rewrite (bind_Ok _ _ _ _ _ (get_endpoint_Some _ _ _ H2)) in H.
      rewrite Hv in H. rewrite (bind_Ok (lift (Ok tt)) _ w tt w eq_refl) in H.
      unfold bind at 1, get_dynamips at 1 in H. rewrite Hs in H.
      injection H as <- <-. auto. }
  destruct (dynamips w !! dd) as [dst|] eqn:Hd.
  2:{ left. unfold gen_connect in H.
      rewrite (bind_Ok _ _ _ _ _ (get_endpoint_Some _ _ _ H1)) in H.
      rewrite (bind_Ok _ _ _ _ _ (get_endpoint_Some _ _ _ H2)) in H.
      rewrite Hv in H. rewrite (bind_Ok (lift (Ok tt)) _ w tt w eq_refl) in H.
      rewrite (bind_Ok _ _ _ _ _ (get_dynamips_Some _ _ _ Hs)) in H.
      unfold bind at 1, get_dynamips at 1 in H. rewrite Hd in H.
      injection H as <- <-. auto. }
  right. rewrite (gen_connect_valid w sd sa sp dd da dp src dst e1 e2 H1 H2 Hv Hs Hd) in H.
  eexists src, dst, e1, e2, _, _, _. repeat (split; [eassumption || reflexivity|]).
  exact H.
Qed.

(** A failing tail: fewer than two NIOs and no binding, or both NIOs and at
    most the source bound. *)
Lemma gen_connect_tail_failed sd sa sp dd da dp src_ip dst_ip src_udp dst_udp w r w' :
  gen_connect_tail sd sa sp dd da dp src_ip dst_ip src_udp dst_udp w = (r, w') ->
  succeeds r = false ->
  exists created,
    nio_objects w' = nio_objects w ++ created
    /\ (length created <= 2)%nat
    /\ ((length created < 2)%nat -> endpoints w' = endpoints w)
    /\ (forall a, a <> sa -> endpoints w' !! a = endpoints w !! a)
    /\ routers w' = routers w.
Proof.
  unfold gen_connect_tail. intros H Hr.
  apply bind_cases in H. destruct H as [(n1 & w1 & E1 & H) | (_ & Hf & <-)].
  2:{ destruct (new_NIO_udp sd src_udp dst_ip dst_udp w) as [r1 w1] eqn:E1.
      destruct (new_NIO_udp_result _ _ _ _ _ _ _ E1) as (He & Hro & Ho).
      cbn [fst snd] in *. exists []. rewrite app_nil_r.
      destruct r1; try discriminate; cbn [length]; rewrite He;
        (split; [exact Ho|]); (split; [lia|]); auto. }
  destruct (new_NIO_udp_result _ _ _ _ _ _ _ E1) as (He1 & Hro1 & Ho1).
  apply bind_cases in H. destruct H as [(n2 & w2 & E2 & H) | (_ & Hf & <-)].
  2:{ destruct (new_NIO_udp dd dst_udp src_ip src_udp w1) as [r2 w2] eqn:E2.
      destruct (new_NIO_udp_result _ _ _ _ _ _ _ E2) as (He & Hro & Ho).
      cbn [fst snd] in *. exists [n1].
      destruct r2; try discriminate; cbn [length]; rewrite He, He1, Ho, Ho1;
        (split; [reflexivity|]); (split; [lia|]); (split; [reflexivity|]);
        (split; [reflexivity | congruence]). }
  destruct (new_NIO_udp_result _ _ _ _ _ _ _ E2) as (He2 & Hro2 & Ho2).
  assert (Hobj : nio_objects w2 = nio_objects w ++ [n1; n2]).
  { rewrite Ho2, Ho1, <- app_assoc. reflexivity. }
  exists [n1; n2]. cbn [length].
  apply bind_cases in H. destruct H as [([] & w3 & E3 & H) | (_ & Hf & <-)].
  2:{ destruct (nio_port sa sp n1 w2) as [r3 w3] eqn:E3.
      destruct (nio_port_result _ _ _ _ _ _ E3) as (Ho & Hro & He).
      cbn [fst snd] in *.
      destruct r3; try discriminate; rewrite Ho, He, He2, He1, Hro, Hro2, Hro1, Hobj;
        (split; [reflexivity|]); (split; [lia|]); (split; [reflexivity|]);
        (split; [reflexivity | reflexivity]). }
  destruct (nio_port_result _ _ _ _ _ _ E3) as (Ho3 & Hro3 & e & e' & Ee & He3 & _).
  assert (Hrest : endpoints w' = endpoints w3 /\ nio_objects w' = nio_objects w3
                  /\ routers w' = routers w3).
  { apply bind_cases in H. destruct H as [(e5 & w4 & E4 & H) | (_ & Hf & <-)].
    - unfold get_endpoint in E4. destruct (endpoints w3 !! da); [|discriminate].
      injection E4 as <- <-.
      destruct (isinstance_Bridge e0).
      + destruct (nio_bridge_result _ _ _ _ _ H) as (Ho & Hro & He).
        destruct r; try discriminate; auto.
      + destruct (nio_port_result _ _ _ _ _ _ H) as (Ho & Hro & He).
        destruct r; try discriminate; auto.
    - unfold get_endpoint. destruct (endpoints w3 !! da); auto. }
  destruct Hrest as (He & Ho & Hro).
  rewrite Ho, Ho3, Hobj, He, He3, He2, He1, Hro, Hro3, Hro2, Hro1.
  split; [reflexivity|]. split; [lia|]. split; [lia|]. split; [|reflexivity].
  intros a Ha. rewrite lookup_insert_ne by congruence. reflexivity.
Qed.

(** A successful tail: both NIOs, the source port bound to the first, the
    destination port (or the bridge) to the second. *)
Lemma gen_connect_tail_bound sd sa sp dd da dp src_ip dst_ip src_udp dst_udp w w' :
  gen_connect_tail sd sa sp dd da dp src_ip dst_ip src_udp dst_udp w = (Ok tt, w') ->
  exists n1 n2 e e',
    nio_objects w' = nio_objects w ++ [n1; n2]
    /\ endpoints w !! sa = Some e
    /\ nio_read e' sp = Ok (Some n1)
    /\ isinstance_Bridge e = false /\ isinstance_Bridge e' = false
    /\ accepts_port e sp
    /\ (forall q, accepts_port e' q <-> accepts_port e q)
    /\ ((exists e5 e5',
            <[sa := e']> (endpoints w) !! da = Some e5
            /\ isinstance_Bridge e5 = false /\ isinstance_Bridge e5' = false
            /\ endpoints w' = <[da := e5']> (<[sa := e']> (endpoints w))
            /\ nio_read e5' dp = Ok (Some n2)
            /\ (forall q, is_bound e5 q -> is_bound e5' q)
            /\ accepts_port e5 dp)
        \/ (exists d name nios,
               <[sa := e']> (endpoints w) !! da = Some (Bridge d name nios)
               /\ endpoints w' = <[da := Bridge d name (nios ++ [n2])]>
                                   (<[sa := e']> (endpoints w)))).
Proof.
  unfold gen_connect_tail. intros H.
  apply bind_cases in H. destruct H as [(n1 & w1 & E1 & H) | (Hf & _)]; [|discriminate].
  destruct (new_NIO_udp_result _ _ _ _ _ _ _ E1) as (He1 & Hro1 & Ho1).
  apply bind_cases in H. destruct H as [(n2 & w2 & E2 & H) | (Hf & _)]; [|discriminate].
  destruct (new_NIO_udp_result _ _ _ _ _ _ _ E2) as (He2 & Hro2 & Ho2).
  apply bind_cases in H. destruct H as [([] & w3 & E3 & H) | (Hf & _)]; [|discriminate].
  destruct (nio_port_result _ _ _ _ _ _ E3)
    as (Ho3 & Hro3 & e & e' & Ee & He3 & Hread & _ & Hb & Hb' & Hrange & Hsame).
  rewrite He2, He1 in Ee, He3.
  apply bind_cases in H. destruct H as [(e5 & w4 & E4 & H) | (Hf & _)]; [|discriminate].
  unfold get_endpoint in E4. destruct (endpoints w3 !! da) as [e50|] eqn:E5; [|discriminate].
  injection E4 as <- <-. rewrite He3 in E5.
  exists n1, n2, e, e'.
  split.
  { assert (Ho : nio_objects w' = nio_objects w3).
    { destruct (isinstance_Bridge e50).
      - destruct (nio_bridge_result _ _ _ _ _ H) as (Ho & _). exact Ho.
      - destruct (nio_port_result _ _ _ _ _ _ H) as (Ho & _). exact Ho. }
    rewrite Ho, Ho3, Ho2, Ho1, <- app_assoc. reflexivity. }
  repeat (split; [assumption|]).
  destruct (isinstance_Bridge e50) eqn:Hb5.
  - right. destruct (nio_bridge_result _ _ _ _ _ H) as (_ & _ & d & name & nios & Eb & He).
    rewrite He3 in Eb, He. exists d, name, nios. split; assumption.
  - left. destruct (nio_port_result _ _ _ _ _ _ H)
      as (_ & _ & e6 & e6' & Ee6 & He6 & Hread6 & Hkeep6 & _ & Hb6' & Hrange6 & _).
    rewrite He3 in Ee6, He6. rewrite E5 in Ee6. injection Ee6 as <-.
    exists e50, e6'. repeat (split; [assumption|]). exact Hrange6.
Qed.

End LinkOutcomes.

(** ** The outcomes of [gen_connect] *)

Section Connected.

(** A bound port reads as connected, without a change of the store. *)
Lemma connected_of_bound w a e p :
  endpoints w !! a = Some e -> is_bound e p -> connected a p w = (Ok true, w).
Proof.
  intros Ha [n Hn]. unfold connected.
  rewrite (bind_Ok _ _ _ _ _ (get_endpoint_Some _ _ _ Ha)).
  destruct e; cbn [nio_read] in Hn; try discriminate;
    unfold lift, connected_general; cbn [nio_read]; rewrite Hn; reflexivity.
Qed.

Lemma is_bound_not_Bridge e p : is_bound e p -> isinstance_Bridge e = false.
Proof. intros [n Hn]. destruct e; cbn [nio_read] in Hn; try discriminate; reflexivity. Qed.

End Connected.

(** X6 (failure of [gen_connect]): whenever a [gen_connect] call does not
    complete (an exception of any kind, a hang in [send], a missing object),
    the store it leaves differs from the one it started from in a bounded
    way: at most two NIO objects were created and none was removed; if
    fewer than two were created no endpoint changed at all; no endpoint other
    than the source adapter changed in any case (the destination never holds
    a binding of a failed call); no router changed. *)
Theorem gen_connect_failure_leaves w sd sa sp dd da dp r w' :
  gen_connect sd sa sp dd da dp w = (r, w') ->
  succeeds r = false ->
  exists created,
    nio_objects w' = nio_objects w ++ created
    /\ (length created <= 2)%nat
    /\ ((length created < 2)%nat -> endpoints w' = endpoints w)
    /\ (forall a, a <> sa -> endpoints w' !! a = endpoints w !! a)
    /\ routers w' = routers w.
Proof.
  intros H Hr.
  destruct (gen_connect_start _ _ _ _ _ _ _ _ _ H)
    as [(_ & ->) | (src & dst & e1 & e2 & src_ip & dst_ip & dst_udp & _ & _ & _ & _ & _ & Ht)].
  - exists []. rewrite app_nil_r. cbn [length]. repeat split; auto.
  - exact (gen_connect_tail_failed _ _ _ _ _ _ _ _ _ _ _ _ _ Ht Hr).
Qed.

(** The hypervisor refuses the fourth command, the binding of the
    destination: the call raises its error line, two NIOs exist and the
    destination adapter is as before. *)
Lemma gen_connect_failure_leaves_witness :
  exists created,
    nio_objects (snd (gen_connect 0 0 (Some 0%Z) 0 1 (Some 0%Z) FailLab.world2))
      = nio_objects FailLab.world2 ++ created
    /\ (length created <= 2)%nat
    /\ ((length created < 2)%nat ->
        endpoints (snd (gen_connect 0 0 (Some 0%Z) 0 1 (Some 0%Z) FailLab.world2))
          = endpoints FailLab.world2)
    /\ (forall a, a <> 0%nat ->
        endpoints (snd (gen_connect 0 0 (Some 0%Z) 0 1 (Some 0%Z) FailLab.world2)) !! a
          = endpoints FailLab.world2 !! a)
    /\ routers (snd (gen_connect 0 0 (Some 0%Z) 0 1 (Some 0%Z) FailLab.world2))
         = routers FailLab.world2.
Proof.
  assert (E : gen_connect 0 0 (Some 0%Z) 0 1 (Some 0%Z) FailLab.world2
              = (Exc (DynamipsError ("206-unable to bind")),
                 snd (gen_connect 0 0 (Some 0%Z) 0 1 (Some 0%Z) FailLab.world2)))
    by (vm_compute; reflexivity).
  exact (gen_connect_failure_leaves _ _ _ _ _ _ _ _ _ E eq_refl).
Defined.

(** X7 (reading a link back): after a successful [gen_connect], the source
    port reads as connected; so does the destination port when the
    destination is not a bridge; a destination bridge holds the NIO created
    last as the new last element of its list; every endpoint other than the
    two named ones is unchanged.  [connected] itself changes nothing. *)
Theorem gen_connect_ports_connected w sd sa sp dd da dp w' :
  gen_connect sd sa sp dd da dp w = (Ok tt, w') ->
  connected sa sp w' = (Ok true, w')
  /\ (forall e, endpoints w !! da = Some e -> isinstance_Bridge e = false ->
        connected da dp w' = (Ok true, w'))
  /\ (forall d name nios, endpoints w !! da = Some (Bridge d name nios) ->
        exists n, last (nio_objects w') = Some n
                  /\ endpoints w' !! da = Some (Bridge d name (nios ++ [n])))
  /\ (forall a, a <> sa -> a <> da -> endpoints w' !! a = endpoints w !! a).
Proof.
  intros H.
  destruct (gen_connect_start _ _ _ _ _ _ _ _ _ H)
    as [(Hr & _) | (src & dst & e1 & e2 & src_ip & dst_ip & dst_udp & _ & _ & _ & _ & _ & Ht)];
    [discriminate|].
  destruct (gen_connect_tail_bound _ _ _ _ _ _ _ _ _ _ _ _ Ht)
    as (n1 & n2 & e & e' & Ho & Ee & Hread & Hb & Hb' & _ & _ & Hdst).
  change (endpoints (allocated w sd dd src dst)) with (endpoints w) in *.
  change (nio_objects (allocated w sd dd src dst)) with (nio_objects w) in *.
  destruct Hdst as [(e5 & e5' & E5 & Hb5 & Hb5' & He & Hread5 & Hkeep & _)
                   | (d & name & nios & E5 & He)].
  - assert (Hsrc : exists es, endpoints w' !! sa = Some es /\ is_bound es sp).
    { rewrite He. destruct (decide (da = sa)) as [->|Hne].
      - rewrite lookup_insert_eq in E5 |- *. injection E5 as <-.
        exists e5'. split; [reflexivity|]. apply Hkeep. exists n1. exact Hread.
      - rewrite lookup_insert_ne by exact Hne. rewrite lookup_insert_eq.
        exists e'. split; [reflexivity|]. exists n1. exact Hread. }
    destruct Hsrc as (es & Ees & Hes).
    split; [exact (connected_of_bound _ _ _ _ Ees Hes)|].
    split.
    { intros e0 _ _. apply (connected_of_bound _ _ e5').
      - rewrite He. apply lookup_insert_eq.
      - exists n2. exact Hread5. }
    split.
    { intros d name nios Eb. exfalso.
      destruct (decide (da = sa)) as [->|Hne].
      - rewrite Ee in Eb. injection Eb as ->. discriminate.
      - rewrite lookup_insert_ne in E5 by auto. rewrite Eb in E5.
        injection E5 as <-. discriminate. }
    intros a Hsa Hda. rewrite He.
    rewrite lookup_insert_ne by auto. apply lookup_insert_ne. auto.
  - assert (Hne : sa <> da).
    { intros <-. rewrite lookup_insert_eq in E5. injection E5 as ->. discriminate. }
    split.
    { apply (connected_of_bound _ _ e').
      - rewrite He. rewrite lookup_insert_ne by auto. apply lookup_insert_eq.
      - exists n1. exact Hread. }
    rewrite lookup_insert_ne in E5 by exact Hne.
    split.
    { intros e0 E0 Hb0. rewrite E0 in E5. injection E5 as ->. discriminate. }
    split.
    { intros d0 name0 nios0 Eb. rewrite Eb in E5. injection E5 as -> -> ->.
      exists n2. split.
      - rewrite Ho. change [n1; n2] with ([n1] ++ [n2]). rewrite app_assoc.
        apply last_snoc.
      - rewrite He. apply lookup_insert_eq. }
    intros a Hsa Hda. rewrite He.
    rewrite lookup_insert_ne by auto. apply lookup_insert_ne. auto.
Qed.

(** A link between the Ethernet adapters of [r0] and [r1]. *)
Lemma gen_connect_ports_connected_witness :
  let w' := snd (gen_connect 0 0 (Some 0%Z) 0 1 (Some 0%Z) Lab.world0) in
  connected 0 (Some 0%Z) w' = (Ok true, w')
  /\ (forall e, endpoints Lab.world0 !! 1%nat = Some e -> isinstance_Bridge e = false ->
        connected 1 (Some 0%Z) w' = (Ok true, w'))
  /\ (forall d name nios, endpoints Lab.world0 !! 1%nat = Some (Bridge d name nios) ->
        exists n, last (nio_objects w') = Some n
                  /\ endpoints w' !! 1%nat = Some (Bridge d name (nios ++ [n])))
  /\ (forall a, a <> 0%nat -> a <> 1%nat ->
        endpoints w' !! a = endpoints Lab.world0 !! a).
Proof.
  assert (E : gen_connect 0 0 (Some 0%Z) 0 1 (Some 0%Z) Lab.world0
              = (Ok tt, snd (gen_connect 0 0 (Some 0%Z) 0 1 (Some 0%Z) Lab.world0)))
    by (vm_compute; reflexivity).
  exact (gen_connect_ports_connected _ _ _ _ _ _ _ _ E).
Defined.

(** X8 (what a successful link required): [gen_connect] completes only if
    the two adapters pass [validate_connect], the source is an adapter or a
    switch that takes a NIO at the source port (never a bridge: the source
    side is always bound by port), and the destination is a bridge or takes
    a NIO at the destination port.  An adapter port outside
    [0 .. ports - 1] on either side therefore never yields a link. *)
Theorem gen_connect_success_requires w sd sa sp dd da dp w' :
  gen_connect sd sa sp dd da dp w = (Ok tt, w') ->
  exists e1 e2,
    endpoints w !! sa = Some e1 /\ endpoints w !! da = Some e2
    /\ validate_connect (adapter_of e1) (adapter_of e2) = Ok tt
    /\ accepts_port e1 sp
    /\ (isinstance_Bridge e2 = true \/ accepts_port e2 dp).
Proof.
  intros H.
  destruct (gen_connect_start _ _ _ _ _ _ _ _ _ H)
    as [(Hr & _) | (src & dst & e1 & e2 & src_ip & dst_ip & dst_udp
                    & E1 & E2 & Hv & _ & _ & Ht)];
    [discriminate|].
  destruct (gen_connect_tail_bound _ _ _ _ _ _ _ _ _ _ _ _ Ht)
    as (n1 & n2 & e & e' & _ & Ee & _ & _ & Hb' & Hacc & Hsame & Hdst).
  change (endpoints (allocated w sd dd src dst)) with (endpoints w) in *.
  rewrite E1 in Ee. injection Ee as <-.
  exists e1, e2. repeat (split; [assumption|]).
  destruct (decide (da = sa)) as [->|Hne].
  - rewrite E1 in E2. injection E2 as <-.
    destruct Hdst as [(e5 & e5' & E5 & _ & _ & _ & _ & _ & Hacc5) | (d & name & nios & E5 & _)];
      rewrite lookup_insert_eq in E5; injection E5 as E5.
    + right. apply Hsame. rewrite E5. exact Hacc5.
    + rewrite E5 in Hb'. discriminate.
  - destruct Hdst as [(e5 & e5' & E5 & _ & _ & _ & _ & _ & Hacc5) | (d & name & nios & E5 & _)];
      rewrite lookup_insert_ne in E5 by auto; rewrite E2 in E5; injection E5 as ->.
    + right. exact Hacc5.
    + left. reflexivity.
Qed.

(** The link from [r0] to the bridge [b0]. *)
Lemma gen_connect_success_requires_witness :
  exists e1 e2,
    endpoints Lab.world0 !! 0%nat = Some e1 /\ endpoints Lab.world0 !! 4%nat = Some e2
    /\ validate_connect (adapter_of e1) (adapter_of e2) = Ok tt
    /\ accepts_port e1 (Some 0%Z)
    /\ (isinstance_Bridge e2 = true \/ accepts_port e2 None).
Proof.
  assert (E : gen_connect 0 0 (Some 0%Z) 0 4 None Lab.world0
              = (Ok tt, snd (gen_connect 0 0 (Some 0%Z) 0 4 None Lab.world0)))
    by (vm_compute; reflexivity).
  exact (gen_connect_success_requires _ _ _ _ _ _ _ _ E).
Defined.

(** ** Ports a link does not name *)

Section OtherPorts.

(** Reading any other port of any object gives what it gave before a
    binding. *)
Lemma nio_port_reads a p n w w' :
  nio_port a p n w = (Ok tt, w') ->
  forall b e q, endpoints w !! b = Some e -> b <> a \/ q <> p ->
    exists e', endpoints w' !! b = Some e' /\ nio_read e' q = nio_read e q.
Proof.
  intros H b e q Eb Hd.
  destruct (nio_port_result _ _ _ _ _ _ H) as (_ & _ & ea & ea' & Ea & He & _).
  destruct (decide (b = a)) as [->|Hne].
  2:{ exists e. rewrite He, lookup_insert_ne by auto. auto. }
  destruct Hd as [Hd|Hq]; [contradiction|].
  rewrite Ea in Eb. injection Eb as <-.
  exists ea'. split; [rewrite He; apply lookup_insert_eq|].
  assert (Ea' : endpoints w' !! a = Some ea') by (rewrite He; apply lookup_insert_eq).
  clear He. unfold nio_port in H.
  rewrite (bind_Ok _ _ _ _ _ (get_endpoint_Some _ _ _ Ea)) in H.
  destruct ea as [rd model name slot adapter ports nios | d name nios | d name nios
                 | d name nios | d name nios | ]; try discriminate.
  - destruct (port_out_of_range p ports) eqn:Hrange; [discriminate|].
    destruct p as [p|]; [|discriminate]. change (default 0%Z (Some p)) with p in H.
    apply bind_cases in H. destruct H as [([] & w2 & Hs & H) | (Hf & _)]; [|discriminate].
    destruct (Nat.ltb_spec (Z.to_nat p) (length nios)) as [Hlt|Hge]; [|discriminate].
    injection H as <-. cbn [with_endpoints endpoints] in Ea'.
    rewrite lookup_insert_eq in Ea'. injection Ea' as <-.
    cbn [nio_read]. destruct (port_out_of_range q ports) eqn:Hq'; [reflexivity|].
    destruct q as [q|]; [|discriminate]. change (default 0%Z (Some q)) with q.
    cbn [port_out_of_range] in Hrange, Hq'.
    apply orb_false_iff in Hrange. apply orb_false_iff in Hq'.
    destruct Hrange as [Hp0 _]. destruct Hq' as [Hq0 _].
    apply Z.ltb_ge in Hp0. apply Z.ltb_ge in Hq0.
    rewrite list_lookup_insert_ne; [reflexivity|].
    intros E. apply Hq. f_equal. lia.
  - injection H as <-. cbn [with_endpoints endpoints] in Ea'.
    rewrite lookup_insert_eq in Ea'. injection Ea' as <-.
    cbn [nio_read]. rewrite lookup_insert_ne by auto. reflexivity.
  - injection H as <-. cbn [with_endpoints endpoints] in Ea'.
    rewrite lookup_insert_eq in Ea'. injection Ea' as <-.
    cbn [nio_read]. rewrite lookup_insert_ne by auto. reflexivity.
  - apply bind_cases in H. destruct H as [([] & w2 & Hs & H) | (Hf & _)]; [|discriminate].
    injection H as <-. cbn [with_endpoints endpoints] in Ea'.
    rewrite lookup_insert_eq in Ea'. injection Ea' as <-.
    cbn [nio_read]. rewrite lookup_insert_ne by auto. reflexivity.
Qed.

(** A bridge has no numbered ports: appending to its list changes no
    reading. *)
Lemma nio_bridge_reads a n w w' :
  nio_bridge a n w = (Ok tt, w') ->
  forall b e q, endpoints w !! b = Some e ->
    exists e', endpoints w' !! b = Some e' /\ nio_read e' q = nio_read e q.
Proof.
  intros H b e q Eb.
  destruct (nio_bridge_result _ _ _ _ _ H) as (_ & _ & d & name & nios & Ea & He).
  rewrite He. destruct (decide (b = a)) as [->|Hne].
  - rewrite lookup_insert_eq. rewrite Ea in Eb. injection Eb as <-.
    eexists. split; reflexivity.
  - rewrite lookup_insert_ne by auto. exists e. auto.
Qed.

Lemma gen_connect_tail_reads sd sa sp dd da dp src_ip dst_ip src_udp dst_udp w w' :
  gen_connect_tail sd sa sp dd da dp src_ip dst_ip src_udp dst_udp w = (Ok tt, w') ->
  forall b e q, endpoints w !! b = Some e ->
    b <> sa \/ q <> sp -> b <> da \/ q <> dp ->
    exists e', endpoints w' !! b = Some e' /\ nio_read e' q = nio_read e q.
Proof.
  unfold gen_connect_tail. intros H b e q Eb Hs Hd.
  apply bind_cases in H. destruct H as [(n1 & w1 & E1 & H) | (Hf & _)]; [|discriminate].
  destruct (new_NIO_udp_result _ _ _ _ _ _ _ E1) as (He1 & _).
  apply bind_cases in H. destruct H as [(n2 & w2 & E2 & H) | (Hf & _)]; [|discriminate].
  destruct (new_NIO_udp_result _ _ _ _ _ _ _ E2) as (He2 & _).
  apply bind_cases in H. destruct H as [([] & w3 & E3 & H) | (Hf & _)]; [|discriminate].
  rewrite <- He1, <- He2 in Eb.
  destruct (nio_port_reads _ _ _ _ _ E3 _ _ q Eb Hs) as (e3 & Eb3 & R3).
  apply bind_cases in H. destruct H as [(e5 & w4 & E4 & H) | (Hf & _)]; [|discriminate].
  unfold get_endpoint in E4. destruct (endpoints w3 !! da) as [e50|]; [|discriminate].
  injection E4 as <- <-.
  destruct (isinstance_Bridge e50).
  - destruct (nio_bridge_reads _ _ _ _ H _ _ q Eb3) as (e' & Eb' & R').
    exists e'. split; [exact Eb'|]. congruence.
  - destruct (nio_port_reads _ _ _ _ _ H _ _ q Eb3 Hd) as (e' & Eb' & R').
    exists e'. split; [exact Eb'|]. congruence.
Qed.

End OtherPorts.

(** X9 (a link disturbs no other port): after a successful [gen_connect],
    every port of every object other than the two ports the call names reads
    exactly as before the call: the same NIO, the same unbound slot, or the
    same exception.  This includes the other ports of the two adapters
    themselves. *)
Theorem gen_connect_other_ports_kept w sd sa sp dd da dp w' b e q :
  gen_connect sd sa sp dd da dp w = (Ok tt, w') ->
  endpoints w !! b = Some e ->
  b <> sa \/ q <> sp ->
  b <> da \/ q <> dp ->
  exists e', endpoints w' !! b = Some e' /\ nio_read e' q = nio_read e q.
Proof.
  intros H Eb Hs Hd.
  destruct (gen_connect_start _ _ _ _ _ _ _ _ _ H)
    as [(Hr & _) | (src & dst & e1 & e2 & src_ip & dst_ip & dst_udp & _ & _ & _ & _ & _ & Ht)];
    [discriminate|].
  exact (gen_connect_tail_reads _ _ _ _ _ _ _ _ _ _ _ _ Ht b e q Eb Hs Hd).
Qed.

(** Port 1 of the serial adapter of [r2] after its port 0 was linked to its
    port 2. *)
Lemma gen_connect_other_ports_kept_witness :
  exists e',
    endpoints (snd (gen_connect 0 2 (Some 0%Z) 0 2 (Some 2%Z) Lab.world0)) !! 2%nat = Some e'
    /\ nio_read e' (Some 1%Z)
       = nio_read (BaseAdapter 0 "c7200" "r2" 1 "PA-4T+" 4 [None; None; None; None])
           (Some 1%Z).
Proof.
  assert (E : gen_connect 0 2 (Some 0%Z) 0 2 (Some 2%Z) Lab.world0
              = (Ok tt, snd (gen_connect 0 2 (Some 0%Z) 0 2 (Some 2%Z) Lab.world0)))
    by (vm_compute; reflexivity).
  apply (gen_connect_other_ports_kept _ _ _ _ _ _ _ _ 2%nat _ (Some 1%Z) E).
  - reflexivity.
  - right. discriminate.
  - right. discriminate.
Defined.

(** ** [connected] *)

(** X10 ([connected], by class): the query changes nothing; it answers
    [True] exactly for a port that holds a NIO, and [False] exactly for a
    port of an adapter that is in range and empty.  A switch never answers
    [False]: a port without NIO raises [DynamipsWarning] out of the query,
    and a port of an adapter outside its range raises
    [DynamipsError('invalid port')]. *)
Theorem connected_verdict w a e p :
  endpoints w !! a = Some e ->
  snd (connected a p w) = w
  /\ (fst (connected a p w) = Ok true <-> is_bound e p)
  /\ (fst (connected a p w) = Ok false <->
      exists rd model name slot adapter ports nios,
        e = BaseAdapter rd model name slot adapter ports nios
        /\ port_out_of_range p ports = false
        /\ nios !! Z.to_nat (default 0%Z p) = Some None)
  /\ match e with
     | FRSW _ _ _ | ATMSW _ _ _ | ETHSW _ _ _ =>
         is_bound e p \/ exists msg, fst (connected a p w) = Exc (DynamipsWarning msg)
     | BaseAdapter _ _ _ _ _ ports _ =>
         port_out_of_range p ports = true ->
         fst (connected a p w) = Exc (DynamipsError "invalid port")
     | Bridge _ _ _ | Plain => fst (connected a p w) = Exc AttributeError
     end.
Proof.
  intros Ea. unfold connected, is_bound.
  rewrite (bind_Ok _ _ _ _ _ (get_endpoint_Some _ _ _ Ea)).
  destruct e as [rd model name slot adapter ports nios | d name nios | d name nios
                 | d name nios | d name nios | ];
    unfold lift, raise, connected_general; cbn [nio_read fst snd].
  - split; [reflexivity|].
    destruct (port_out_of_range p ports) eqn:Hrange.
    { split; [split; [discriminate | intros [n Hn]; discriminate]|].
      split; [|reflexivity].
      split; [discriminate|].
      intros (? & ? & ? & ? & ? & ? & ? & [= _ _ _ _ _ <- _] & Hr & _). congruence. }
    destruct (nios !! Z.to_nat (default 0%Z p)) as [[n|]|] eqn:En.
    + split; [split; eauto|]. split; [|discriminate].
      split; [discriminate|].
      intros (? & ? & ? & ? & ? & ? & ? & [= _ _ _ _ _ _ <-] & _ & Hn). congruence.
    + split; [split; [discriminate | intros [n Hn]; discriminate]|].
      split; [|discriminate].
      split; [|reflexivity]. intros _. eexists _, _, _, _, _, _, _. eauto.
    + split; [split; [discriminate | intros [n Hn]; discriminate]|].
      split; [|discriminate].
      split; [discriminate|].
      intros (? & ? & ? & ? & ? & ? & ? & [= _ _ _ _ _ _ <-] & _ & Hn). congruence.
  - split; [reflexivity|].
    split; [split; [discriminate | intros [n Hn]; discriminate]|].
    split; [|reflexivity].
    split; [discriminate | intros (? & ? & ? & ? & ? & ? & ? & H & _); discriminate].
  - split; [reflexivity|].
    destruct (nios !! p) as [n|].
    + split; [split; eauto|].
      split; [|eauto].
      split; [discriminate | intros (? & ? & ? & ? & ? & ? & ? & H & _); discriminate].
    + split; [split; [discriminate | intros [n Hn]; discriminate]|].
      split; [|eauto].
      split; [discriminate | intros (? & ? & ? & ? & ? & ? & ? & H & _); discriminate].
  - split; [reflexivity|].
    destruct (nios !! p) as [n|].
    + split; [split; eauto|].
      split; [|eauto].
      split; [discriminate | intros (? & ? & ? & ? & ? & ? & ? & H & _); discriminate].
    + split; [split; [discriminate | intros [n Hn]; discriminate]|].
      split; [|eauto].
      split; [discriminate | intros (? & ? & ? & ? & ? & ? & ? & H & _); discriminate].
  - split; [reflexivity|].
    destruct (nios !! p) as [n|].
    + split; [split; eauto|].
      split; [|eauto].
      split; [discriminate | intros (? & ? & ? & ? & ? & ? & ? & H & _); discriminate].
    + split; [split; [discriminate | intros [n Hn]; discriminate]|].
      split; [|eauto].
      split; [discriminate | intros (? & ? & ? & ? & ? & ? & ? & H & _); discriminate].
  - split; [reflexivity|].
    split; [split; [discriminate | intros [n Hn]; discriminate]|].
    split; [|reflexivity].
    split; [discriminate | intros (? & ? & ? & ? & ? & ? & ? & H & _); discriminate].
Qed.

(** ** [checkconsole] and the console loop of [Router.__init__] *)

Section ConsoleScan.

Lemma checkconsole_scan_None c rs devs :
  checkconsole_scan c rs devs = None <->
  (forall i r, i ∈ devs -> rs !! i = Some r -> r_console r <> Some c).
Proof.
  split.
  - intros Hn i r Hin Hr Hc.
    destruct (checkconsole_scan_finds _ _ _ _ _ Hin Hr Hc) as [j Hj]. congruence.
  - intros H. destruct (checkconsole_scan c rs devs) as [i|] eqn:E; [|reflexivity].
    destruct (checkconsole_scan_Some _ _ _ _ E) as (Hin & r & Hr & Hc).
    destruct (H i r Hin Hr Hc).
Qed.

(** The device the scan returns is the first holder in list order. *)
Lemma checkconsole_scan_first c rs devs i :
  checkconsole_scan c rs devs = Some i ->
  exists pre post r,
    devs = pre ++ i :: post /\ rs !! i = Some r /\ r_console r = Some c
    /\ forall j rj, j ∈ pre -> rs !! j = Some rj -> r_console rj <> Some c.
Proof.
  induction devs as [|dev devs IH]; cbn [checkconsole_scan]; [discriminate|].
  assert (Hrest : (forall rd, rs !! dev = Some rd -> r_console rd <> Some c) ->
                  checkconsole_scan c rs devs = Some i ->
                  exists pre post r,
                    dev :: devs = pre ++ i :: post /\ rs !! i = Some r /\ r_console r = Some c
                    /\ forall j rj, j ∈ pre -> rs !! j = Some rj -> r_console rj <> Some c).
  { intros Hdev H. destruct (IH H) as (pre & post & r & -> & Hr & Hc & Hpre).
    exists (dev :: pre), post, r. split; [reflexivity|]. split; [exact Hr|].
    split; [exact Hc|]. intros j rj Hj Hrj. apply elem_of_cons in Hj.
    destruct Hj as [->|Hj]; [exact (Hdev rj Hrj) | exact (Hpre j rj Hj Hrj)]. }
  destruct (rs !! dev) as [r|] eqn:Er; [|apply Hrest; discriminate].
  destruct (r_console r) as [con2|] eqn:Ec.
  2:{ apply Hrest. intros rd [= <-]. rewrite Ec. discriminate. }
  destruct (Z.eqb_spec c con2) as [->|Hne].
  2:{ apply Hrest. intros rd [= <-]. rewrite Ec. congruence. }
  intros [= <-]. exists [], devs, r. split; [reflexivity|]. split; [exact Er|].
  split; [exact Ec|]. intros j rj Hj. apply elem_of_nil in Hj. destruct Hj.
Qed.

(** The scan reads the routers of the list only. *)
Lemma checkconsole_scan_ext c rs rs' devs :
  (forall i, i ∈ devs -> rs' !! i = rs !! i) ->
  checkconsole_scan c rs' devs = checkconsole_scan c rs devs.
Proof.
  induction devs as [|dev devs IH]; intros H; cbn [checkconsole_scan]; [reflexivity|].
  rewrite (H dev) by left. rewrite IH by (intros i Hi; apply H; right; exact Hi).
  reflexivity.
Qed.

Lemma pick_console_ext fuel c rs rs' devs :
  (forall i, i ∈ devs -> rs' !! i = rs !! i) ->
  pick_console fuel c rs' devs = pick_console fuel c rs devs.
Proof.
  intros H. revert c. induction fuel as [|fuel IH]; intros c; cbn [pick_console];
    rewrite (checkconsole_scan_ext c rs rs' devs H); [reflexivity|].
  rewrite IH. reflexivity.
Qed.

Lemma holders_from_length c rs devs : (holders_from c rs devs <= length devs)%nat.
Proof.
  induction devs as [|dev devs IH]; cbn [holders_from length]; [lia|].
  destruct (rs !! dev) as [r|]; [|lia].
  destruct (r_console r) as [con2|]; [|lia].
  destruct (c <=? con2)%Z; lia.
Qed.

Lemma holders_from_mono c rs devs :
  (holders_from (c + 1) rs devs <= holders_from c rs devs)%nat.
Proof.
  induction devs as [|dev devs IH]; cbn [holders_from]; [lia|].
  destruct (rs !! dev) as [r|]; [|exact IH].
  destruct (r_console r) as [con2|]; [|exact IH].
  destruct (Z.leb_spec (c + 1) con2), (Z.leb_spec c con2); lia.
Qed.

(** A holder of [c] is no holder from [c + 1] on. *)
Lemma holders_from_scan c rs devs i :
  checkconsole_scan c rs devs = Some i ->
  (holders_from (c + 1) rs devs < holders_from c rs devs)%nat.
Proof.
  induction devs as [|dev devs IH]; cbn [checkconsole_scan holders_from]; [discriminate|].
  destruct (rs !! dev) as [r|]; [|exact IH].
  destruct (r_console r) as [con2|]; [|exact IH].
  destruct (Z.eqb_spec c con2) as [->|Hne].
  - intros _. pose proof (holders_from_mono con2 rs devs).
    destruct (Z.leb_spec (con2 + 1) con2), (Z.leb_spec con2 con2); lia.
  - intros H. specialize (IH H).
    destruct (Z.leb_spec (c + 1) con2), (Z.leb_spec c con2); lia.
Qed.

(** With one unit of fuel for each device that holds a console from the
    candidate on, the loop ends, at the least free port. *)
Lemma pick_console_fuel fuel c rs devs :
  (holders_from c rs devs <= fuel)%nat ->
  exists c',
    pick_console fuel c rs devs = Some c'
    /\ (c <= c' <= c + Z.of_nat (holders_from c rs devs))%Z
    /\ checkconsole_scan c' rs devs = None
    /\ forall k, (c <= k < c')%Z -> checkconsole_scan k rs devs <> None.
Proof.
  revert c. induction fuel as [|fuel IH]; intros c Hf; cbn [pick_console];
    destruct (checkconsole_scan c rs devs) as [i|] eqn:E.
  - apply holders_from_scan in E. lia.
  - exists c. split; [reflexivity|]. split; [lia|]. split; [exact E|]. intros k Hk. lia.
  - pose proof (holders_from_scan _ _ _ _ E) as Hlt.
    destruct (IH (c + 1)%Z) as (c' & Hp & Hc & Hn & Hk); [lia|].
    exists c'. split; [exact Hp|]. split; [lia|]. split; [exact Hn|].
    intros k Hk'. destruct (decide (k = c)) as [->|Hne]; [congruence|].
    apply Hk. lia.
  - exists c. split; [reflexivity|]. split; [lia|]. split; [exact E|]. intros k Hk. lia.
Qed.

End ConsoleScan.

(** X11 ([checkconsole]): on a host instance of the store the function
    returns, without changing anything, [None] exactly when no registered
    router holds the port, and otherwise the first device of the list, in
    list order, that holds it.  Devices without a console are skipped. *)
Theorem checkconsole_first_holder w d o c :
  dynamips w !! d = Some o ->
  exists res,
    checkconsole c d w = (Ok res, w)
    /\ match res with
       | None =>
           forall i r, i ∈ d_devices o -> routers w !! i = Some r -> r_console r <> Some c
       | Some i =>
           exists pre post r,
             d_devices o = pre ++ i :: post
             /\ routers w !! i = Some r /\ r_console r = Some c
             /\ forall j rj, j ∈ pre -> routers w !! j = Some rj -> r_console rj <> Some c
       end.
Proof.
  intros Hd. exists (checkconsole_scan c (routers w) (d_devices o)).
  split; [exact (checkconsole_Some _ _ _ _ Hd)|].
  destruct (checkconsole_scan c (routers w) (d_devices o)) as [i|] eqn:E.
  - exact (checkconsole_scan_first _ _ _ _ E).
  - apply checkconsole_scan_None. exact E.
Qed.

(** Port 2001 on the first hypervisor of the lab is held by [r1], behind
    [r0]. *)
Lemma checkconsole_first_holder_witness :
  exists res,
    checkconsole 2001 0 Lab.world0 = (Ok res, Lab.world0)
    /\ match res with
       | None =>
           forall i r, i ∈ d_devices Lab.hv0 -> routers Lab.world0 !! i = Some r ->
                       r_console r <> Some 2001%Z
       | Some i =>
           exists pre post r,
             d_devices Lab.hv0 = pre ++ i :: post
             /\ routers Lab.world0 !! i = Some r /\ r_console r = Some 2001%Z
             /\ forall j rj, j ∈ pre -> routers Lab.world0 !! j = Some rj ->
                             r_console rj <> Some 2001%Z
       end.
Proof.
  apply (checkconsole_first_holder Lab.world0 0 Lab.hv0 2001). reflexivity.
Defined.

(** X12 (the console loop of [Router.__init__]): started at any candidate
    on any list of devices, the loop ends after at most [len(devices)]
    increments; the port it picks is held by no registered router, and
    every port between the candidate and the pick is held by one: the pick
    is the least free port from the candidate on.  No bound is put on the
    pick: it is not compared with 65535. *)
Theorem pick_console_least_free c rs devs :
  exists c',
    pick_console (length devs) c rs devs = Some c'
    /\ (c <= c' <= c + Z.of_nat (length devs))%Z
    /\ (forall i r, i ∈ devs -> rs !! i = Some r -> r_console r <> Some c')
    /\ (forall k, (c <= k < c')%Z ->
          exists i r, i ∈ devs /\ rs !! i = Some r /\ r_console r = Some k).
Proof.
  pose proof (holders_from_length c rs devs) as Hl.
  destruct (pick_console_fuel (length devs) c rs devs Hl) as (c' & Hp & Hc & Hn & Hk).
  exists c'. split; [exact Hp|]. split; [lia|].
  split; [apply checkconsole_scan_None; exact Hn|].
  intros k Hk'. specialize (Hk k Hk').
  destruct (checkconsole_scan k rs devs) as [i|] eqn:E; [|congruence].
  destruct (checkconsole_scan_Some _ _ _ _ E) as (Hin & r & Hr & Hcon). eauto.
Qed.

(** ** [Router.__init__] *)

Section RouterInit.

(** What a [send] leaves of the host instance it talks to. *)
Lemma send_to_dynamips d command w o :
  dynamips w !! d = Some o ->
  exists o',
    dynamips (snd (send_to d command w)) !! d = Some o'
    /\ d_devices o' = d_devices o /\ d_baseconsole o' = d_baseconsole o
    /\ (NOSEND w = false -> d_sent o' = d_sent o ++ [command])
    /\ routers (snd (send_to d command w)) = routers w
    /\ NOSEND (snd (send_to d command w)) = NOSEND w.
Proof.
  intros Hd. unfold send_to. rewrite Hd.
  destruct (NOSEND w) eqn:Hn.
  { exists o. cbn [snd]. repeat split; try assumption. discriminate. }
  destruct (send false (d_s o)) as [out s'].
  eexists. split.
  { destruct out; cbn [snd with_dynamips dynamips]; apply lookup_insert_eq. }
  cbn [d_devices d_baseconsole d_sent].
  repeat split; destruct out; cbn [snd with_dynamips routers NOSEND]; auto.
Qed.

(** The constructor, step by step. *)
Lemma Router_init_body_result self instance d model name consoleFlag w r w' o :
  dynamips w !! d = Some o ->
  Router_init_body self instance d model name consoleFlag w = (r, w') ->
  exists o',
    dynamips w' !! d = Some o'
    /\ d_baseconsole o' = d_baseconsole o
    /\ (forall i, i <> self -> routers w' !! i = routers w !! i)
    /\ match r with
       | Ok _ =>
           d_devices o' = d_devices o ++ [self]
           /\ tuple_in model router_models = true
           /\ exists con,
                routers w' !! self
                = Some (mkRouter d model
                          (match name with
                           | None => "r" +:+ str_of_Z instance
                           | Some n => n
                           end) con)
                /\ (if consoleFlag
                   then exists c,
                          con = Some c
                          /\ pick_console (length (d_devices o))
                               (d_baseconsole o + instance)
                               (<[self := mkRouter d model
                                            (match name with
                                             | None => "r" +:+ str_of_Z instance
                                             | Some n => n
                                             end) None]> (routers w))
                               (d_devices o) = Some c
                   else con = None)
                /\ (NOSEND w = false ->
                    d_sent o'
                    = d_sent o
                      ++ (model +:+ " create " +:+ str_of_name name +:+ " "
                            +:+ str_of_Z instance)
                      :: match con with
                         | Some c =>
                             ["vm set_con_tcp_port "
                                +:+ match name with
                                    | None => "r" +:+ str_of_Z instance
                                    | Some n => n
                                    end
                                +:+ " " +:+ str_of_Z c]
                         | None => []
                         end)
       | _ => d_devices o' = d_devices o
       end.
Proof.
  intros Hd H. unfold Router_init_body in H.
  rewrite (bind_Ok _ _ _ _ _ (get_dynamips_Some _ _ _ Hd)) in H.
  destruct (tuple_in model router_models) eqn:Hm.
  2:{ injection H as <- <-. exists o. auto. }
  cbv zeta in H.
  set (self_name := match name with None => "r" +:+ str_of_Z instance | Some n => n end) in *.
  unfold new_router in H. unfold bind at 1 in H. cbv beta iota in H.
  set (rt0 := mkRouter d model self_name None) in *.
  remember (with_routers (insert self rt0) w) as w1 eqn:Ew1.
  assert (Hd1 : dynamips w1 !! d = Some o) by (subst w1; exact Hd).
  assert (Hro1 : routers w1 = <[self := rt0]> (routers w)) by (subst w1; reflexivity).
  assert (Hns1 : NOSEND w1 = NOSEND w) by (subst w1; reflexivity).
  clear Ew1.
  apply bind_cases in H. destruct H as [([] & w2 & E2 & H) | (Hr & Hf & <-)].
  2:{ destruct (send_to_dynamips d
          (model +:+ " create " +:+ str_of_name name +:+ " " +:+ str_of_Z instance) w1 o Hd1)
        as (o' & Ho' & Hdev & Hbase & _ & Hro & _).
      exists o'. split; [exact Ho'|]. split; [exact Hbase|].
      split.
      { intros i Hi. rewrite Hro, Hro1.
        apply lookup_insert_ne. auto. }
      destruct r; try discriminate; exact Hdev. }
  destruct (send_to_dynamips d
      (model +:+ " create " +:+ str_of_name name +:+ " " +:+ str_of_Z instance) w1 o Hd1)
    as (o2 & Ho2 & Hdev2 & Hbase2 & Hsent2 & Hro2 & Hns2).
  rewrite E2 in Ho2, Hro2, Hns2. cbn [snd] in Ho2, Hro2, Hns2.
  rewrite Hns1 in Hsent2, Hns2.
  assert (Hself2 : routers w2 !! self = Some rt0).
  { rewrite Hro2, Hro1. apply lookup_insert_eq. }
  assert (Hoff2 : forall i, i <> self -> routers w2 !! i = routers w !! i).
  { intros i Hi. rewrite Hro2, Hro1. apply lookup_insert_ne. auto. }
  (* the console *)
  assert (Hcon : forall rc wc,
            (if consoleFlag
             then
               do o <- get_dynamips d ;
               fun w =>
                 match pick_console (length (d_devices o)) (d_baseconsole o + instance)
                         (routers w) (d_devices o) with
                 | Some console =>
                     (do_ store_console self console ;
                      send_to d ("vm set_con_tcp_port " +:+ self_name +:+ " "
                                   +:+ str_of_Z console)) w
                 | None => (Diverges, w)
                 end
             else ret tt) w2 = (rc, wc) ->
            exists o3 con,
              dynamips wc !! d = Some o3 /\ d_devices o3 = d_devices o
              /\ d_baseconsole o3 = d_baseconsole o
              /\ routers wc = <[self := mkRouter d model self_name con]> (routers w2)
              /\ (succeeds rc = true ->
                  if consoleFlag
                  then exists c,
                         con = Some c
                         /\ pick_console (length (d_devices o)) (d_baseconsole o + instance)
                              (<[self := rt0]> (routers w)) (d_devices o) = Some c
                  else con = None)
              /\ (NOSEND w = false -> succeeds rc = true ->
                  d_sent o3
                  = d_sent o2
                    ++ match con with
                       | Some c =>
                           ["vm set_con_tcp_port " +:+ self_name +:+ " " +:+ str_of_Z c]
                       | None => []
                       end)).
  { intros rc wc Hc. destruct consoleFlag.
    - rewrite (bind_Ok _ _ _ _ _ (get_dynamips_Some _ _ _ Ho2)) in Hc.
      rewrite Hdev2, Hbase2 in Hc.
      destruct (pick_console (length (d_devices o)) (d_baseconsole o + instance)
                  (routers w2) (d_devices o)) as [c|] eqn:Ep.
      2:{ injection Hc as <- <-. exists o2, None.
          split; [exact Ho2|]. split; [exact Hdev2|]. split; [exact Hbase2|].
          split; [symmetry; apply insert_id; exact Hself2|].
          split; discriminate. }
      rewrite (bind_Ok _ _ _ _ _ (store_console_Some _ _ _ c Hself2)) in Hc.
      cbn [r_d r_model r_name rt0] in Hc.
      remember (with_routers (insert self (mkRouter d model self_name (Some c))) w2)
        as w3 eqn:Ew3.
      assert (Hd3 : dynamips w3 !! d = Some o2) by (subst w3; exact Ho2).
      assert (Hro3' : routers w3 = <[self := mkRouter d model self_name (Some c)]> (routers w2))
        by (subst w3; reflexivity).
      assert (Hns3 : NOSEND w3 = NOSEND w) by (subst w3; exact Hns2).
      clear Ew3.
      destruct (send_to_dynamips d
          ("vm set_con_tcp_port " +:+ self_name +:+ " " +:+ str_of_Z c) w3 o2 Hd3)
        as (o3 & Ho3 & Hdev3 & Hbase3 & Hsent3 & Hro3 & _).
      rewrite Hc in Ho3, Hro3. cbn [snd] in Ho3, Hro3. rewrite Hns3 in Hsent3.
      exists o3, (Some c).
      split; [exact Ho3|]. split; [congruence|]. split; [congruence|].
      split; [rewrite Hro3; exact Hro3'|].
      split; [|intros Hn _; exact (Hsent3 Hn)].
      intros _. exists c. split; [reflexivity|].
      rewrite <- Ep. rewrite Hro2, Hro1. reflexivity.
    - injection Hc as <- <-. exists o2, None.
      split; [exact Ho2|]. split; [exact Hdev2|]. split; [exact Hbase2|].
      split; [symmetry; apply insert_id; exact Hself2|].
      split; [reflexivity|]. intros _ _. symmetry. apply app_nil_r. }
  apply bind_cases in H. destruct H as [([] & w3 & E3 & H) | (Hr & Hf & <-)].
  2:{ match type of Hf with
      | context [fst (?m w2)] =>
          destruct (Hcon (fst (m w2)) (snd (m w2)) (surjective_pairing _))
            as (o3 & con & Ho3 & Hdev3 & Hbase3 & Hro3 & _)
      end.
      exists o3. split; [exact Ho3|]. split; [exact Hbase3|].
      split.
      { intros i Hi. rewrite Hro3, lookup_insert_ne by auto. apply Hoff2. exact Hi. }
      destruct r; try discriminate; exact Hdev3. }
  destruct (Hcon _ _ E3) as (o3 & con & Ho3 & Hdev3 & Hbase3 & Hro3 & Hpick & Hsent3).
  specialize (Hpick eq_refl).
  unfold devices_append in H.
  rewrite (bind_Ok _ _ _ _ _ (get_dynamips_Some _ _ _ Ho3)) in H.
  injection H as <- <-. cbn [with_dynamips dynamips routers].
  eexists. split; [apply lookup_insert_eq|].
  cbn [with_devices d_baseconsole d_devices d_sent].
  split; [exact Hbase3|].
  split.
  { intros i Hi. rewrite Hro3, lookup_insert_ne by auto. apply Hoff2. exact Hi. }
  split; [rewrite Hdev3; reflexivity|].
  split; [reflexivity|].
  exists con. split; [rewrite Hro3; apply lookup_insert_eq|].
  split; [exact Hpick|].
  intros Hn. rewrite (Hsent3 Hn eq_refl), (Hsent2 Hn), <- app_assoc. reflexivity.
Qed.

End RouterInit.

(** X13 (the console of a new router): when the constructor completes with
    [consoleFlag] set, the new router holds a console port; it is the least
    port from [baseconsole + instance] on that no router registered on the
    host instance held before the call, at most [len(devices)] above the
    first candidate. *)
Theorem Router_init_console self d model name rw rw' o :
  dynamips (rw_world rw) !! d = Some o ->
  self ∉ d_devices o ->
  Router_init self d model name true rw = (Ok tt, rw') ->
  exists c rt,
    routers (rw_world rw') !! self = Some rt
    /\ r_console rt = Some c /\ r_d rt = d /\ r_model rt = model
    /\ (d_baseconsole o + Router_instance_count rw <= c
        <= d_baseconsole o + Router_instance_count rw + Z.of_nat (length (d_devices o)))%Z
    /\ (forall i r, i ∈ d_devices o -> routers (rw_world rw) !! i = Some r ->
          r_console r <> Some c)
    /\ (forall k, (d_baseconsole o + Router_instance_count rw <= k < c)%Z ->
          exists i r, i ∈ d_devices o /\ routers (rw_world rw) !! i = Some r
                      /\ r_console r = Some k).
Proof.
  intros Hd Hnin H. unfold Router_init in H.
  destruct (Router_init_body self (Router_instance_count rw) d model name true (rw_world rw))
    as [r w'] eqn:Eb.
  injection H as -> <-. cbn [rw_world].
  destruct (Router_init_body_result _ _ _ _ _ _ _ _ _ _ Hd Eb)
    as (o' & _ & _ & _ & _ & _ & con & Hself & (c & -> & Hpick) & _).
  rewrite (pick_console_ext _ _ (routers (rw_world rw))) in Hpick.
  2:{ intros i Hi. apply lookup_insert_ne. intros <-. exact (Hnin Hi). }
  destruct (pick_console_fuel (length (d_devices o))
              (d_baseconsole o + Router_instance_count rw) (routers (rw_world rw))
              (d_devices o) (holders_from_length _ _ _)) as (c' & Hp & Hc & Hn & Hk).
  rewrite Hp in Hpick. injection Hpick as ->.
  pose proof (holders_from_length (d_baseconsole o + Router_instance_count rw)
                (routers (rw_world rw)) (d_devices o)) as Hl.
  eexists c, _. split; [exact Hself|]. cbn [r_console r_d r_model].
  repeat (split; [reflexivity|]). split; [lia|].
  split; [apply checkconsole_scan_None; exact Hn|].
  intros k Hk'. specialize (Hk k Hk').
  destruct (checkconsole_scan k (routers (rw_world rw)) (d_devices o)) as [i|] eqn:E;
    [|congruence].
  destruct (checkconsole_scan_Some _ _ _ _ E) as (Hin & r & Hr & Hcon). eauto.
Qed.

(** The second router made in the lab: instance 1 on the first hypervisor,
    where [r1] holds 2001. *)
Lemma Router_init_console_witness :
  exists c rt,
    routers (rw_world (snd (Router_init 7 0 "c7200" None true
                              (mkRouterWorld Lab.world0 1)))) !! 7%nat = Some rt
    /\ r_console rt = Some c /\ r_d rt = 0%nat /\ r_model rt = "c7200"
    /\ (d_baseconsole Lab.hv0 + 1 <= c
        <= d_baseconsole Lab.hv0 + 1 + Z.of_nat (length (d_devices Lab.hv0)))%Z
    /\ (forall i r, i ∈ d_devices Lab.hv0 -> routers Lab.world0 !! i = Some r ->
          r_console r <> Some c)
    /\ (forall k, (d_baseconsole Lab.hv0 + 1 <= k < c)%Z ->
          exists i r, i ∈ d_devices Lab.hv0 /\ routers Lab.world0 !! i = Some r
                      /\ r_console r = Some k).
Proof.
  assert (E : Router_init 7 0 "c7200" None true (mkRouterWorld Lab.world0 1)
              = (Ok tt, snd (Router_init 7 0 "c7200" None true (mkRouterWorld Lab.world0 1))))
    by (vm_compute; reflexivity).
  apply (Router_init_console 7 0 "c7200" None (mkRouterWorld Lab.world0 1) _ Lab.hv0).
  - reflexivity.
  - cbn [d_devices Lab.hv0]. intros Hin. repeat (apply elem_of_cons in Hin as [Hin|Hin];
      [discriminate|]). apply elem_of_nil in Hin. exact Hin.
  - exact E.
Defined.

(** X14 (registration by the constructor): the constructor takes an
    instance number however it ends.  When it completes, the new router is
    the last device of the host instance; when it fails (wrong model, an
    error or a timeout of the hypervisor at either command, a hang) the list
    of devices is as before.  In both cases registered routers hold
    pairwise different console ports afterwards if they did before. *)
Theorem Router_init_registry self d model name consoleFlag rw r rw' o :
  dynamips (rw_world rw) !! d = Some o ->
  self ∉ d_devices o ->
  consoles_unique (rw_world rw) o ->
  Router_init self d model name consoleFlag rw = (r, rw') ->
  Router_instance_count rw' = (Router_instance_count rw + 1)%Z
  /\ exists o',
       dynamips (rw_world rw') !! d = Some o'
       /\ d_devices o' = (if succeeds r then d_devices o ++ [self] else d_devices o)
       /\ consoles_unique (rw_world rw') o'.
Proof.
  intros Hd Hnin Hu H. unfold Router_init in H.
  destruct (Router_init_body self (Router_instance_count rw) d model name consoleFlag
              (rw_world rw)) as [r0 w'] eqn:Eb.
  injection H as -> <-. cbn [rw_world Router_instance_count].
  split; [reflexivity|].
  destruct (Router_init_body_result _ _ _ _ _ _ _ _ _ _ Hd Eb)
    as (o' & Ho' & _ & Hoff & Hres).
  exists o'. split; [exact Ho'|].
  assert (Hold : forall i j ri rj c,
            i ∈ d_devices o -> j ∈ d_devices o ->
            routers w' !! i = Some ri -> routers w' !! j = Some rj ->
            r_console ri = Some c -> r_console rj = Some c -> i = j).
  { intros i j ri rj c Hi Hj Hri Hrj Hci Hcj.
    rewrite Hoff in Hri by (intros ->; exact (Hnin Hi)).
    rewrite Hoff in Hrj by (intros ->; exact (Hnin Hj)).
    exact (Hu i j ri rj c Hi Hj Hri Hrj Hci Hcj). }
  assert (Hfail : d_devices o' = d_devices o -> consoles_unique w' o').
  { intros Hdev i j ri rj c. rewrite Hdev. apply Hold. }
  destruct r as [[]|e| |]; cbn [succeeds]; try (split; [exact Hres | exact (Hfail Hres)]).
  destruct Hres as (Hdev & _ & con & Hself & Hcon & _).
  split; [exact Hdev|].
  assert (Hnew : forall i ri c,
            i ∈ d_devices o -> routers w' !! i = Some ri -> r_console ri = Some c ->
            con <> Some c).
  { intros i ri c Hi Hri Hci ->.
    destruct consoleFlag; [|discriminate].
    destruct Hcon as (c0 & [= <-] & Hpick).
    rewrite (pick_console_ext _ _ (routers (rw_world rw))) in Hpick.
    2:{ intros k Hk. apply lookup_insert_ne. intros <-. exact (Hnin Hk). }
    destruct (pick_console_fuel (length (d_devices o))
                (d_baseconsole o + Router_instance_count rw) (routers (rw_world rw))
                (d_devices o) (holders_from_length _ _ _)) as (c' & Hp & _ & Hn & _).
    rewrite Hp in Hpick. injection Hpick as ->.
    rewrite Hoff in Hri by (intros ->; exact (Hnin Hi)).
    exact (proj1 (checkconsole_scan_None _ _ _) Hn i ri Hi Hri Hci). }
  intros i j ri rj c Hi Hj Hri Hrj Hci Hcj. rewrite Hdev in Hi, Hj.
  apply elem_of_app in Hi. apply elem_of_app in Hj.
  destruct Hi as [Hi|Hi], Hj as [Hj|Hj].
  - exact (Hold i j ri rj c Hi Hj Hri Hrj Hci Hcj).
  - apply list_elem_of_singleton in Hj. subst j.
    rewrite Hself in Hrj. injection Hrj as <-. cbn [r_console] in Hcj.
    destruct (Hnew i ri c Hi Hri Hci Hcj).
  - apply list_elem_of_singleton in Hi. subst i.
    rewrite Hself in Hri. injection Hri as <-. cbn [r_console] in Hci.
    destruct (Hnew j rj c Hj Hrj Hcj Hci).
  - apply list_elem_of_singleton in Hi. apply list_elem_of_singleton in Hj. congruence.
Qed.

(** X15 (what the constructor sends): with sending switched on, a
    constructor that completes has handed the hypervisor exactly the create
    command and, with [consoleFlag], the console command behind it, and
    nothing with [consoleFlag] unset.  The create command carries the
    [name] argument as it was passed, so for an omitted name it names the
    VM [None], while the console command names it [r<instance>]. *)
Theorem Router_init_commands self d model name consoleFlag rw rw' o :
  dynamips (rw_world rw) !! d = Some o ->
  NOSEND (rw_world rw) = false ->
  Router_init self d model name consoleFlag rw = (Ok tt, rw') ->
  exists o' sent,
    dynamips (rw_world rw') !! d = Some o'
    /\ d_sent o'
       = d_sent o
         ++ (model +:+ " create " +:+ str_of_name name +:+ " "
               +:+ str_of_Z (Router_instance_count rw)) :: sent
    /\ (consoleFlag = false -> sent = [])
    /\ (consoleFlag = true ->
        exists c,
          sent = ["vm set_con_tcp_port "
                    +:+ default ("r" +:+ str_of_Z (Router_instance_count rw)) name
                    +:+ " " +:+ str_of_Z c]).
Proof.
  intros Hd Hn H. unfold Router_init in H.
  destruct (Router_init_body self (Router_instance_count rw) d model name consoleFlag
              (rw_world rw)) as [r w'] eqn:Eb.
  injection H as -> <-. cbn [rw_world].
  destruct (Router_init_body_result _ _ _ _ _ _ _ _ _ _ Hd Eb)
    as (o' & Ho' & _ & _ & _ & _ & con & _ & Hcon & Hsent).
  eexists o', _. split; [exact Ho'|]. split; [exact (Hsent Hn)|].
  destruct consoleFlag.
  - destruct Hcon as (c & -> & _). split; [discriminate|].
    intros _. exists c. destruct name; reflexivity.
  - subst con. split; [reflexivity | discriminate].
Qed.

(** A router made without a name on the first hypervisor of the lab. *)
Lemma Router_init_commands_witness :
  exists o' sent,
    dynamips (rw_world (snd (Router_init 7 0 "c7200" None true
                               (mkRouterWorld Lab.world0 1)))) !! 0%nat = Some o'
    /\ d_sent o'
       = d_sent Lab.hv0 ++ ("c7200" +:+ " create " +:+ str_of_name None +:+ " "
                              +:+ str_of_Z 1) :: sent
    /\ (true = false -> sent = [])
    /\ (true = true ->
        exists c,
          sent = ["vm set_con_tcp_port " +:+ default ("r" +:+ str_of_Z 1) None
                    +:+ " " +:+ str_of_Z c]).
Proof.
  assert (E : Router_init 7 0 "c7200" None true (mkRouterWorld Lab.world0 1)
              = (Ok tt, snd (Router_init 7 0 "c7200" None true (mkRouterWorld Lab.world0 1))))
    by (vm_compute; reflexivity).
  apply (Router_init_commands 7 0 "c7200" None true (mkRouterWorld Lab.world0 1) _ Lab.hv0).
  - reflexivity.
  - reflexivity.
  - exact E.
Defined.

(** The same constructor call, whatever its outcome. *)
Lemma Router_init_registry_witness :
  Router_instance_count (snd (Router_init 7 0 "c7200" None true (mkRouterWorld Lab.world0 1)))
  = (1 + 1)%Z
  /\ exists o',
       dynamips (rw_world (snd (Router_init 7 0 "c7200" None true
                                  (mkRouterWorld Lab.world0 1)))) !! 0%nat = Some o'
       /\ d_devices o'
          = (if succeeds (fst (Router_init 7 0 "c7200" None true
                                 (mkRouterWorld Lab.world0 1)))
             then d_devices Lab.hv0 ++ [7%nat] else d_devices Lab.hv0)
       /\ consoles_unique
            (rw_world (snd (Router_init 7 0 "c7200" None true (mkRouterWorld Lab.world0 1))))
            o'.
Proof.
  apply (Router_init_registry 7 0 "c7200" None true (mkRouterWorld Lab.world0 1) _ _ Lab.hv0).
  - reflexivity.
  - cbn [d_devices Lab.hv0]. intros Hin. repeat (apply elem_of_cons in Hin as [Hin|Hin];
      [discriminate|]). apply elem_of_nil in Hin. exact Hin.
  - exact world0_consoles_unique.
  - apply surjective_pairing.
Defined.

(** The empty port 0 of the adapter of [r0]. *)
Lemma connected_verdict_witness :
  snd (connected 0 (Some 0%Z) Lab.world0) = Lab.world0
  /\ (fst (connected 0 (Some 0%Z) Lab.world0) = Ok true
      <-> is_bound (BaseAdapter 0 "c7200" "r0" 1 "PA-FE-TX" 1 [None]) (Some 0%Z))
  /\ (fst (connected 0 (Some 0%Z) Lab.world0) = Ok false <->
      exists rd model name slot adapter ports nios,
        BaseAdapter 0 "c7200" "r0" 1 "PA-FE-TX" 1 [None]
        = BaseAdapter rd model name slot adapter ports nios
        /\ port_out_of_range (Some 0%Z) ports = false
        /\ nios !! Z.to_nat (default 0%Z (Some 0%Z)) = Some None)
  /\ (port_out_of_range (Some 0%Z) 1 = true ->
      fst (connected 0 (Some 0%Z) Lab.world0) = Exc (DynamipsError "invalid port")).
Proof.
  apply (connected_verdict Lab.world0 0 (BaseAdapter 0 "c7200" "r0" 1 "PA-FE-TX" 1 [None])
           (Some 0%Z)).
  reflexivity.
Defined.

(** ** The console setter, by outcome *)

(** X16 ([Router.__setconsole], by outcome): a call on a registered router
    ends in one of three ways.  A port outside 1..65535 is refused and
    nothing changes.  A port held by another device of the host instance (the
    first holder in list order) is refused with the message naming that
    device and nothing changes.  Otherwise the port is stored before the
    command goes out: the router holds the new port whatever [send] does
    then, error and timeout included, and nothing but that attribute
    changes in the registry.  However the call ends, registered routers
    hold pairwise different ports afterwards if they did before. *)
Theorem Router_setconsole_outcome w self r d c res w' :
  routers w !! self = Some r -> dynamips w !! r_d r = Some d ->
  Router_setconsole self c w = (res, w') ->
  ((~ (1 <= c <= 65535)%Z /\ res = Exc (DynamipsError "invalid console port") /\ w' = w)
   \/ ((1 <= c <= 65535)%Z
       /\ exists other ro,
            other <> self /\ other ∈ d_devices d
            /\ routers w !! other = Some ro /\ r_console ro = Some c
            /\ res = Exc (DynamipsError (conflict_msg c (r_name ro))) /\ w' = w)
   \/ ((1 <= c <= 65535)%Z
       /\ routers w' = <[self := mkRouter (r_d r) (r_model r) (r_name r) (Some c)]> (routers w)
       /\ endpoints w' = endpoints w
       /\ res = fst (send_to (r_d r)
                       ("vm set_con_tcp_port " +:+ r_name r +:+ " " +:+ str_of_Z c) w)))
  /\ (consoles_unique w d -> consoles_unique w' d).
Proof.
  intros Hr Hd H. split.
  2:{ intros Hu. pose proof (Router_setconsole_keeps_unique w self r d c Hr Hd Hu) as Hk.
      rewrite H in Hk. exact Hk. }
  destruct (Z.ltb_spec c 1) as [Hlo|Hlo].
  { left. unfold Router_setconsole in H.
    replace (c <? 1)%Z with true in H by (symmetry; apply Z.ltb_lt; exact Hlo).
    cbn [orb] in H. injection H as <- <-. split; [lia|]. auto. }
  destruct (Z.ltb_spec 65535 c) as [Hhi|Hhi].
  { left. unfold Router_setconsole in H.
    replace (65535 <? c)%Z with true in H by (symmetry; apply Z.ltb_lt; exact Hhi).
    rewrite orb_true_r in H. injection H as <- <-. split; [lia|]. auto. }
  right.
  assert (Hrange : (1 <= c <= 65535)%Z) by lia.
  assert (Hpass : checkconsole_scan c (routers w) (d_devices d) = None \/
                  checkconsole_scan c (routers w) (d_devices d) = Some self ->
                  (1 <= c <= 65535)%Z
                  /\ routers w'
                     = <[self := mkRouter (r_d r) (r_model r) (r_name r) (Some c)]> (routers w)
                  /\ endpoints w' = endpoints w
                  /\ res = fst (send_to (r_d r)
                                  ("vm set_con_tcp_port " +:+ r_name r +:+ " " +:+ str_of_Z c)
                                  w)).
  { intros Hscan. rewrite (Router_setconsole_pass w self r d c Hr Hd Hrange Hscan) in H.
    split; [exact Hrange|].
    set (cmd := "vm set_con_tcp_port " +:+ r_name r +:+ " " +:+ str_of_Z c) in *.
    set (w1 := with_routers (insert self (mkRouter (r_d r) (r_model r) (r_name r) (Some c))) w)
      in *.
    pose proof (send_to_routers (r_d r) cmd w1) as Hro.
    destruct (send_to_frame (r_d r) cmd w1) as (He & _).
    rewrite H in Hro, He. cbn [snd] in Hro, He.
    split; [exact Hro|]. split; [exact He|].
    assert (Hfst : fst (send_to (r_d r) cmd w1) = fst (send_to (r_d r) cmd w)).
    { unfold send_to. cbn [w1 with_routers dynamips NOSEND].
      destruct (dynamips w !! r_d r) as [o|]; [|reflexivity].
      destruct (NOSEND w); [reflexivity|].
      destruct (send false (d_s o)) as [out s']. destruct out; reflexivity. }
    rewrite <- Hfst, H. reflexivity. }
  destruct (checkconsole_scan c (routers w) (d_devices d)) as [other|] eqn:Hscan.
  2:{ right. apply Hpass. left. reflexivity. }
  destruct (decide (other = self)) as [->|Hne].
  { right. apply Hpass. right. reflexivity. }
  left. destruct (checkconsole_scan_Some _ _ _ _ Hscan) as (Hin & ro & Hro & Hc).
  rewrite (Router_setconsole_conflict w self r d c other ro Hr Hd Hrange Hscan Hne Hro) in H.
  injection H as <- <-. split; [exact Hrange|]. exists other, ro. auto 10.
Qed.

(** The router [r2] of the lab, which has no console yet, takes port
    2010. *)
Lemma Router_setconsole_outcome_witness :
  ((~ (1 <= 2010 <= 65535)%Z
    /\ fst (Router_setconsole 2 2010 Lab.world0) = Exc (DynamipsError "invalid console port")
    /\ snd (Router_setconsole 2 2010 Lab.world0) = Lab.world0)
   \/ ((1 <= 2010 <= 65535)%Z
       /\ exists other ro,
            other <> 2%nat /\ other ∈ d_devices Lab.hv0
            /\ routers Lab.world0 !! other = Some ro /\ r_console ro = Some 2010%Z
            /\ fst (Router_setconsole 2 2010 Lab.world0)
               = Exc (DynamipsError (conflict_msg 2010 (r_name ro)))
            /\ snd (Router_setconsole 2 2010 Lab.world0) = Lab.world0)
   \/ ((1 <= 2010 <= 65535)%Z
       /\ routers (snd (Router_setconsole 2 2010 Lab.world0))
          = <[2%nat := mkRouter 0 "c7200" "r2" (Some 2010%Z)]> (routers Lab.world0)
       /\ endpoints (snd (Router_setconsole 2 2010 Lab.world0)) = endpoints Lab.world0
       /\ fst (Router_setconsole 2 2010 Lab.world0)
          = fst (send_to 0 ("vm set_con_tcp_port " +:+ "r2" +:+ " " +:+ str_of_Z 2010)
                   Lab.world0)))
  /\ (consoles_unique Lab.world0 Lab.hv0 ->
      consoles_unique (snd (Router_setconsole 2 2010 Lab.world0)) Lab.hv0).
Proof.
  apply (Router_setconsole_outcome Lab.world0 2 (mkRouter 0 "c7200" "r2" None) Lab.hv0 2010).
  - reflexivity.
  - reflexivity.
  - apply surjective_pairing.
Defined.

(** ** [FRSW.map] *)

Section FrameRelay.

Lemma track_dlci_lookup dlcis port dlci q :
  track_dlci dlcis port dlci !! q
  = if decide (port = q) then Some (default [] (dlcis !! port) ++ [dlci]) else dlcis !! q.
Proof.
  unfold track_dlci. destruct (dlcis !! port) as [l|] eqn:E; cbn [default];
    destruct (decide (port = q)) as [<-|Hne];
    rewrite ?lookup_insert_eq, ?lookup_insert_ne by exact Hne; reflexivity.
Qed.

End FrameRelay.

(** X17 ([FRSW.map]): for arguments that pass the four range tests, a map
    between two ports of a Frame-Relay switch needs a NIO on both.  If
    [port1] has none, or [port1] has one and [port2] has none, the call
    raises the [DynamipsWarning] of the [nio] getter for that port and has
    sent nothing; the messages of the two [except KeyError] clauses never
    come out.  With both ports connected exactly one command goes to
    [send]; only if it is acknowledged are the DLCIs recorded: [dlci1] is
    appended to the list of [port1] and then [dlci2] to the list of
    [port2], every other port keeps its list.  No endpoint changes. *)
Theorem FRSW_map_outcome w a d name nios dlcis port1 dlci1 port2 dlci2 r w' :
  endpoints w !! a = Some (FRSW d name nios) ->
  (0 <= port1)%Z -> (0 <= port2)%Z -> (0 <= dlci1)%Z -> (0 <= dlci2)%Z ->
  FRSW_map a dlcis port1 dlci1 port2 dlci2 w = (r, w') ->
  endpoints w' = endpoints w
  /\ match nios !! Some port1, nios !! Some port2 with
     | None, _ =>
         r = Exc (DynamipsWarning (unused_msg "Frame-Relay switchport " (Some port1) name))
         /\ w' = w
     | Some _, None =>
         r = Exc (DynamipsWarning (unused_msg "Frame-Relay switchport " (Some port2) name))
         /\ w' = w
     | Some n1, Some n2 =>
         let command := "frsw create_vc " +:+ name +:+ " " +:+ nio_name n1 +:+ " "
                          +:+ str_of_Z dlci1 +:+ " " +:+ nio_name n2 +:+ " "
                          +:+ str_of_Z dlci2 in
         w' = snd (send_to d command w)
         /\ succeeds r = succeeds (fst (send_to d command w))
         /\ forall dlcis', r = Ok dlcis' ->
              forall q,
                dlcis' !! q
                = if decide (port1 = q \/ port2 = q)
                  then Some (default [] (dlcis !! q)
                               ++ (if decide (port1 = q) then [dlci1] else [])
                               ++ (if decide (port2 = q) then [dlci2] else []))
                  else dlcis !! q
     end.
Proof.
  intros Ha H1 H2 H3 H4 H. unfold FRSW_map in H.
  replace (port1 <? 0)%Z with false in H by (symmetry; apply Z.ltb_ge; exact H1).
  replace (port2 <? 0)%Z with false in H by (symmetry; apply Z.ltb_ge; exact H2).
  replace (dlci1 <? 0)%Z with false in H by (symmetry; apply Z.ltb_ge; exact H3).
  replace (dlci2 <? 0)%Z with false in H by (symmetry; apply Z.ltb_ge; exact H4).
  rewrite (bind_Ok _ _ _ _ _ (get_endpoint_Some _ _ _ Ha)) in H.
  unfold nio_name_at in H. cbn [nio_read] in H.
  destruct (nios !! Some port1) as [n1|].
  2:{ injection H as <- <-. auto. }
  unfold bind at 1, lift at 1 in H.
  destruct (nios !! Some port2) as [n2|].
  2:{ injection H as <- <-. auto. }
  unfold bind at 1, lift at 1 in H. cbv zeta.
  set (command := "frsw create_vc " +:+ name +:+ " " +:+ nio_name n1 +:+ " "
                    +:+ str_of_Z dlci1 +:+ " " +:+ nio_name n2 +:+ " " +:+ str_of_Z dlci2)
    in *.
  destruct (send_to_frame d command w) as (He & _).
  unfold bind, ret in H.
  destruct (send_to d command w) as [[[]|e| |] w1]; injection H as <- <-; cbn [fst snd] in *;
    (split; [exact He|]); (split; [reflexivity|]); (split; [reflexivity|]);
    intros dlcis' Hr; try discriminate.
  injection Hr as <-. intros q. rewrite !track_dlci_lookup.
  destruct (decide (port1 = q)) as [E1|N1], (decide (port2 = q)) as [E2|N2];
    destruct (decide (port1 = q \/ port2 = q)) as [E|N]; try tauto;
    destruct (decide (port1 = port2)) as [E12|N12]; try congruence;
    subst; cbn [from_option]; unfold id; rewrite ?app_nil_r, <- ?app_assoc; reflexivity.
Qed.

(** A map between the ports 1 and 2 of the switch [f0], DLCIs 101 and
    202. *)
Lemma FRSW_map_outcome_witness :
  endpoints (snd (FRSW_map 6 ∅ 1 101 2 202 FrameRelayLab.world3))
  = endpoints FrameRelayLab.world3
  /\ match (<[Some 1%Z := FrameRelayLab.nio_a]> (<[Some 2%Z := FrameRelayLab.nio_b]> ∅)
            : gmap (option Z) NIO_udp) !! Some 1%Z,
           (<[Some 1%Z := FrameRelayLab.nio_a]> (<[Some 2%Z := FrameRelayLab.nio_b]> ∅)
            : gmap (option Z) NIO_udp) !! Some 2%Z with
     | None, _ =>
         fst (FRSW_map 6 ∅ 1 101 2 202 FrameRelayLab.world3)
         = Exc (DynamipsWarning (unused_msg "Frame-Relay switchport " (Some 1%Z) "f0"))
         /\ snd (FRSW_map 6 ∅ 1 101 2 202 FrameRelayLab.world3) = FrameRelayLab.world3
     | Some _, None =>
         fst (FRSW_map 6 ∅ 1 101 2 202 FrameRelayLab.world3)
         = Exc (DynamipsWarning (unused_msg "Frame-Relay switchport " (Some 2%Z) "f0"))
         /\ snd (FRSW_map 6 ∅ 1 101 2 202 FrameRelayLab.world3) = FrameRelayLab.world3
     | Some n1, Some n2 =>
         let command := "frsw create_vc " +:+ "f0" +:+ " " +:+ nio_name n1 +:+ " "
                          +:+ str_of_Z 101 +:+ " " +:+ nio_name n2 +:+ " "
                          +:+ str_of_Z 202 in
         snd (FRSW_map 6 ∅ 1 101 2 202 FrameRelayLab.world3)
         = snd (send_to 0 command FrameRelayLab.world3)
         /\ succeeds (fst (FRSW_map 6 ∅ 1 101 2 202 FrameRelayLab.world3))
            = succeeds (fst (send_to 0 command FrameRelayLab.world3))
         /\ forall dlcis', fst (FRSW_map 6 ∅ 1 101 2 202 FrameRelayLab.world3) = Ok dlcis' ->
              forall q,
                dlcis' !! q
                = if decide (1%Z = q \/ 2%Z = q)
                  then Some (default [] ((∅ : gmap Z (list Z)) !! q)
                               ++ (if decide (1%Z = q) then [101%Z] else [])
                               ++ (if decide (2%Z = q) then [202%Z] else []))
                  else (∅ : gmap Z (list Z)) !! q
     end.
Proof.
  apply (FRSW_map_outcome FrameRelayLab.world3 6 0 "f0"
           (<[Some 1%Z := FrameRelayLab.nio_a]> (<[Some 2%Z := FrameRelayLab.nio_b]> ∅))
           ∅ 1 101 2 202).
  - reflexivity.
  - lia.
  - lia.
  - lia.
  - lia.
  - apply surjective_pairing.
Defined.
